(** * cli-bridge: the HTTP-to-CLI streaming adapter

    A shallow embedding of the two entry points of the repository
    ([src/unnamed/part_000], the router variant, and [src/index.mjs]) and the
    properties of the streaming adapter: prompt construction, request
    validation, the line-buffering pipeline over subprocess output, the
    terminal marker and cancellation. *)

From Stdlib Require Import String Ascii List ZArith Bool Lia DecimalString.
Import ListNotations.
Open Scope list_scope.
Open Scope string_scope.

(** ** JavaScript values and strings *)

(** A JavaScript string is carried as the UTF-8 encoding of its text, so that
    string literals of the source are string literals here.  A surrogate
    that has no partner, which [JSON.parse] can build from an escape, is
    carried as the three bytes of its code point; the program joins strings
    only with characters of its own between them, so two such halves never
    meet. *)

Definition LF : ascii := "010"%char.
Definition nl : string := String LF EmptyString.

(** The values that [JSON.parse] builds, and [undefined] for what a missing
    property reads as.  Numbers are carried as integers: [JNum n] is the
    Number value nearest to [n] (see [to_double] below); a number that is
    not an integer has no value here. *)
#[warnings="-register-all"]
Inductive jsval : Type :=
| JUndef
| JNull
| JBool (b : bool)
| JNum (n : Z)
| JStr (s : string)
| JArr (xs : list jsval)
| JObj (kvs : list (string * jsval)).

Definition nonempty (s : string) : bool :=
  match s with EmptyString => false | String _ _ => true end.

(** ToBoolean. *)
Definition truthy (v : jsval) : bool :=
  match v with
  | JUndef | JNull => false
  | JBool b => b
  | JNum n => negb (Z.eqb n 0)
  | JStr s => nonempty s
  | JArr _ | JObj _ => true
  end.

(** [a || b]. *)
Definition js_or (a b : jsval) : jsval := if truthy a then a else b.

(** [v === 'lit']. *)
Definition is_str (v : jsval) (lit : string) : bool :=
  match v with JStr s => String.eqb s lit | _ => false end.

Fixpoint assoc (k : string) (kvs : list (string * jsval)) : jsval :=
  match kvs with
  | [] => JUndef
  | (k', v) :: rest => if String.eqb k k' then v else assoc k rest
  end.

(** [v.k] for the keys this program reads (none of them is a member of
    [Object.prototype], [Array.prototype] or [String.prototype]): [None] is
    the TypeError of reading a property of [null] or [undefined]. *)
Definition prop (v : jsval) (k : string) : option jsval :=
  match v with
  | JUndef | JNull => None
  | JObj kvs => Some (assoc k kvs)
  | _ => Some JUndef
  end.

(** [v?.k]. *)
Definition opt_prop (v : jsval) (k : string) : jsval :=
  match prop v k with Some x => x | None => JUndef end.

Definition dec (n : Z) : string := NilZero.string_of_int (Z.to_int n).

(** *** Number::toString *)

(** The Number value of an integer: the nearest double, a tie going to the
    even mantissa.  A magnitude of 2^1024 or more stands for an infinity. *)
Definition to_double (n : Z) : Z :=
  let a := Z.abs n in
  let b := Z.log2 a in
  if Z.leb b 52 then n
  else
    let sh := (b - 52)%Z in
    let q := Z.shiftr a sh in
    let r := (a - Z.shiftl q sh)%Z in
    let half := Z.shiftl 1 (sh - 1) in
    let q' := if Z.ltb half r || (Z.eqb r half && Z.odd q) then (q + 1)%Z else q in
    (Z.sgn n * Z.shiftl q' sh)%Z.

Definition is_finite (n : Z) : bool := Z.ltb (Z.log2 (Z.abs (to_double n))) 1024.

(** The digits [s] and the exponent [n] of a positive double [x] of [D]
    decimal digits: the least number [k] of digits for which a multiple
    [s * 10^(n-k)] of a power of ten is read back as [x], and among those
    the multiple nearest to [x]. *)
Fixpoint shortest (fuel : nat) (k : Z) (x D : Z) : Z * Z :=
  match fuel with
  | O => (x, D)
  | S f =>
      let p := (10 ^ (D - k))%Z in
      let lo := (x / p)%Z in
      let v1 := (lo * p)%Z in
      let v2 := ((lo + 1) * p)%Z in
      let ok1 := Z.eqb (to_double v1) x in
      let ok2 := Z.eqb (to_double v2) x in
      if ok1 || ok2 then
        let s := if ok1 && ok2
                 then if Z.ltb (x - v1) (v2 - x) then lo
                      else if Z.ltb (v2 - x) (x - v1) then (lo + 1)%Z
                      else if Z.even lo then lo else (lo + 1)%Z
                 else if ok1 then lo else (lo + 1)%Z in
        if Z.eqb s (10 ^ k) then ((10 ^ (k - 1))%Z, (D + 1)%Z) else (s, D)
      else shortest f (k + 1)%Z x D
  end.

Fixpoint zeros (n : nat) : string :=
  match n with O => EmptyString | S m => String "0" (zeros m) end.

(** The digits followed by zeros up to 21 digits, and the exponent form
    from there on. *)
Definition digits_exp (x : Z) : string :=
  let D := Z.of_nat (String.length (dec x)) in
  let (s, n) := shortest (Z.to_nat (D - 1)) 1 x D in
  let ds := dec s in
  let k := Z.of_nat (String.length ds) in
  if Z.leb n 21 then ds ++ zeros (Z.to_nat (n - k))
  else match ds with
       | EmptyString => EmptyString
       | String d EmptyString => String d ("e+" ++ dec (n - 1))
       | String d rest => String d ("." ++ rest ++ "e+" ++ dec (n - 1))
       end.

(** An integer up to 2^53 in magnitude is a double and is printed in full. *)
Definition Number_toString (n : Z) : string :=
  if Z.leb (Z.abs n) 9007199254740992 then dec n
  else if is_finite n
       then (if Z.ltb n 0 then "-" else "") ++ digits_exp (Z.abs (to_double n))
       else if Z.ltb n 0 then "-Infinity" else "Infinity".

(** *** ToString *)

(** Whether the conversion to a string returns.  An object converts through
    its [toString] member: the one of [Object.prototype], unless the object
    has a member of that name of its own, which in a value built by
    [JSON.parse] is no function, and the conversion then throws a TypeError.
    An array converts through [join], which converts its elements. *)
Fixpoint printable (v : jsval) : bool :=
  match v with
  | JArr xs => forallb printable xs
  | JObj kvs => negb (existsb (fun kv => String.eqb (fst kv) "toString") kvs)
  | _ => true
  end.

(** ToString where it returns, as a template literal or a property key
    applies it. *)
Fixpoint to_string (v : jsval) : string :=
  match v with
  | JUndef => "undefined"
  | JNull => "null"
  | JBool true => "true"
  | JBool false => "false"
  | JNum n => Number_toString n
  | JStr s => s
  | JArr xs =>
      String.concat ","
        (map (fun x => match x with
                       | JUndef | JNull => ""
                       | _ => to_string x
                       end) xs)
  | JObj _ => "[object Object]"
  end.

(** *** String.prototype.trim *)

Definition code (c : ascii) : N := N_of_ascii c.

(** White space and line terminators of one UTF-8 byte: TAB, LF, VT, FF, CR
    and SP. *)
Definition is_ws1 (c : ascii) : bool :=
  let n := code c in
  (N.leb 9 n && N.leb n 13) || N.eqb n 32.

(** U+00A0 is C2 A0. *)
Definition is_ws2 (a b : ascii) : bool :=
  N.eqb (code a) 194 && N.eqb (code b) 160.

(** Three bytes: U+1680, U+2000..U+200A, U+2028, U+2029, U+202F, U+205F,
    U+3000 and U+FEFF. *)
Definition is_ws3 (a b c : ascii) : bool :=
  let x := code a in let y := code b in let z := code c in
  (N.eqb x 225 && N.eqb y 154 && N.eqb z 128)
  || (N.eqb x 226 && N.eqb y 128 &&
      ((N.leb 128 z && N.leb z 138) || N.eqb z 168 || N.eqb z 169 || N.eqb z 175))
  || (N.eqb x 226 && N.eqb y 129 && N.eqb z 159)
  || (N.eqb x 227 && N.eqb y 128 && N.eqb z 128)
  || (N.eqb x 239 && N.eqb y 187 && N.eqb z 191).

Fixpoint trimStart (s : string) : string :=
  match s with
  | EmptyString => s
  | String a s1 =>
      if is_ws1 a then trimStart s1
      else match s1 with
           | EmptyString => s
           | String b s2 =>
               if is_ws2 a b then trimStart s2
               else match s2 with
                    | EmptyString => s
                    | String c s3 => if is_ws3 a b c then trimStart s3 else s
                    end
           end
  end.

(** The same scan over the reversed bytes, for the end of the string. *)
Fixpoint trimStart_rev (r : list ascii) : list ascii :=
  match r with
  | [] => r
  | a :: r1 =>
      if is_ws1 a then trimStart_rev r1
      else match r1 with
           | [] => r
           | b :: r2 =>
               if is_ws2 b a then trimStart_rev r2
               else match r2 with
                    | [] => r
                    | c :: r3 => if is_ws3 c b a then trimStart_rev r3 else r
                    end
           end
  end.

Definition trimEnd (s : string) : string :=
  string_of_list_ascii (rev (trimStart_rev (rev (list_ascii_of_string s)))).

Definition trim (s : string) : string := trimEnd (trimStart s).

(** [s.startsWith(p)]. *)
Definition startsWith (s p : string) : bool := String.prefix p s.

(** *** String.prototype.split on a one-character separator *)

Fixpoint split (sep : ascii) (s : string) : list string :=
  match s with
  | EmptyString => [EmptyString]
  | String c s' =>
      if Ascii.eqb c sep then EmptyString :: split sep s'
      else match split sep s' with
           | h :: t => String c h :: t
           | [] => [String c EmptyString]
           end
  end.

(** [Array.prototype.pop]: the array without its last element, and that
    element ([None] for the [undefined] an empty array gives). *)
Fixpoint pop {A : Type} (l : list A) : list A * option A :=
  match l with
  | [] => ([], None)
  | [x] => ([], Some x)
  | x :: rest => let (init, lst) := pop rest in (x :: init, lst)
  end.

(** *** JSON.stringify *)

Definition hex_digit (n : N) : ascii :=
  if N.ltb n 10 then ascii_of_N (48 + n) else ascii_of_N (87 + n).

Definition quote_char (c : ascii) : string :=
  let n := code c in
  if N.eqb n 34 then String "\" (String c EmptyString)
  else if N.eqb n 92 then "\\"
  else if N.eqb n 8 then "\b"
  else if N.eqb n 9 then "\t"
  else if N.eqb n 10 then "\n"
  else if N.eqb n 12 then "\f"
  else if N.eqb n 13 then "\r"
  else if N.ltb n 32 then
    "\u00" ++ String (hex_digit (N.div n 16)) (String (hex_digit (N.modulo n 16)) EmptyString)
  else String c EmptyString.

(** A surrogate without partner: ED, then A0..BF, then 80..BF. *)
Definition is_lone_surrogate (a b c : ascii) : bool :=
  N.eqb (code a) 237 && N.leb 160 (code b) && N.leb (code b) 191
  && N.leb 128 (code c) && N.leb (code c) 191.

Definition hex1 (n : N) : string := String (hex_digit (N.modulo n 16)) EmptyString.

(** Its escape, [\udXXX]. *)
Definition surrogate_escape (b c : ascii) : string :=
  let cp := (53248 + (code b - 128) * 64 + (code c - 128))%N in
  "\u" ++ hex1 (N.div cp 4096) ++ hex1 (N.div cp 256) ++ hex1 (N.div cp 16) ++ hex1 cp.

Fixpoint quote_body (s : string) : string :=
  match s with
  | EmptyString => EmptyString
  | String a s' =>
      match s' with
      | String b (String c rest) =>
          if is_lone_surrogate a b c then surrogate_escape b c ++ quote_body rest
          else quote_char a ++ quote_body s'
      | _ => quote_char a ++ quote_body s'
      end
  end.

Definition dquote : string := String "034" EmptyString.

Definition quote (s : string) : string := dquote ++ quote_body s ++ dquote.

(** The serialization of a value, [None] where JavaScript gives [undefined]. *)
Fixpoint serialize (v : jsval) : option string :=
  match v with
  | JUndef => None
  | JNull => Some "null"
  | JBool true => Some "true"
  | JBool false => Some "false"
  | JNum n => Some (if is_finite n then Number_toString n else "null")
  | JStr s => Some (quote s)
  | JArr xs =>
      Some ("[" ++ String.concat ","
                     (map (fun x => match serialize x with
                                    | Some s => s
                                    | None => "null"
                                    end) xs) ++ "]")
  | JObj kvs =>
      Some ("{" ++ String.concat ","
                     (flat_map (fun kv => match serialize (snd kv) with
                                          | Some s => [quote (fst kv) ++ ":" ++ s]
                                          | None => []
                                          end) kvs) ++ "}")
  end.

(** [`${JSON.stringify(v)}`]. *)
Definition JSON_stringify (v : jsval) : string :=
  match serialize v with Some s => s | None => "undefined" end.

(** ** The Node.js runtime, as far as the program relies on it *)

(** *** Buffer.prototype.toString()

    The default encoding is UTF-8: a well-formed sequence decodes to its
    character, and every maximal ill-formed run of bytes, also a sequence cut
    short by the end of the buffer, decodes to U+FFFD. *)

Definition REPLACEMENT : string :=
  String (ascii_of_N 239) (String (ascii_of_N 191) (String (ascii_of_N 189) EmptyString)).

Inductive lead_class : Type :=
| Single
| Lead (need : nat) (lo hi : N)
| Invalid.

Definition classify (b : ascii) : lead_class :=
  let n := code b in
  if N.leb n 127 then Single
  else if N.leb 194 n && N.leb n 223 then Lead 1 128 191
  else if N.eqb n 224 then Lead 2 160 191
  else if N.eqb n 237 then Lead 2 128 159
  else if N.leb 225 n && N.leb n 239 then Lead 2 128 191
  else if N.eqb n 240 then Lead 3 144 191
  else if N.eqb n 244 then Lead 3 128 143
  else if N.leb 241 n && N.leb n 243 then Lead 3 128 191
  else Invalid.

(** [need] continuation bytes are still expected after the bytes [seen], the
    next one within [lo..hi]. *)
Fixpoint utf8_decode (need : nat) (seen : string) (lo hi : N) (s : string)
  {struct s} : string :=
  match s with
  | EmptyString => match need with O => EmptyString | S _ => REPLACEMENT end
  | String b s' =>
      let fresh :=
        match classify b with
        | Single => String b (utf8_decode 0 EmptyString 128 191 s')
        | Lead n lo' hi' => utf8_decode n (String b EmptyString) lo' hi' s'
        | Invalid => REPLACEMENT ++ utf8_decode 0 EmptyString 128 191 s'
        end in
      match need with
      | O => fresh
      | S n =>
          if N.leb lo (code b) && N.leb (code b) hi then
            match n with
            | O => seen ++ String b (utf8_decode 0 EmptyString 128 191 s')
            | S _ => utf8_decode n (seen ++ String b EmptyString) 128 191 s'
            end
          else REPLACEMENT ++ fresh
      end
  end.

(** A [Buffer] is the string of its bytes. *)
Definition Buffer_toString (data : string) : string :=
  utf8_decode 0 EmptyString 128 191 data.

(** *** child_process.spawn *)

Definition NUL : ascii := ascii_of_N 0.

Fixpoint has_NUL (s : string) : bool :=
  match s with
  | EmptyString => false
  | String c s' => Ascii.eqb c NUL || has_NUL s'
  end.

(** [spawn(command, args)] throws (ERR_INVALID_ARG_VALUE) before it starts
    anything when the command is empty or holds a null byte, or when an
    argument is a string that holds one. *)
Definition spawn_refuses (command : string) (args : list jsval) : bool :=
  negb (nonempty command) || has_NUL command
  || existsb (fun a => match a with JStr x => has_NUL x | _ => false end) args.

(** *** http.ServerResponse *)

(** The calls the program makes on the response, oldest first. *)
Inductive res_op : Type :=
| Write (chunk : string)
| End.

(** What the response stream carries: the chunks written until [end()] is
    called.  A [write()] after [end()] is refused by the response
    (ERR_STREAM_WRITE_AFTER_END) and sends nothing. *)
Fixpoint sent (ops : list res_op) : list string :=
  match ops with
  | [] => []
  | Write c :: rest => c :: sent rest
  | End :: _ => []
  end.

Definition is_End (op : res_op) : bool :=
  match op with End => true | Write _ => false end.

(** ** The emit callback and exceptions of a parser *)

(** A computation that calls [emit] on some values, in order, and then either
    returns or throws. *)
Definition Emit (A : Type) : Type := (list jsval * option A)%type.

Definition ret {A : Type} (a : A) : Emit A := ([], Some a).
Definition throw {A : Type} : Emit A := ([], None).
Definition emit (v : jsval) : Emit unit := ([v], Some tt).

Definition bind {A B : Type} (m : Emit A) (f : A -> Emit B) : Emit B :=
  match m with
  | (out, Some a) => let (out', r) := f a in ((out ++ out')%list, r)
  | (out, None) => (out, None)
  end.

Definition lift {A : Type} (o : option A) : Emit A :=
  match o with Some a => ret a | None => throw end.

Declare Scope emit_scope.
Delimit Scope emit_scope with emit.
Notation "x <- m ;; k" := (bind m (fun x => k))
  (at level 61, m at next level, right associativity) : emit_scope.
Notation "m ;;; k" := (bind m (fun _ => k))
  (at level 61, right associativity) : emit_scope.

(** [for (const x of xs) body(x)]. *)
Fixpoint for_of (xs : list jsval) (body : jsval -> Emit unit) : Emit unit :=
  match xs with
  | [] => ret tt
  | x :: rest => bind (body x) (fun _ => for_of rest body)
  end.

(** What [for ... of] iterates over: the elements of an array, the characters
    of a string; anything else is not iterable (TypeError). *)
Definition iterate (v : jsval) : option (list jsval) :=
  match v with
  | JArr xs => Some xs
  | JStr s => Some (map (fun c => JStr (String c EmptyString)) (list_ascii_of_string s))
  | _ => None
  end.

(** ** The provider table entry *)

Inductive input_mode : Type := stdin | arg.

Record tool : Type := {
  command : string;
  buildArgs : jsval -> jsval -> list jsval;
  inputMode : input_mode;
  embedSystemPrompt : bool;
  parseStream : option (string -> Emit unit)
}.

(** ** A chat session: the state the handlers of one request share *)

Record session : Type := {
  buffer : string;
  textSent : bool;
  res : list res_op;
  console : list string;
  killed : bool;
  exited : bool;
  signals : list string
}.

Definition initial : session :=
  {| buffer := ""; textSent := false; res := []; console := [];
     killed := false; exited := false; signals := [] |}.

Definition set_buffer (b : string) (s : session) : session :=
  {| buffer := b; textSent := textSent s; res := res s; console := console s;
     killed := killed s; exited := exited s; signals := signals s |}.

Definition set_textSent (b : bool) (s : session) : session :=
  {| buffer := buffer s; textSent := b; res := res s; console := console s;
     killed := killed s; exited := exited s; signals := signals s |}.

Definition res_call (op : res_op) (s : session) : session :=
  {| buffer := buffer s; textSent := textSent s; res := (res s ++ [op])%list;
     console := console s;
     killed := killed s; exited := exited s; signals := signals s |}.

Definition res_write (chunk : string) : session -> session := res_call (Write chunk).
Definition res_end : session -> session := res_call End.

Definition console_error (line : string) (s : session) : session :=
  {| buffer := buffer s; textSent := textSent s; res := res s;
     console := (console s ++ [line])%list;
     killed := killed s; exited := exited s; signals := signals s |}.

Definition set_exited (s : session) : session :=
  {| buffer := buffer s; textSent := textSent s; res := res s; console := console s;
     killed := killed s; exited := true; signals := signals s |}.

(** [proc.kill(sig)]: the signal is sent and [killed] set while the process
    runs; once the process has ended the call returns false and does
    nothing. *)
Definition proc_kill (sig : string) (s : session) : session :=
  if exited s then s
  else {| buffer := buffer s; textSent := textSent s; res := res s;
          console := console s;
          killed := true; exited := exited s;
          signals := (signals s ++ [sig])%list |}.

(** The three chunks the program writes. *)
Definition sse_text (text : jsval) : string :=
  "data: " ++ JSON_stringify (JObj [("text", text)]) ++ nl ++ nl.

Definition sse_error (message : string) : string :=
  "data: " ++ JSON_stringify (JObj [("error", JStr message)]) ++ nl ++ nl.

Definition DONE : string := "data: [DONE]" ++ nl ++ nl.

(** The callback both handlers pass to [parseStream]:
    [(text) => { textSent = true; res.write(...) }]. *)
Definition emit_cb (text : jsval) (s : session) : session :=
  res_write (sse_text text) (set_textSent true s).

Definition emit_all (texts : list jsval) (s : session) : session :=
  fold_left (fun st v => emit_cb v st) texts s.

(** ** The stream handlers of a chat request ([src/unnamed/part_000]) *)

(** The body of the loop over complete lines, for a parser [p]:
    blank lines are skipped; what the parser emits is written; when the
    parser throws, a line that does not look like JSON is written as text. *)
Definition process_line {A : Type} (p : string -> Emit A) (line : string)
  (s : session) : session :=
  if nonempty (trim line) then
    let (texts, r) := p line in
    let s1 := emit_all texts s in
    match r with
    | Some _ => s1
    | None =>
        let trimmed := trim line in
        if nonempty trimmed && negb (startsWith trimmed "{")
           && negb (startsWith trimmed "[")
        then res_write (sse_text (JStr (trimmed ++ nl))) (set_textSent true s1)
        else s1
    end
  else s.

Definition process_lines {A : Type} (p : string -> Emit A) (lines : list string)
  (s : session) : session :=
  fold_left (fun st line => process_line p line st) lines s.

(** The rolling buffer: [buffer += text; lines = buffer.split('\n');
    buffer = lines.pop() || ''], then the loop. *)
Definition feed_lines {A : Type} (p : string -> Emit A) (text : string)
  (s : session) : session :=
  let (lines, last) := pop (split LF (buffer s ++ text)) in
  process_lines p lines
    (set_buffer (match last with Some l => l | None => "" end) s).

(** The residual buffer of a JSON-mode provider at process exit. *)
Definition flush_json {A : Type} (p : string -> Emit A) (s : session) : session :=
  let (texts, r) := p (buffer s) in
  let s1 := emit_all texts s in
  match r with
  | Some _ => s1
  | None =>
      if textSent s1 then s1
      else res_write (sse_text (JStr (trim (buffer s)))) s1
  end.

Definition show_code (code : option Z) : string :=
  match code with Some n => Number_toString n | None => "null" end.

Definition is_zero (code : option Z) : bool :=
  match code with Some n => Z.eqb n 0 | None => false end.

(** The events of a session: those the handler listens to (data on the
    output and on the diagnostic channel, ['close'] and ['error'] of the
    process, ['close'] of the response), and the end of the process itself
    ([ProcExit]), which it does not hear.  The handler registers no listener
    on [proc.stdin]: an error of that stream (EPIPE, when the process has
    gone before it read the prompt) is raised by the runtime as an uncaught
    exception, which stops the server; the events of the session end
    there. *)
Inductive event : Type :=
| StdoutData (data : string)
| StderrData (data : string)
| ProcExit
| ProcClose (code : option Z)
| ProcError (message : string)
| ResClose.

Definition is_terminal (e : event) : bool :=
  match e with ProcClose _ | ProcError _ => true | _ => false end.

Section Session.

Variable providerName : jsval.
Variable cliTool : tool.

(** [proc.stdout.on('data', ...)] once [data.toString()] is taken. *)
Definition on_stdout_text (text : string) (s : session) : session :=
  match parseStream cliTool with
  | None => if nonempty text then emit_cb (JStr text) s else s
  | Some p => feed_lines p text s
  end.

Definition on_stdout_data (data : string) (s : session) : session :=
  on_stdout_text (Buffer_toString data) s.

Definition on_stderr_data (data : string) (s : session) : session :=
  let msg := trim (Buffer_toString data) in
  if nonempty msg
  then console_error ("[" ++ to_string providerName ++ " stderr] " ++ msg) s
  else s.

(** [proc.on('close', ...)]. *)
Definition on_close (code : option Z) (s : session) : session :=
  let s1 :=
    if nonempty (trim (buffer s)) then
      match parseStream cliTool with
      | None => res_write (sse_text (JStr (trim (buffer s)))) s
      | Some p => flush_json p s
      end
    else s in
  let s2 := res_end (res_write DONE s1) in
  if is_zero code then s2
  else console_error
         ("[" ++ to_string providerName ++ "] exited with code " ++ show_code code) s2.

(** [proc.on('error', ...)]. *)
Definition on_error (message : string) (s : session) : session :=
  let s1 := console_error
              ("[" ++ to_string providerName ++ " spawn error] " ++ message) s in
  let s2 := res_write
              (sse_error ("Failed to start " ++ to_string providerName
                          ++ " CLI. Is it installed?")) s1 in
  res_end (res_write DONE s2).

(** [res.on('close', ...)]. *)
Definition on_res_close (s : session) : session :=
  if killed s then s else proc_kill "SIGTERM" s.

(** One event of the session.  The process has ended when its ['close'] is
    delivered, and there is no process when ['error'] reports that it could
    not be started. *)
Definition step (s : session) (e : event) : session :=
  match e with
  | StdoutData data => on_stdout_data data s
  | StderrData data => on_stderr_data data s
  | ProcExit => set_exited s
  | ProcClose code => on_close code (set_exited s)
  | ProcError message => on_error message (set_exited s)
  | ResClose => on_res_close s
  end.

Definition run (trace : list event) (s : session) : session :=
  fold_left step trace s.

End Session.

(** ** The request handler *)

(** The members every object literal inherits from [Object.prototype]. *)
Definition Object_prototype : list string :=
  [ "constructor"; "__defineGetter__"; "__defineSetter__"; "hasOwnProperty";
    "__lookupGetter__"; "__lookupSetter__"; "isPrototypeOf";
    "propertyIsEnumerable"; "toString"; "valueOf"; "__proto__";
    "toLocaleString" ].

(** What [CLI_TOOLS[key]] reads: an entry of the table, a member inherited
    from [Object.prototype] (truthy, and no provider), or [undefined]. *)
Inductive looked_up (T : Type) : Type :=
| Own (t : T)
| Inherited
| Undefined.
Arguments Own {T} t.
Arguments Inherited {T}.
Arguments Undefined {T}.

Fixpoint own {T : Type} (table : list (string * T)) (k : string) : option T :=
  match table with
  | [] => None
  | (k', t) :: rest => if String.eqb k k' then Some t else own rest k
  end.

Definition lookup {T : Type} (table : list (string * T)) (key : jsval) : looked_up T :=
  let k := to_string key in
  match own table k with
  | Some t => Own t
  | None => if existsb (String.eqb k) Object_prototype then Inherited else Undefined
  end.

(** [Object.keys(table)]. *)
Definition keys {T : Type} (table : list (string * T)) : list string := map fst table.

(** What the handler does to the response and the operating system, in
    order.  [Listen] installs the stream handlers above; [Throw] is an
    exception that leaves the handler. *)
Inductive action : Type :=
| Status (code : Z)
| Json (body : jsval)
| SetHeader (name value : string)
| FlushHeaders
| Spawn (command : string) (args : list jsval)
| StdinWrite (chunk : string)
| StdinEnd
| Listen (providerName : jsval)
| Throw.

Definition streaming_headers : list action :=
  [ SetHeader "Content-Type" "text/event-stream";
    SetHeader "Cache-Control" "no-cache";
    SetHeader "Connection" "keep-alive";
    FlushHeaders ].

(** [`${m.role === 'user' ? 'User' : 'Assistant'}: ${m.content}`]: [None]
    is the TypeError of a message that is [null] or [undefined], or of a
    content that does not convert to a string. *)
Definition render (m : jsval) : option string :=
  match prop m "role", prop m "content" with
  | Some role, Some content =>
      if printable content
      then Some ((if is_str role "user" then "User" else "Assistant")
                 ++ ": " ++ to_string content)
      else None
  | _, _ => None
  end.

(** [messages.map(f)] for an [f] that may throw. *)
Fixpoint map_throwing {A B : Type} (f : A -> option B) (l : list A) : option (list B) :=
  match l with
  | [] => Some []
  | x :: rest =>
      match f x with
      | None => None
      | Some y => match map_throwing f rest with
                  | None => None
                  | Some ys => Some (y :: ys)
                  end
      end
  end.

(** [messages.map(...).join('\n\n')]. *)
Definition join_messages (messages : list jsval) : option string :=
  option_map (String.concat (nl ++ nl)) (map_throwing render messages).

Definition bad_messages : list action :=
  [ Status 400; Json (JObj [("error", JStr "messages array required")]) ].

Definition unknown_provider {T : Type} (table : list (string * T))
  (providerName : jsval) : list action :=
  [ Status 400;
    Json (JObj [ ("error", JStr ("Unknown provider: " ++ to_string providerName));
                 ("available", JArr (map JStr (keys table))) ]) ].

(** [const proc = spawn(command, args, ...)] and the rest of the handler,
    [after].  The call throws when [spawn] refuses the command or an
    argument.  An argument that is no string is converted by the runtime
    once the call has passed that check: where that conversion throws, the
    process has been started and the exception leaves the handler. *)
Definition spawn (command : string) (args : list jsval) (after : list action)
  : list action :=
  if spawn_refuses command args then [Throw]
  else if forallb printable args then Spawn command args :: after
  else [Spawn command args; Throw].

(** [if (model) args.push('--model', model)] and the like. *)
Definition flag_if (flag : string) (v : jsval) : list jsval :=
  if truthy v then [JStr flag; v] else [].

Definition get (v : jsval) (k : string) : Emit jsval := lift (prop v k).

(** [json.type === 'assistant' && json.message?.content], then the loop over
    the content blocks; shared by the two claude parsers and by the gemini
    parser of [src/index.mjs]. *)
Definition is_assistant_message (json : jsval) : Emit bool :=
  (ty <- get json "type" ;;
   if is_str ty "assistant" then
     m <- get json "message" ;; ret (truthy (opt_prop m "content"))
   else ret false)%emit.

Definition emit_text_blocks (json : jsval) : Emit unit :=
  (m <- get json "message" ;;
   content <- get m "content" ;;
   blocks <- lift (iterate content) ;;
   for_of blocks (fun block =>
     bt <- get block "type" ;;
     if is_str bt "text" then
       t <- get block "text" ;;
       if truthy t then emit t else ret tt
     else ret tt))%emit.

(** [json.type === 'content_block_delta' && json.delta?.text]. *)
Definition is_text_delta (json : jsval) : Emit bool :=
  (ty <- get json "type" ;;
   if is_str ty "content_block_delta" then
     d <- get json "delta" ;; ret (truthy (opt_prop d "text"))
   else ret false)%emit.

Definition emit_delta_text (json : jsval) : Emit unit :=
  (d <- get json "delta" ;; t <- get d "text" ;; emit t)%emit.

(** *** [src/unnamed/part_000] *)

Module ApiRouter.
Section Registry.

(** [JSON.parse], [None] where it throws a SyntaxError. *)
Variable JSON_parse : string -> option jsval.

Definition claude : tool :=
  {| command := "claude";
     buildArgs := fun model systemPrompt =>
       ([JStr "-p"; JStr "--output-format"; JStr "stream-json"; JStr "--verbose"]
        ++ flag_if "--model" model
        ++ flag_if "--system-prompt" systemPrompt)%list;
     inputMode := stdin;
     embedSystemPrompt := false;
     parseStream := Some (fun line =>
       (json <- lift (JSON_parse line) ;;
        a <- is_assistant_message json ;;
        if a then emit_text_blocks json
        else
          d <- is_text_delta json ;;
          if d then emit_delta_text json else ret tt)%emit) |}.

Definition codex : tool :=
  {| command := "codex";
     buildArgs := fun model _ =>
       ([JStr "exec"; JStr "--json"] ++ flag_if "--model" model)%list;
     inputMode := stdin;
     embedSystemPrompt := true;
     parseStream := Some (fun line =>
       (json <- lift (JSON_parse line) ;;
        ty <- get json "type" ;;
        if is_str ty "item.completed" then
          item <- get json "item" ;;
          if is_str (opt_prop item "type") "agent_message" then
            t <- get item "text" ;;
            if truthy t then emit t else ret tt
          else ret tt
        else ret tt)%emit) |}.

Definition gemini : tool :=
  {| command := "gemini";
     buildArgs := fun model _ => flag_if "--model" model;
     inputMode := arg;
     embedSystemPrompt := true;
     parseStream := None |}.

Definition CLI_TOOLS : list (string * tool) :=
  [ ("claude", claude); ("codex", codex); ("gemini", gemini) ].

(** [api.get('/health', ...)]. *)
Definition health : list action :=
  [ Json (JObj [ ("status", JStr "ok");
                 ("providers", JArr (map JStr (keys CLI_TOOLS))) ]) ].

(** [provider || tool || 'claude']. *)
Definition providerName (body : jsval) : jsval :=
  js_or (js_or (opt_prop body "provider") (opt_prop body "tool")) (JStr "claude").

(** The prompt of a request: the joined messages, after the system prompt
    when [cliTool.embedSystemPrompt && systemPrompt]; [None] where a
    template literal throws. *)
Definition prompt (cliTool : looked_up tool) (messages : list jsval)
  (systemPrompt : jsval) : option string :=
  match join_messages messages with
  | None => None
  | Some joined =>
      let embed := match cliTool with
                   | Own t => embedSystemPrompt t
                   | _ => false
                   end in
      if embed && truthy systemPrompt
      then if printable systemPrompt
           then Some ("System instructions: " ++ to_string systemPrompt
                      ++ nl ++ nl ++ joined)
           else None
      else Some joined
  end.

(** What follows the headers: argument vector, spawn, prompt on stdin,
    handlers. *)
Definition start (name : jsval) (cliTool : tool) (model systemPrompt : jsval)
  (text : string) : list action :=
  let args := (buildArgs cliTool model systemPrompt
               ++ match inputMode cliTool with
                  | arg => [JStr "-p"; JStr text]
                  | stdin => []
                  end)%list in
  spawn (command cliTool) args
    (match inputMode cliTool with
     | stdin => [StdinWrite text; StdinEnd]
     | arg => []
     end
     ++ [Listen name])%list.

(** [api.post('/chat', (req, res) => ...)] on the request body. *)
Definition chat (body : jsval) : list action :=
  match body with
  | JUndef | JNull => [Throw]
  | _ =>
      let model := opt_prop body "model" in
      let messages := opt_prop body "messages" in
      let systemPrompt := opt_prop body "systemPrompt" in
      let name := providerName body in
      match messages with
      | JArr (m :: ms) =>
          if printable name then
            match lookup CLI_TOOLS name with
            | Undefined => unknown_provider CLI_TOOLS name
            | cliTool =>
                match prompt cliTool (m :: ms) systemPrompt with
                | None => [Throw]
                | Some text =>
                    (streaming_headers
                     ++ match cliTool with
                        | Own t => start name t model systemPrompt text
                        | _ => [Throw]
                        end)%list
                end
            end
          else [Throw]
      | _ => bad_messages
      end
  end.

End Registry.
End ApiRouter.

(** *** [src/index.mjs] *)

Module IndexMjs.

(** An entry of this file's table: no [embedSystemPrompt], and a parser
    for every provider, which returns a boolean. *)
Record tool : Type := {
  command : string;
  buildArgs : jsval -> jsval -> list jsval;
  inputMode : input_mode;
  parseStream : string -> Emit bool
}.

Section Registry.

Variable JSON_parse : string -> option jsval.

Definition claude : tool :=
  {| command := "claude";
     buildArgs := fun model systemPrompt =>
       ([JStr "-p"; JStr "--output-format"; JStr "stream-json"; JStr "--verbose"]
        ++ flag_if "--model" model
        ++ flag_if "--system-prompt" systemPrompt)%list;
     inputMode := stdin;
     parseStream := fun line =>
       (json <- lift (JSON_parse line) ;;
        a <- is_assistant_message json ;;
        if a then emit_text_blocks json ;;; ret true
        else
          d <- is_text_delta json ;;
          if d then emit_delta_text json ;;; ret true
          else ret false)%emit |}.

Definition codex : tool :=
  {| command := "codex";
     buildArgs := fun model systemPrompt =>
       ([JStr "exec"; JStr "--json"]
        ++ flag_if "--model" model
        ++ flag_if "--instructions" systemPrompt)%list;
     inputMode := stdin;
     parseStream := fun line =>
       (json <- lift (JSON_parse line) ;;
        ty <- get json "type" ;;
        content <- get json "content" ;;
        if is_str ty "message" && truthy content then emit content ;;; ret true
        else
          output_text <- get json "output_text" ;;
          if truthy output_text then emit output_text ;;; ret true
          else
            delta <- get json "delta" ;;
            if is_str ty "response.output_text.delta" && truthy delta
            then emit delta ;;; ret true
            else
              response <- get json "response" ;;
              if is_str ty "response.completed"
                 && truthy (opt_prop response "output_text")
              then t <- get response "output_text" ;; emit t ;;; ret true
              else ret false)%emit |}.

Definition gemini : tool :=
  {| command := "gemini";
     buildArgs := fun model systemPrompt =>
       ([JStr "--output-format"; JStr "stream-json"]
        ++ flag_if "--model" model
        ++ flag_if "--system-instruction" systemPrompt)%list;
     inputMode := arg;
     parseStream := fun line =>
       (json <- lift (JSON_parse line) ;;
        a <- is_assistant_message json ;;
        if a then emit_text_blocks json ;;; ret true
        else
          d <- is_text_delta json ;;
          if d then emit_delta_text json ;;; ret true
          else
            partialText <- get json "partialText" ;;
            if truthy partialText then emit partialText ;;; ret true
            else
              text <- get json "text" ;;
              ty <- get json "type" ;;
              if truthy text && negb (truthy ty) then emit text ;;; ret true
              else ret false)%emit |}.

Definition CLI_TOOLS : list (string * tool) :=
  [ ("claude", claude); ("codex", codex); ("gemini", gemini) ].

(** [app.get('/health', ...)]. *)
Definition health : list action :=
  [ Json (JObj [ ("status", JStr "ok");
                 ("providers", JArr (map JStr (keys CLI_TOOLS))) ]) ].

(** [const { provider = 'claude', ... } = req.body]: the default applies
    to an [undefined] property only. *)
Definition provider (body : jsval) : jsval :=
  match opt_prop body "provider" with
  | JUndef => JStr "claude"
  | v => v
  end.

Section Session.

Variable providerName : jsval.
Variable tool_ : tool.

Definition on_stdout_text (text : string) (s : session) : session :=
  feed_lines (parseStream tool_) text s.

Definition on_stdout_data (data : string) (s : session) : session :=
  on_stdout_text (Buffer_toString data) s.

Definition on_stderr_data (data : string) (s : session) : session :=
  let msg := trim (Buffer_toString data) in
  if nonempty msg
  then console_error ("[" ++ to_string providerName ++ " stderr] " ++ msg) s
  else s.

Definition on_close (code : option Z) (s : session) : session :=
  let s1 := if nonempty (trim (buffer s))
            then flush_json (parseStream tool_) s
            else s in
  let s2 := res_end (res_write DONE s1) in
  if is_zero code then s2
  else console_error
         ("[" ++ to_string providerName ++ "] exited with code "
          ++ show_code code) s2.

Definition on_error (message : string) (s : session) : session :=
  let s1 := console_error
              ("[" ++ to_string providerName ++ " spawn error] " ++ message) s in
  let s2 := res_write
              (sse_error ("Failed to start " ++ to_string providerName
                          ++ " CLI. Is it installed?")) s1 in
  res_end (res_write DONE s2).

Definition on_res_close (s : session) : session :=
  if killed s then s else proc_kill "SIGTERM" s.

Definition step (s : session) (e : event) : session :=
  match e with
  | StdoutData data => on_stdout_data data s
  | StderrData data => on_stderr_data data s
  | ProcExit => set_exited s
  | ProcClose code => on_close code (set_exited s)
  | ProcError message => on_error message (set_exited s)
  | ResClose => on_res_close s
  end.

Definition run (trace : list event) (s : session) : session :=
  fold_left step trace s.

End Session.

Definition start (name : jsval) (t : tool) (model systemPrompt : jsval)
  (text : string) : list action :=
  let args := (buildArgs t model systemPrompt
               ++ match inputMode t with
                  | arg => [JStr "-p"; JStr text]
                  | stdin => []
                  end)%list in
  spawn (command t) args
    (match inputMode t with
     | stdin => [StdinWrite text; StdinEnd]
     | arg => []
     end
     ++ [Listen name])%list.

(** [app.post('/chat', (req, res) => ...)] on the request body. *)
Definition chat (body : jsval) : list action :=
  match body with
  | JUndef | JNull => [Throw]
  | _ =>
      let name := provider body in
      let model := opt_prop body "model" in
      let messages := opt_prop body "messages" in
      let systemPrompt := opt_prop body "systemPrompt" in
      match messages with
      | JArr (m :: ms) =>
          if printable name then
            match lookup CLI_TOOLS name with
            | Undefined => unknown_provider CLI_TOOLS name
            | found =>
                match join_messages (m :: ms) with
                | None => [Throw]
                | Some text =>
                    (streaming_headers
                     ++ match found with
                        | Own t => start name t model systemPrompt text
                        | _ => [Throw]
                        end)%list
                end
            end
          else [Throw]
      | _ => bad_messages
      end
  end.

End Registry.
End IndexMjs.

(** ** An executable JSON.parse

    The theorems below hold for any [JSON_parse]; this reading of the JSON
    grammar runs the examples.  A number is read as the Number nearest to
    its decimal; the values of this development hold integers only, and a
    literal whose Number is not an integer has no value here: on such a text
    this function has nothing to return, and returns [None] as for a text
    that is no JSON.  The members of an object are kept in the order of the
    text. *)

Module Json.

Definition is_json_ws (c : ascii) : bool :=
  let n := code c in
  N.eqb n 32 || N.eqb n 9 || N.eqb n 10 || N.eqb n 13.

Fixpoint skip_ws (s : string) : string :=
  match s with
  | String c s' => if is_json_ws c then skip_ws s' else s
  | EmptyString => s
  end.

Definition hex_value (c : ascii) : option N :=
  let n := code c in
  if N.leb 48 n && N.leb n 57 then Some (n - 48)%N
  else if N.leb 97 n && N.leb n 102 then Some (n - 87)%N
  else if N.leb 65 n && N.leb n 70 then Some (n - 55)%N
  else None.

Definition hex4 (a b c d : ascii) : option N :=
  match hex_value a, hex_value b, hex_value c, hex_value d with
  | Some x, Some y, Some z, Some w => Some (((x * 16 + y) * 16 + z) * 16 + w)%N
  | _, _, _, _ => None
  end.

Definition byte (n : N) : string := String (ascii_of_N n) EmptyString.

(** The UTF-8 encoding of a code point; for a surrogate, its three bytes. *)
Definition utf8_encode (cp : N) : string :=
  if N.ltb cp 128 then byte cp
  else if N.ltb cp 2048 then byte (192 + cp / 64) ++ byte (128 + cp mod 64)
  else if N.ltb cp 65536 then
    byte (224 + cp / 4096) ++ byte (128 + (cp / 64) mod 64) ++ byte (128 + cp mod 64)
  else
    byte (240 + cp / 262144) ++ byte (128 + (cp / 4096) mod 64)
    ++ byte (128 + (cp / 64) mod 64) ++ byte (128 + cp mod 64).

Definition simple_escape (c : ascii) : option ascii :=
  let n := code c in
  if N.eqb n 34 then Some c
  else if N.eqb n 92 then Some c
  else if N.eqb n 47 then Some c
  else if N.eqb n 98 then Some (ascii_of_N 8)
  else if N.eqb n 102 then Some (ascii_of_N 12)
  else if N.eqb n 110 then Some (ascii_of_N 10)
  else if N.eqb n 114 then Some (ascii_of_N 13)
  else if N.eqb n 116 then Some (ascii_of_N 9)
  else None.

Definition push (p : string) (r : option (string * string)) : option (string * string) :=
  match r with
  | Some (body, rest) => Some (p ++ body, rest)
  | None => None
  end.

(** The characters of a string literal after its opening quote. *)
Fixpoint string_body (s : string) : option (string * string) :=
  match s with
  | EmptyString => None
  | String c s1 =>
      if N.eqb (code c) 34 then Some (EmptyString, s1)
      else if N.ltb (code c) 32 then None
      else if N.eqb (code c) 92 then
        match s1 with
        | String e s2 =>
            if N.eqb (code e) 117 then
              match s2 with
              | String h1 (String h2 (String h3 (String h4 s6))) =>
                  match hex4 h1 h2 h3 h4 with
                  | None => None
                  | Some hi =>
                      let alone := push (utf8_encode hi) (string_body s6) in
                      if N.leb 55296 hi && N.leb hi 56319 then
                        match s6 with
                        | String b (String u (String l1 (String l2 (String l3 (String l4 s12))))) =>
                            if N.eqb (code b) 92 && N.eqb (code u) 117 then
                              match hex4 l1 l2 l3 l4 with
                              | Some lo =>
                                  if N.leb 56320 lo && N.leb lo 57343 then
                                    push (utf8_encode
                                            (65536 + (hi - 55296) * 1024 + (lo - 56320)))
                                         (string_body s12)
                                  else alone
                              | None => alone
                              end
                            else alone
                        | _ => alone
                        end
                      else alone
                  end
              | _ => None
              end
            else
              match simple_escape e with
              | Some x => push (String x EmptyString) (string_body s2)
              | None => None
              end
        | EmptyString => None
        end
      else push (String c EmptyString) (string_body s1)
  end.

Definition is_digit (c : ascii) : bool := N.leb 48 (code c) && N.leb (code c) 57.

(** The Number value nearest to the ratio [p / q] of a natural number and a
    positive one (a tie goes to the even mantissa, 2^1024 stands for
    Infinity), when that value is an integer. *)
Definition double_of_ratio (p q : Z) : option Z :=
  if Z.eqb p 0 then Some 0%Z
  else
    let b := (Z.log2 p - Z.log2 q)%Z in
    let scaled (e : Z) : Z * Z :=
      if Z.ltb e 0 then (Z.shiftl p (- e), q) else (p, Z.shiftl q e) in
    let e0 := (b - 52)%Z in
    let e1 := let (n, d) := scaled e0 in
              if Z.ltb (n / d) 4503599627370496 then (e0 - 1)%Z else e0 in
    let e := Z.max e1 (-1074) in
    let (n, d) := scaled e in
    let m := (n / d)%Z in
    let r := (n mod d)%Z in
    let m' := if Z.ltb d (2 * r) || (Z.eqb (2 * r) d && Z.odd m) then (m + 1)%Z else m in
    if Z.leb 0 e then
      Some (if Z.leb 1024 (Z.log2 m' + e) then Z.shiftl 1 1024 else Z.shiftl m' e)
    else if Z.eqb (m' mod Z.shiftl 1 (- e)) 0 then Some (Z.shiftr m' (- e))
    else None.

Fixpoint digits (acc : Z) (count : Z) (s : string) : Z * Z * string :=
  match s with
  | String c s' =>
      if is_digit c then digits (acc * 10 + Z.of_N (code c - 48)) (count + 1) s'
      else (acc, count, s)
  | EmptyString => (acc, count, s)
  end.

(** A number literal: an optional minus sign, 0 or a digit 1-9 followed by
    digits, an optional fraction, an optional exponent.  Its value is the
    Number nearest to the decimal; [None] also where that Number is not an
    integer, which [jsval] does not hold. *)
Definition number (s : string) : option (jsval * string) :=
  let (neg, s1) := match s with
                   | String c s' => if N.eqb (code c) 45 then (true, s') else (false, s)
                   | EmptyString => (false, s)
                   end in
  match s1 with
  | String d s2 =>
      if is_digit d then
        let '(n, _, rest) := if N.eqb (code d) 48 then (0%Z, 1%Z, s2)
                             else digits (Z.of_N (code d - 48)) 1 s2 in
        let after_int := match rest with
                         | String c _ => negb (is_digit c)
                         | EmptyString => true
                         end in
        if after_int then
          let frac :=
            match rest with
            | String dot (String f r) =>
                if N.eqb (code dot) 46 then
                  if is_digit f then
                    let '(n', k, rest') := digits n 0 (String f r) in Some (n', k, rest')
                  else None
                else Some (n, 0%Z, rest)
            | String dot EmptyString =>
                if N.eqb (code dot) 46 then None else Some (n, 0%Z, rest)
            | EmptyString => Some (n, 0%Z, rest)
            end in
          match frac with
          | None => None
          | Some (n1, k, rest1) =>
              let expo :=
                match rest1 with
                | String e r =>
                    if N.eqb (code e) 101 || N.eqb (code e) 69 then
                      let (sign, r1) :=
                        match r with
                        | String sg r' =>
                            if N.eqb (code sg) 45 then ((-1)%Z, r')
                            else if N.eqb (code sg) 43 then (1%Z, r')
                            else (1%Z, r)
                        | EmptyString => (1%Z, r)
                        end in
                      match r1 with
                      | String d1 _ =>
                          if is_digit d1 then
                            let '(x, _, rest2) := digits 0 0 r1 in Some ((sign * x)%Z, rest2)
                          else None
                      | EmptyString => None
                      end
                    else Some (0%Z, rest1)
                | EmptyString => Some (0%Z, rest1)
                end in
              match expo with
              | None => None
              | Some (x, rest2) =>
                  let ten := (x - k)%Z in
                  let v := if Z.leb 0 ten then double_of_ratio (n1 * 10 ^ ten) 1
                           else double_of_ratio n1 (10 ^ (- ten)) in
                  match v with
                  | Some z => Some (JNum (if neg then - z else z), rest2)
                  | None => None
                  end
              end
          end
        else None
      else None
  | EmptyString => None
  end.

(** Defining a member again replaces its value in place. *)
Fixpoint set_member (k : string) (v : jsval) (kvs : list (string * jsval))
  : list (string * jsval) :=
  match kvs with
  | [] => [(k, v)]
  | (k', v') :: rest =>
      if String.eqb k k' then (k', v) :: rest else (k', v') :: set_member k v rest
  end.

Fixpoint value (fuel : nat) (s : string) {struct fuel} : option (jsval * string) :=
  match fuel with
  | O => None
  | S f =>
      match skip_ws s with
      | EmptyString => None
      | String c r =>
          let n := code c in
          if N.eqb n 123 then
            match skip_ws r with
            | String c' r' =>
                if N.eqb (code c') 125 then Some (JObj [], r') else members f (skip_ws r) []
            | EmptyString => None
            end
          else if N.eqb n 91 then
            match skip_ws r with
            | String c' r' =>
                if N.eqb (code c') 93 then Some (JArr [], r') else elements f r []
            | EmptyString => None
            end
          else if N.eqb n 34 then
            match string_body r with
            | Some (str, rest) => Some (JStr str, rest)
            | None => None
            end
          else if startsWith (String c r) "true" then Some (JBool true, substring 4 (String.length r) (String c r))
          else if startsWith (String c r) "false" then Some (JBool false, substring 5 (String.length r) (String c r))
          else if startsWith (String c r) "null" then Some (JNull, substring 4 (String.length r) (String c r))
          else number (String c r)
      end
  end
with elements (fuel : nat) (s : string) (acc : list jsval) {struct fuel}
  : option (jsval * string) :=
  match fuel with
  | O => None
  | S f =>
      match value f s with
      | None => None
      | Some (v, rest) =>
          match skip_ws rest with
          | String c r =>
              if N.eqb (code c) 44 then elements f r (acc ++ [v])
              else if N.eqb (code c) 93 then Some (JArr (acc ++ [v]), r)
              else None
          | EmptyString => None
          end
      end
  end
with members (fuel : nat) (s : string) (acc : list (string * jsval)) {struct fuel}
  : option (jsval * string) :=
  match fuel with
  | O => None
  | S f =>
      match s with
      | String q r =>
          if N.eqb (code q) 34 then
            match string_body r with
            | None => None
            | Some (k, rest) =>
                match skip_ws rest with
                | String colon r1 =>
                    if N.eqb (code colon) 58 then
                      match value f r1 with
                      | None => None
                      | Some (v, rest1) =>
                          match skip_ws rest1 with
                          | String c r2 =>
                              if N.eqb (code c) 44
                              then members f (skip_ws r2) (set_member k v acc)
                              else if N.eqb (code c) 125
                              then Some (JObj (set_member k v acc), r2)
                              else None
                          | EmptyString => None
                          end
                      end
                    else None
                | EmptyString => None
                end
            end
          else None
      | EmptyString => None
      end
  end.

Definition parse (s : string) : option jsval :=
  match value (2 * String.length s + 4) s with
  | Some (v, rest) =>
      match skip_ws rest with
      | EmptyString => Some v
      | String _ _ => None
      end
  | None => None
  end.

End Json.

(** JSON text for the examples: every ['] stands for a double quote. *)
Fixpoint js (s : string) : string :=
  match s with
  | EmptyString => EmptyString
  | String c s' => String (if N.eqb (code c) 39 then ascii_of_N 34 else c) (js s')
  end.

(** * Notions used in the statements *)

(** ** The lines of a stream *)

Fixpoint no_LF (s : string) : bool :=
  match s with
  | EmptyString => true
  | String c s' => negb (Ascii.eqb c LF) && no_LF s'
  end.

(** The lines of [cur ++ s] read from the left: the lines that a line feed
    closes, and the segment after the last one. *)
Fixpoint scan (cur : string) (s : string) : list string * string :=
  match s with
  | EmptyString => ([], cur)
  | String c s' =>
      if Ascii.eqb c LF
      then let (ls, r) := scan EmptyString s' in (cur :: ls, r)
      else scan (cur ++ String c EmptyString) s'
  end.

Definition complete_lines (stream : string) : list string := fst (scan "" stream).
Definition residual (stream : string) : string := snd (scan "" stream).

(** The stream that a list of chunks makes. *)
Definition whole (chunks : list string) : string := fold_right append "" chunks.

(** Chunks of one-byte characters, which no boundary can cut. *)
Fixpoint is_ascii_text (s : string) : bool :=
  match s with
  | EmptyString => true
  | String c s' => N.leb (code c) 127 && is_ascii_text s'
  end.

(** ** The texts a session writes *)

Definition is_nil {A : Type} (l : list A) : bool :=
  match l with [] => true | _ :: _ => false end.

(** The session after the callback has run on [texts]. *)
Definition with_texts (texts : list jsval) (s : session) : session :=
  {| buffer := buffer s;
     textSent := textSent s || negb (match texts with [] => true | _ => false end);
     res := (res s ++ map (fun v => Write (sse_text v)) texts)%list;
     console := console s;
     killed := killed s; exited := exited s; signals := signals s |}.

(** The texts one complete line contributes. *)
Definition line_texts {A : Type} (p : string -> Emit A) (line : string) : list jsval :=
  if nonempty (trim line) then
    (fst (p line)
     ++ match snd (p line) with
        | Some _ => []
        | None =>
            if nonempty (trim line) && negb (startsWith (trim line) "{")
               && negb (startsWith (trim line) "[")
            then [JStr (trim line ++ nl)]
            else []
        end)%list
  else [].

(** The texts of the complete lines of a stream. *)
Definition fragments {A : Type} (p : string -> Emit A) (stream : string) : list jsval :=
  flat_map (line_texts p) (complete_lines stream).

(** The texts the residual buffer contributes at process exit, for a session
    that has sent text ([sent_before]) or not. *)
Definition residual_texts {A : Type} (p : string -> Emit A) (sent_before : bool)
  (buf : string) : list jsval :=
  (fst (p buf)
   ++ match snd (p buf) with
      | Some _ => []
      | None =>
          match fst (p buf) with
          | [] => if sent_before then [] else [JStr (trim buf)]
          | _ :: _ => []
          end
      end)%list.

(** ** The two files *)

(** A parser of [src/index.mjs] seen as one of [src/unnamed/part_000]: the
    handlers never read the boolean it returns. *)
Definition forget {A : Type} (p : string -> Emit A) : string -> Emit unit :=
  fun line => (fst (p line), option_map (fun _ => tt) (snd (p line))).

Definition as_tool (t : IndexMjs.tool) : tool :=
  {| command := IndexMjs.command t;
     buildArgs := IndexMjs.buildArgs t;
     inputMode := IndexMjs.inputMode t;
     embedSystemPrompt := false;
     parseStream := Some (forget (IndexMjs.parseStream t)) |}.

(** ** The response and the marker *)

Definition ended (ops : list res_op) : bool := existsb is_End ops.

(** What the two handlers of the end of the process call last. *)
Definition closing (e : event) : list res_op :=
  if is_terminal e then [Write DONE; End] else [].

(** The stream holds no marker while the response is open, and ends with its
    only marker once the response is ended. *)
Definition marker_ok (ops : list res_op) : Prop :=
  if ended ops
  then exists before, sent ops = (before ++ [DONE])%list /\ ~ In DONE before
  else ~ In DONE (sent ops).

(** ** Events and the process *)

Definition nonterminal (e : event) : bool := negb (is_terminal e).

(** Output of the process, which it only produces while it runs. *)
Definition is_output (e : event) : bool :=
  match e with StdoutData _ | StderrData _ => true | _ => false end.

(** The events after which the process is gone. *)
Definition ends_process (e : event) : bool :=
  match e with ProcExit | ProcClose _ | ProcError _ => true | _ => false end.

(** The signals sent so far are those of the [killed] flag. *)
Definition signalled_once (s : session) : Prop :=
  signals s = if killed s then ["SIGTERM"] else [].

(** The process has ended without a signal. *)
Definition gone_unsignalled (s : session) : Prop :=
  exited s = true /\ killed s = false /\ signals s = [].

(** ** Requests and the prompt *)

Definition has_spawn (a : action) : bool :=
  match a with Spawn _ _ => true | _ => false end.

Definition is_header (a : action) : bool :=
  match a with SetHeader _ _ | FlushHeaders => true | _ => false end.

Definition nullish (v : jsval) : bool :=
  match v with JUndef | JNull => true | _ => false end.

(** Messages whose [role] and [content] can be read: none is [null] or
    [undefined]. *)
Definition readable (messages : list jsval) : bool :=
  forallb (fun m => negb (nullish m)) messages.

(** The prompt as the specification words it: each message is a line
    "RoleLabel: content", and the lines are joined, in the order of the
    messages, by a blank line. *)
Definition RoleLabel (m : jsval) : string :=
  if is_str (opt_prop m "role") "user" then "User" else "Assistant".

Definition rendered_message (m : jsval) : string :=
  RoleLabel m ++ ": " ++ to_string (opt_prop m "content").

Definition blank_line : string := nl ++ nl.

Fixpoint rendered (messages : list jsval) : string :=
  match messages with
  | [] => ""
  | m :: rest =>
      match rest with
      | [] => rendered_message m
      | _ :: _ => rendered_message m ++ blank_line ++ rendered rest
      end
  end.

(** The header that embeds the system prompt. *)
Definition system_header (embed : bool) (systemPrompt : jsval) : string :=
  if embed && truthy systemPrompt
  then "System instructions: " ++ to_string systemPrompt ++ blank_line
  else "".

(** ** Concrete inputs *)

(** The first scenario of the specification: one line of claude. *)
Definition hello_line : string :=
  js "{'type':'assistant','message':{'content':[{'type':'text','text':'Hello'}]}}".

Definition e_acute : string := String (ascii_of_N 195) (String (ascii_of_N 169) "").

(** A stream of one line, a text delta that carries "caf" and U+00E9, cut
    between the two bytes of U+00E9. *)
Definition cut_1 : string :=
  js "{'type':'content_block_delta','delta':{'text':'caf" ++ String (ascii_of_N 195) "".
Definition cut_2 : string :=
  String (ascii_of_N 169) (js "'}}") ++ nl.

Definition hi : jsval := JArr [JObj [("role", JStr "user"); ("content", JStr "hi")]].

Definition conversation : jsval :=
  JArr [ JObj [("role", JStr "user"); ("content", JStr "Hello")];
         JObj [("role", JStr "assistant"); ("content", JStr "Hi")];
         JObj [("role", JStr "user"); ("content", JStr "Hello")] ].

(** Two sessions that differ at most in the operator log. *)
Definition same_client (s s' : session) : Prop :=
  buffer s = buffer s' /\ textSent s = textSent s' /\ res s = res s'
  /\ killed s = killed s' /\ exited s = exited s' /\ signals s = signals s'.

(** An event without what only the operator is told: the diagnostic output,
    the exit code, the message of the spawn error. *)
Definition redact (e : event) : event :=
  match e with
  | StderrData _ => StderrData ""
  | ProcClose _ => ProcClose (Some 0%Z)
  | ProcError _ => ProcError ""
  | _ => e
  end.

(** The lines an event adds to the operator log. *)
Definition log_lines (name : jsval) (e : event) : list string :=
  match e with
  | StderrData data =>
      if nonempty (trim (Buffer_toString data))
      then ["[" ++ to_string name ++ " stderr] " ++ trim (Buffer_toString data)]
      else []
  | ProcClose code =>
      if is_zero code then []
      else ["[" ++ to_string name ++ "] exited with code " ++ show_code code]
  | ProcError message => ["[" ++ to_string name ++ " spawn error] " ++ message]
  | _ => []
  end.

(** The stream on the wire of a plain-text provider. *)
Definition forwarded (chunks : list string) : list string :=
  filter nonempty (map Buffer_toString chunks).

(** The texts of the text blocks of an assistant message, in order. *)
Definition block_texts (blocks : list jsval) : list jsval :=
  flat_map (fun block =>
              if is_str (opt_prop block "type") "text" && truthy (opt_prop block "text")
              then [opt_prop block "text"]
              else []) blocks.

(** What a parser does on a line: the texts it emits, and whether it
    throws. *)
Definition outcome {A : Type} (p : string -> Emit A) (line : string)
  : list jsval * bool :=
  (fst (p line), match snd (p line) with Some _ => false | None => true end).

Definition parser_of (t : tool) : string -> Emit unit :=
  match parseStream t with
  | Some p => p
  | None => fun _ => ret tt
  end.

(** The five parsers of the two tables. *)
Definition parsers (JSON_parse : string -> option jsval)
  : list (string -> list jsval * bool) :=
  [ outcome (parser_of (ApiRouter.claude JSON_parse));
    outcome (parser_of (ApiRouter.codex JSON_parse));
    outcome (IndexMjs.parseStream (IndexMjs.claude JSON_parse));
    outcome (IndexMjs.parseStream (IndexMjs.codex JSON_parse));
    outcome (IndexMjs.parseStream (IndexMjs.gemini JSON_parse)) ].

Definition is_object (v : jsval) : bool :=
  match v with JObj _ => true | _ => false end.

(** A string without control character (no byte below 32): in particular
    without line feed and carriage return, the line ends of an event
    stream. *)
Fixpoint no_control (s : string) : bool :=
  match s with
  | EmptyString => true
  | String c s' => N.leb 32 (code c) && no_control s'
  end.

(** What a parser or a handler emits satisfies a test. *)
Definition emits_only {A : Type} (P : jsval -> bool) (m : Emit A) : Prop :=
  forallb P (fst m) = true.

(** The chunks of a stream: a text event whose text is not empty (a truthy
    value), the error event of a provider that could not be started, the
    terminal marker. *)
Definition text_event (c : string) : Prop :=
  exists v, truthy v = true /\ c = sse_text v.

Definition start_failure (name : jsval) : string :=
  sse_error ("Failed to start " ++ to_string name ++ " CLI. Is it installed?").

Definition stream_chunk (name : jsval) (op : res_op) : Prop :=
  match op with
  | End => True
  | Write c => text_event c \/ c = start_failure name \/ c = DONE
  end.

(** The messages a prompt can be built from: none is [null] or
    [undefined], and the content of each converts to a string. *)
Definition renderable (messages : list jsval) : bool :=
  forallb (fun m => negb (nullish m) && printable (opt_prop m "content")) messages.

(** The prompt as a trailing argument, in argument mode. *)
Definition in_arguments (mode : input_mode) (text : string) : list jsval :=
  match mode with
  | arg => [JStr "-p"; JStr text]
  | stdin => []
  end.

(** The prompt written to the input channel, which is then closed, in
    standard-input mode. *)
Definition on_stdin (mode : input_mode) (text : string) : list action :=
  match mode with
  | stdin => [StdinWrite text; StdinEnd]
  | arg => []
  end.

(** A command and arguments that start a process: [spawn] does not refuse
    them, and every argument converts to a string. *)
Definition spawnable (command : string) (args : list jsval) : bool :=
  negb (spawn_refuses command args) && forallb printable args.

Fixpoint has_char (c : ascii) (s : string) : bool :=
  match s with
  | EmptyString => false
  | String x s' => Ascii.eqb x c || has_char c s'
  end.

(** * Properties *)

(** ** The model at concrete inputs *)

Example stringify_text :
  JSON_stringify (JObj [("text", JStr ("a" ++ nl ++ "b"))])
  = "{" ++ dquote ++ "text" ++ dquote ++ ":" ++ dquote ++ "a\nb" ++ dquote ++ "}".
Proof. reflexivity. Qed.

Example trim_example : trim ("  hi " ++ nl) = "hi".
Proof. reflexivity. Qed.

Example split_example : split LF ("a" ++ nl ++ nl ++ "b") = ["a"; ""; "b"].
Proof. reflexivity. Qed.

Example decode_cut_short :
  Buffer_toString ("caf" ++ String (ascii_of_N 195) "") = "caf" ++ REPLACEMENT.
Proof. reflexivity. Qed.

Example decode_whole :
  let e := String (ascii_of_N 195) (String (ascii_of_N 169) "") in
  Buffer_toString ("caf" ++ e) = "caf" ++ e.
Proof. reflexivity. Qed.

Example parse_assistant :
  Json.parse (js "{'type':'assistant','message':{'content':[{'type':'text','text':'Hello'}]}}")
  = Some (JObj [("type", JStr "assistant");
                ("message", JObj [("content",
                   JArr [JObj [("type", JStr "text"); ("text", JStr "Hello")]])])]).
Proof. reflexivity. Qed.

Example parse_misc :
  Json.parse (js " [1, -20, true, null, 'a\u00e9\n', {'k': [] , 'k': {}}] ")
  = Some (JArr [JNum 1; JNum (-20); JBool true; JNull;
                JStr ("a" ++ e_acute ++ nl);
                JObj [("k", JObj [])]]).
Proof. reflexivity. Qed.

Example parse_rejects :
  map Json.parse ["not json"; "{"; js "{'a':1,}"; "[1 2]"; ""; "01"; js "'abc"; "nul"; "1 x"]
  = [None; None; None; None; None; None; None; None; None].
Proof. reflexivity. Qed.

Example parse_numbers :
  map Json.parse ["1e3"; "2.5e1"; "-0"; "9007199254740993"; "1e21"; "1.5"; "1."; "1e"]
  = [Some (JNum 1000); Some (JNum 25); Some (JNum 0); Some (JNum 9007199254740992);
     Some (JNum (10 ^ 21)); None; None; None].
Proof. vm_compute. reflexivity. Qed.

Example number_to_string :
  map (fun n => to_string (JNum n))
      [0; -42; 2 ^ 53; 2 ^ 60; 10 ^ 21 - 1; 10 ^ 21; 123456789 * 10 ^ 20; - 2 ^ 70;
       2 ^ 1024]%Z
  = ["0"; "-42"; "9007199254740992"; "1152921504606847000"; "1e+21"; "1e+21";
     "1.23456789e+28"; "-1.1805916207174113e+21"; "Infinity"].
Proof. vm_compute. reflexivity. Qed.

Example conversions :
  map (fun v => (printable v, to_string v))
      [ JArr [JNum 1; JNull; JArr [JStr "a"; JUndef]; JObj [("valueOf", JNum 1)]];
        JObj [("toString", JStr "x")];
        JArr [JObj [("toString", JNull)]] ]
  = [ (true, "1,,a,,[object Object]");
      (false, "[object Object]");
      (false, "[object Object]") ].
Proof. reflexivity. Qed.

Example lone_surrogate :
  option_map JSON_stringify (Json.parse (js "'\ud83dA\ud83d\ude00'"))
  = Some (dquote ++ "\ud83dA"
          ++ String (ascii_of_N 240) (String (ascii_of_N 159)
               (String (ascii_of_N 152) (String (ascii_of_N 128) "")))
          ++ dquote).
Proof. vm_compute. reflexivity. Qed.

Example spawn_throws_after_the_headers :
  ApiRouter.chat Json.parse
    (JObj [("provider", JStr "gemini");
           ("messages", JArr [JObj [("role", JStr "user");
                                    ("content", JStr (String NUL "hi"))]])])
  = [ SetHeader "Content-Type" "text/event-stream";
      SetHeader "Cache-Control" "no-cache";
      SetHeader "Connection" "keep-alive";
      FlushHeaders;
      Throw ].
Proof. reflexivity. Qed.

(** The scenarios of the specification. *)

Example scenario_hello :
  sent (res (run (JStr "claude") (ApiRouter.claude Json.parse)
               [StdoutData (hello_line ++ nl); ProcClose (Some 0%Z)] initial))
  = [sse_text (JStr "Hello"); DONE].
Proof. vm_compute. reflexivity. Qed.

Example scenario_plain_text :
  sent (res (run (JStr "gemini") ApiRouter.gemini
               [StdoutData "Hi there"; ProcClose (Some 0%Z)] initial))
  = [sse_text (JStr "Hi there"); DONE].
Proof. vm_compute. reflexivity. Qed.

Example scenario_missing_executable :
  sent (res (run (JStr "codex") (ApiRouter.codex Json.parse)
               [ProcError "spawn codex ENOENT"; ProcClose (Some (-2)%Z)] initial))
  = [sse_error "Failed to start codex CLI. Is it installed?"; DONE].
Proof. vm_compute. reflexivity. Qed.

Example scenario_reassembly :
  sent (res (run (JStr "claude") (ApiRouter.claude Json.parse)
               [StdoutData (substring 0 5 hello_line);
                StdoutData (substring 5 200 hello_line ++ nl);
                ProcClose (Some 0%Z)] initial))
  = [sse_text (JStr "Hello"); DONE].
Proof. vm_compute. reflexivity. Qed.

Example wire_format :
  sse_text (JStr "Hello") = js "data: {'text':'Hello'}" ++ nl ++ nl
  /\ sse_error "x" = js "data: {'error':'x'}" ++ nl ++ nl.
Proof. split; reflexivity. Qed.

(** ** Strings and lines *)

Lemma append_nil_r (s : string) : s ++ "" = s.
Proof. induction s as [|c s IH]; simpl; [reflexivity | now rewrite IH]. Qed.

Lemma append_assoc (a b c : string) : (a ++ b) ++ c = a ++ (b ++ c).
Proof. induction a as [|x a IH]; simpl; [reflexivity | now rewrite IH]. Qed.

Lemma split_not_nil (sep : ascii) (s : string) : split sep s <> [].
Proof.
  induction s as [|c s IH]; simpl; [discriminate|].
  destruct (Ascii.eqb c sep); [discriminate|].
  destruct (split sep s); [contradiction | discriminate].
Qed.

Lemma pop_cons {A : Type} (x : A) (l : list A) :
  l <> [] -> pop (x :: l) = (x :: fst (pop l), snd (pop l)).
Proof.
  destruct l as [|y l]; [contradiction|]. intros _.
  change (pop (x :: y :: l)) with (let (init, lst) := pop (y :: l) in (x :: init, lst)).
  destruct (pop (y :: l)); reflexivity.
Qed.

Lemma split_no_LF (s : string) : no_LF s = true -> split LF s = [s].
Proof.
  induction s as [|c s IH]; simpl; [reflexivity|].
  intros H. apply andb_prop in H as [Hc Hs].
  destruct (Ascii.eqb c LF); [discriminate|].
  now rewrite (IH Hs).
Qed.

Lemma split_at_LF (cur s : string) :
  no_LF cur = true -> split LF (cur ++ String LF s) = cur :: split LF s.
Proof.
  induction cur as [|c cur IH]; simpl; intros H.
  - reflexivity.
  - apply andb_prop in H as [Hc Hs].
    destruct (Ascii.eqb c LF); [discriminate|].
    now rewrite (IH Hs).
Qed.

Lemma no_LF_snoc (cur : string) (c : ascii) :
  no_LF cur = true -> Ascii.eqb c LF = false -> no_LF (cur ++ String c "") = true.
Proof.
  induction cur as [|x cur IH]; simpl; intros H Hc.
  - now rewrite Hc.
  - apply andb_prop in H as [Hx Hs]. rewrite Hx. simpl. now apply IH.
Qed.

(** [buffer.split('\n')] followed by [lines.pop()] is that scan. *)
Lemma pop_split (s cur : string) :
  no_LF cur = true ->
  pop (split LF (cur ++ s)) = (fst (scan cur s), Some (snd (scan cur s))).
Proof.
  revert cur. induction s as [|c s IH]; intros cur Hcur.
  - rewrite append_nil_r, (split_no_LF _ Hcur). reflexivity.
  - simpl scan. destruct (Ascii.eqb c LF) eqn:E.
    + apply Ascii.eqb_eq in E. subst c.
      rewrite (split_at_LF _ _ Hcur).
      rewrite pop_cons by apply split_not_nil.
      specialize (IH "" eq_refl). simpl in IH. rewrite IH.
      destruct (scan "" s). reflexivity.
    + replace (cur ++ String c s) with ((cur ++ String c "") ++ s)
        by (now rewrite append_assoc).
      apply IH. now apply no_LF_snoc.
Qed.

Lemma scan_no_LF (s cur : string) :
  no_LF cur = true -> no_LF (snd (scan cur s)) = true.
Proof.
  revert cur. induction s as [|c s IH]; intros cur Hcur; simpl.
  - exact Hcur.
  - destruct (Ascii.eqb c LF) eqn:E.
    + specialize (IH "" eq_refl). destruct (scan "" s). exact IH.
    + apply IH. now apply no_LF_snoc.
Qed.

(** Reading [a ++ b] is reading [a], then [b] from what [a] left. *)
Lemma scan_app (a b cur : string) :
  scan cur (a ++ b)
  = ((fst (scan cur a) ++ fst (scan (snd (scan cur a)) b))%list,
     snd (scan (snd (scan cur a)) b)).
Proof.
  revert cur. induction a as [|c a IH]; intros cur; simpl.
  - destruct (scan cur b); reflexivity.
  - destruct (Ascii.eqb c LF).
    + rewrite (IH ""). destruct (scan "" a) as [la ra]. reflexivity.
    + apply IH.
Qed.

Lemma residual_no_LF (stream : string) : no_LF (residual stream) = true.
Proof. now apply scan_no_LF. Qed.

(** ** What the handlers write *)

Lemma emit_all_eq (texts : list jsval) (s : session) :
  emit_all texts s = with_texts texts s.
Proof.
  revert s. induction texts as [|v vs IH]; intros s.
  - destruct s; unfold with_texts; simpl. now rewrite orb_false_r, app_nil_r.
  - change (emit_all (v :: vs) s) with (emit_all vs (emit_cb v s)).
    rewrite IH. unfold with_texts, emit_cb, res_write, res_call, set_textSent; simpl.
    rewrite orb_true_r, <- app_assoc. reflexivity.
Qed.

Lemma with_texts_app (a b : list jsval) (s : session) :
  with_texts b (with_texts a s) = with_texts (a ++ b) s.
Proof.
  unfold with_texts; simpl. rewrite map_app, app_assoc, <- orb_assoc.
  f_equal. f_equal. destruct a, b; reflexivity.
Qed.

Lemma with_texts_nil (s : session) : with_texts [] s = s.
Proof. destruct s; unfold with_texts; simpl. now rewrite orb_false_r, app_nil_r. Qed.

Lemma with_texts_set_buffer (b : string) (texts : list jsval) (s : session) :
  with_texts texts (set_buffer b s) = set_buffer b (with_texts texts s).
Proof. reflexivity. Qed.

Lemma process_line_eq {A : Type} (p : string -> Emit A) (line : string) (s : session) :
  process_line p line s = with_texts (line_texts p line) s.
Proof.
  unfold process_line, line_texts.
  destruct (nonempty (trim line)); [|now rewrite with_texts_nil].
  destruct (p line) as [texts [a|]]; simpl fst; simpl snd.
  - now rewrite emit_all_eq, app_nil_r.
  - rewrite emit_all_eq. simpl andb.
    destruct (negb (startsWith (trim line) "{") && negb (startsWith (trim line) "[")).
    + rewrite <- with_texts_app.
      exact (emit_all_eq [JStr (trim line ++ nl)] (with_texts texts s)).
    + now rewrite app_nil_r.
Qed.

Lemma process_lines_eq {A : Type} (p : string -> Emit A) (lines : list string)
  (s : session) :
  process_lines p lines s = with_texts (flat_map (line_texts p) lines) s.
Proof.
  unfold process_lines. revert s.
  induction lines as [|l ls IH]; intros s; simpl.
  - now rewrite with_texts_nil.
  - rewrite IH, process_line_eq. apply with_texts_app.
Qed.

Lemma feed_lines_eq {A : Type} (p : string -> Emit A) (text : string) (s : session) :
  no_LF (buffer s) = true ->
  feed_lines p text s
  = with_texts (flat_map (line_texts p) (fst (scan (buffer s) text)))
      (set_buffer (snd (scan (buffer s) text)) s).
Proof.
  intros H. unfold feed_lines. rewrite (pop_split _ _ H).
  apply process_lines_eq.
Qed.

Lemma feed_lines_res {A : Type} (p : string -> Emit A) (text : string) (s : session) :
  exists texts, feed_lines p text s
                = with_texts texts (set_buffer (match snd (pop (split LF (buffer s ++ text))) with
                                                | Some l => l
                                                | None => ""
                                                end) s).
Proof.
  unfold feed_lines. destruct (pop (split LF (buffer s ++ text))) as [lines last].
  eexists. apply process_lines_eq.
Qed.

Lemma flush_json_res {A : Type} (p : string -> Emit A) (s : session) :
  res (flush_json p s)
  = (res s ++ map (fun v => Write (sse_text v))
              (residual_texts p (textSent s) (buffer s)))%list.
Proof.
  unfold flush_json, residual_texts.
  destruct (p (buffer s)) as [texts [a|]]; simpl fst; simpl snd;
    rewrite emit_all_eq.
  - now rewrite app_nil_r.
  - destruct texts as [|v vs].
    + simpl. rewrite orb_false_r. destruct (textSent s); simpl; now rewrite ?app_nil_r.
    + simpl textSent. rewrite orb_true_r. now rewrite app_nil_r.
Qed.

Lemma flush_json_frame {A : Type} (p : string -> Emit A) (s : session) :
  killed (flush_json p s) = killed s /\ exited (flush_json p s) = exited s
  /\ signals (flush_json p s) = signals s /\ buffer (flush_json p s) = buffer s
  /\ console (flush_json p s) = console s.
Proof.
  unfold flush_json. destruct (p (buffer s)) as [texts [a|]]; rewrite emit_all_eq.
  - repeat split.
  - destruct (textSent (with_texts texts s)); repeat split.
Qed.

Lemma line_texts_forget {A : Type} (p : string -> Emit A) (line : string) :
  line_texts (forget p) line = line_texts p line.
Proof.
  unfold line_texts, forget. simpl. now destruct (snd (p line)).
Qed.

Lemma process_lines_forget {A : Type} (p : string -> Emit A) (lines : list string)
  (s : session) :
  process_lines (forget p) lines s = process_lines p lines s.
Proof.
  rewrite !process_lines_eq. f_equal.
  induction lines as [|l ls IH]; simpl; [reflexivity|].
  now rewrite line_texts_forget, IH.
Qed.

Lemma feed_lines_forget {A : Type} (p : string -> Emit A) (text : string) (s : session) :
  feed_lines (forget p) text s = feed_lines p text s.
Proof.
  unfold feed_lines. destruct (pop (split LF (buffer s ++ text))).
  apply process_lines_forget.
Qed.

Lemma flush_json_forget {A : Type} (p : string -> Emit A) (s : session) :
  flush_json (forget p) s = flush_json p s.
Proof.
  unfold flush_json, forget. simpl.
  destruct (p (buffer s)) as [texts [a|]]; reflexivity.
Qed.

Lemma IndexMjs_step (name : jsval) (t : IndexMjs.tool) (s : session) (e : event) :
  IndexMjs.step name t s e = step name (as_tool t) s e.
Proof.
  destruct e; simpl; try reflexivity.
  - unfold IndexMjs.on_stdout_data, IndexMjs.on_stdout_text, on_stdout_data,
      on_stdout_text. simpl.
    now rewrite feed_lines_forget.
  - unfold IndexMjs.on_close, on_close. simpl. now rewrite flush_json_forget.
Qed.

Lemma IndexMjs_run (name : jsval) (t : IndexMjs.tool) (trace : list event) (s : session) :
  IndexMjs.run name t trace s = run name (as_tool t) trace s.
Proof.
  revert s. induction trace as [|e tr IH]; intros s; simpl; [reflexivity|].
  now rewrite IndexMjs_step, IH.
Qed.

(** ** The terminal marker *)

Lemma sse_text_not_DONE (v : jsval) : sse_text v <> DONE.
Proof.
  unfold sse_text, DONE, JSON_stringify. simpl serialize.
  destruct (serialize v); simpl; discriminate.
Qed.

Lemma sse_error_not_DONE (m : string) : sse_error m <> DONE.
Proof. unfold sse_error, DONE, JSON_stringify. simpl. discriminate. Qed.

Lemma sent_app (a b : list res_op) :
  sent (a ++ b) = if ended a then sent a else (sent a ++ sent b)%list.
Proof.
  induction a as [|[c|] a IH]; simpl; [reflexivity| |reflexivity].
  rewrite IH. now destruct (ended a).
Qed.

Lemma sent_writes (ws : list string) : sent (map Write ws) = ws.
Proof. induction ws as [|w ws IH]; simpl; [reflexivity | now rewrite IH]. Qed.

Lemma ended_writes (ws : list string) : ended (map Write ws) = false.
Proof. induction ws as [|w ws IH]; simpl; [reflexivity | exact IH]. Qed.

Lemma ended_app (a b : list res_op) : ended (a ++ b) = ended a || ended b.
Proof. apply existsb_app. Qed.

(** Every handler appends to the response: chunks that are not the marker,
    and, for the two handlers of the end of the process, the marker and
    [end()]. *)
Lemma step_shape (name : jsval) (t : tool) (s : session) (e : event) :
  exists ws, Forall (fun c => c <> DONE) ws
             /\ res (step name t s e) = (res s ++ map Write ws ++ closing e)%list.
Proof.
  destruct e as [data|data| |code|message|]; unfold closing; simpl is_terminal; cbv iota.
  - unfold step, on_stdout_data, on_stdout_text.
    destruct (parseStream t) as [p|].
    + destruct (feed_lines_res p (Buffer_toString data) s) as [texts E]. rewrite E.
      exists (map sse_text texts). split.
      * apply Forall_forall. intros c Hc. apply in_map_iff in Hc as [v [<- _]].
        apply sse_text_not_DONE.
      * simpl. now rewrite map_map, app_nil_r.
    + destruct (nonempty (Buffer_toString data)).
      * exists [sse_text (JStr (Buffer_toString data))]. split.
        -- constructor; [apply sse_text_not_DONE | constructor].
        -- reflexivity.
      * exists []. split; [constructor | simpl; now rewrite app_nil_r].
  - exists []. split; [constructor|].
    unfold step, on_stderr_data.
    destruct (nonempty (trim (Buffer_toString data))); simpl; now rewrite app_nil_r.
  - exists []. split; [constructor | simpl; now rewrite app_nil_r].
  - unfold step, on_close. cbv zeta.
    set (s0 := set_exited s).
    set (s1 := if nonempty (trim (buffer s0))
               then match parseStream t with
                    | Some p => flush_json p s0
                    | None => res_write (sse_text (JStr (trim (buffer s0)))) s0
                    end
               else s0).
    assert (H : exists ws, Forall (fun c => c <> DONE) ws
                           /\ res s1 = (res s ++ map Write ws)%list).
    { subst s1. destruct (nonempty (trim (buffer s0))).
      - destruct (parseStream t) as [p|].
        + rewrite flush_json_res.
          exists (map sse_text (residual_texts p (textSent s0) (buffer s0))). split.
          * apply Forall_forall. intros c Hc. apply in_map_iff in Hc as [v [<- _]].
            apply sse_text_not_DONE.
          * now rewrite map_map.
        + exists [sse_text (JStr (trim (buffer s0)))]. split.
          * constructor; [apply sse_text_not_DONE | constructor].
          * reflexivity.
      - exists []. split; [constructor | simpl; now rewrite app_nil_r]. }
    destruct H as [ws [Hws Hres]]. exists ws. split; [exact Hws|].
    assert (E : res (res_end (res_write DONE s1)) = (res s1 ++ [Write DONE; End])%list).
    { simpl. now rewrite <- app_assoc. }
    destruct (is_zero code); [|change (res (console_error ?l ?x)) with (res x)];
      rewrite E, Hres; now rewrite <- app_assoc.
  - exists [sse_error ("Failed to start " ++ to_string name ++ " CLI. Is it installed?")].
    split.
    + constructor; [apply sse_error_not_DONE | constructor].
    + unfold step, on_error. simpl. now rewrite <- !app_assoc.
  - exists []. split; [constructor|].
    unfold step, on_res_close, proc_kill.
    destruct (killed s), (exited s); simpl; now rewrite app_nil_r.
Qed.

Lemma marker_ok_step (name : jsval) (t : tool) (s : session) (e : event) :
  marker_ok (res s) ->
  marker_ok (res (step name t s e))
  /\ (is_terminal e = true -> ended (res (step name t s e)) = true)
  /\ (ended (res s) = true -> ended (res (step name t s e)) = true).
Proof.
  intros Hok. destruct (step_shape name t s e) as [ws [Hws Hres]].
  rewrite Hres. unfold marker_ok in *.
  rewrite !ended_app, ended_writes, sent_app. simpl orb.
  destruct (ended (res s)); simpl.
  - repeat split; auto.
  - rewrite sent_app, ended_writes, sent_writes.
    unfold closing. destruct (is_terminal e); simpl.
    + repeat split; auto.
      exists (sent (res s) ++ ws)%list. split.
      * now rewrite app_assoc.
      * intros Hin. apply in_app_or in Hin as [Hin|Hin]; [now apply Hok|].
        rewrite Forall_forall in Hws. now apply (Hws DONE Hin).
    + repeat split; try discriminate.
      rewrite app_nil_r. intros Hin. apply in_app_or in Hin as [Hin|Hin]; [now apply Hok|].
      rewrite Forall_forall in Hws. now apply (Hws DONE Hin).
Qed.

Lemma marker_ok_run (name : jsval) (t : tool) (trace : list event) (s : session) :
  marker_ok (res s) ->
  marker_ok (res (run name t trace s))
  /\ (ended (res s) = true -> ended (res (run name t trace s)) = true).
Proof.
  revert s. induction trace as [|e tr IH]; intros s Hok; simpl.
  - split; [exact Hok | trivial].
  - destruct (marker_ok_step name t s e Hok) as [Hok' [_ Hend]].
    destruct (IH _ Hok') as [Hfin Hended]. split; [exact Hfin | auto].
Qed.

Lemma terminal_ends (name : jsval) (t : tool) (trace : list event) (s : session) :
  marker_ok (res s) ->
  existsb is_terminal trace = true ->
  ended (res (run name t trace s)) = true.
Proof.
  revert s. induction trace as [|e tr IH]; intros s Hok H; simpl in *.
  - discriminate.
  - destruct (marker_ok_step name t s e Hok) as [Hok' [Hterm _]].
    destruct (is_terminal e); simpl in H.
    + apply (proj2 (marker_ok_run name t tr _ Hok')). now apply Hterm.
    + now apply IH.
Qed.

(** What the handlers of the process do hold: in every session in which
    a ['close'] or an ['error'] of the process is delivered (whatever else
    happens before, between or after: output, a residual buffer to flush,
    the client closing the response, both events of a process that was not
    found), the stream written to the client ends with the terminal marker
    and holds no other occurrence of it.  Stated for the handlers of both
    files. *)
Theorem done_exactly_once_and_last :
  (forall (name : jsval) (t : tool) (trace : list event),
      existsb is_terminal trace = true ->
      exists before,
        sent (res (run name t trace initial)) = (before ++ [DONE])%list
        /\ ~ In DONE before)
  /\ (forall (name : jsval) (t : IndexMjs.tool) (trace : list event),
      existsb is_terminal trace = true ->
      exists before,
        sent (res (IndexMjs.run name t trace initial)) = (before ++ [DONE])%list
        /\ ~ In DONE before).
Proof.
  assert (G : forall name t trace,
             existsb is_terminal trace = true ->
             exists before,
               sent (res (run name t trace initial)) = (before ++ [DONE])%list
               /\ ~ In DONE before).
  { intros name t trace H.
    assert (Hok : marker_ok (res initial)) by (unfold marker_ok; simpl; intros []).
    pose proof (proj1 (marker_ok_run name t trace initial Hok)) as Hfin.
    pose proof (terminal_ends name t trace initial Hok H) as Hend.
    unfold marker_ok in Hfin. now rewrite Hend in Hfin. }
  split; [exact G|].
  intros name t trace H. rewrite IndexMjs_run. now apply G.
Qed.

(** On a path with one end-of-process event, as its last event, also the
    calls on the response hold one marker: some writes without it, then the
    marker, then [end()]. *)
Lemma writes_before_exit (name : jsval) (t : tool) (pre : list event) (s : session) :
  forallb nonterminal pre = true ->
  exists ws, Forall (fun c => c <> DONE) ws
             /\ res (run name t pre s) = (res s ++ map Write ws)%list.
Proof.
  revert s. induction pre as [|e pre IH]; intros s H.
  - exists []. split; [constructor | simpl; now rewrite app_nil_r].
  - simpl in H. apply andb_prop in H as [He Hpre].
    destruct (step_shape name t s e) as [ws1 [F1 E1]].
    destruct (IH (step name t s e) Hpre) as [ws2 [F2 E2]].
    exists (ws1 ++ ws2)%list. split; [now apply Forall_app|].
    change (run name t (e :: pre) s) with (run name t pre (step name t s e)).
    rewrite E2, E1. unfold closing.
    unfold nonterminal in He. apply negb_true_iff in He. rewrite He.
    now rewrite app_nil_r, map_app, app_assoc.
Qed.

Lemma marker_written_once_on_single_exit (name : jsval) (t : tool)
  (pre : list event) (e : event) :
  forallb nonterminal pre = true ->
  is_terminal e = true ->
  exists ws, ~ In DONE ws
             /\ res (run name t (pre ++ [e]) initial)
                = (map Write ws ++ [Write DONE; End])%list.
Proof.
  intros Hpre He.
  assert (R : run name t (pre ++ [e]) initial
              = step name t (run name t pre initial) e)
    by (unfold run; now rewrite fold_left_app).
  rewrite R.
  destruct (writes_before_exit name t pre initial Hpre) as [ws1 [F1 E1]].
  simpl in E1.
  destruct (step_shape name t (run name t pre initial) e) as [ws2 [F2 E2]].
  rewrite E2, E1. unfold closing. rewrite He.
  exists (ws1 ++ ws2)%list. split.
  - intros Hin. apply in_app_or in Hin as [Hin|Hin].
    + rewrite Forall_forall in F1. now apply (F1 DONE Hin).
    + rewrite Forall_forall in F2. now apply (F2 DONE Hin).
  - now rewrite map_app, app_assoc.
Qed.

(** Only those two handlers write the marker: a session whose events stop
    before a ['close'] or an ['error'] of the process is delivered (the
    server stopped by an uncaught exception, for one) has written no marker
    and has not ended its response. *)
Lemma no_marker_before_the_end (name : jsval) (pre : list event) :
  forallb nonterminal pre = true ->
  (forall t : tool,
      ~ In DONE (sent (res (run name t pre initial)))
      /\ ended (res (run name t pre initial)) = false)
  /\ (forall t : IndexMjs.tool,
      ~ In DONE (sent (res (IndexMjs.run name t pre initial)))
      /\ ended (res (IndexMjs.run name t pre initial)) = false).
Proof.
  intros Hpre.
  assert (G : forall t : tool,
             ~ In DONE (sent (res (run name t pre initial)))
             /\ ended (res (run name t pre initial)) = false).
  { intros t. destruct (writes_before_exit name t pre initial Hpre) as [ws [F E]].
    simpl in E. rewrite E, sent_writes, ended_writes. split; [|reflexivity].
    intros Hin. rewrite Forall_forall in F. now apply (F DONE Hin). }
  split; [exact G|]. intros t. rewrite IndexMjs_run. apply G.
Qed.

(** ** Cancellation *)

(** What a handler does to the process. *)
Lemma step_proc (name : jsval) (t : tool) (s : session) (e : event) :
  match e with
  | ResClose =>
      step name t s e = (if killed s then s else proc_kill "SIGTERM" s)
  | _ =>
      killed (step name t s e) = killed s
      /\ signals (step name t s e) = signals s
      /\ exited (step name t s e) = (exited s || negb (is_output e))
  end.
Proof.
  destruct e as [data|data| |code|message|]; simpl.
  - unfold on_stdout_data, on_stdout_text. destruct (parseStream t) as [p|].
    + destruct (feed_lines_res p (Buffer_toString data) s) as [texts E]. rewrite E.
      simpl. now rewrite orb_false_r.
    + destruct (nonempty (Buffer_toString data)); simpl; now rewrite orb_false_r.
  - unfold on_stderr_data.
    destruct (nonempty (trim (Buffer_toString data))); simpl; now rewrite orb_false_r.
  - now rewrite orb_true_r.
  - unfold on_close. cbv zeta. rewrite orb_true_r.
    set (s0 := set_exited s).
    set (s1 := if nonempty (trim (buffer s0))
               then match parseStream t with
                    | Some p => flush_json p s0
                    | None => res_write (sse_text (JStr (trim (buffer s0)))) s0
                    end
               else s0).
    assert (H : killed s1 = killed s /\ signals s1 = signals s /\ exited s1 = true).
    { subst s1. destruct (nonempty (trim (buffer s0))); [|now repeat split].
      destruct (parseStream t) as [p|]; [|now repeat split].
      destruct (flush_json_frame p s0) as [Hk [He [Hs _]]].
      now rewrite Hk, He, Hs. }
    destruct (is_zero code); simpl; exact H.
  - now rewrite orb_true_r.
  - reflexivity.
Qed.

Lemma signalled_once_step (name : jsval) (t : tool) (s : session) (e : event) :
  signalled_once s ->
  signalled_once (step name t s e)
  /\ (killed s = true -> killed (step name t s e) = true).
Proof.
  unfold signalled_once. intros H.
  pose proof (step_proc name t s e) as P.
  destruct e as [data|data| |code|message|].
  1-5: destruct P as [Hk [Hs _]]; rewrite Hk, Hs; now split.
  rewrite P. destruct (killed s) eqn:K.
  - rewrite K. now split.
  - unfold proc_kill. destruct (exited s); simpl.
    + rewrite K. now split.
    + rewrite H. now split.
Qed.

Lemma signalled_once_run (name : jsval) (t : tool) (trace : list event) (s : session) :
  signalled_once s ->
  signalled_once (run name t trace s)
  /\ (killed s = true -> killed (run name t trace s) = true).
Proof.
  revert s. induction trace as [|e tr IH]; intros s H; simpl.
  - now split.
  - destruct (signalled_once_step name t s e H) as [H1 H2].
    destruct (IH _ H1) as [H3 H4]. split; auto.
Qed.

Lemma running_after_output (name : jsval) (t : tool) (trace : list event) (s : session) :
  forallb is_output trace = true ->
  killed (run name t trace s) = killed s
  /\ signals (run name t trace s) = signals s
  /\ exited (run name t trace s) = exited s.
Proof.
  revert s. induction trace as [|e tr IH]; intros s H; simpl in *.
  - now repeat split.
  - apply andb_prop in H as [He Htr].
    destruct (IH (step name t s e) Htr) as [Hk [Hs Hx]].
    pose proof (step_proc name t s e) as P.
    destruct e; try discriminate; destruct P as [Pk [Ps Px]];
      rewrite Hk, Hs, Hx, Pk, Ps, Px; simpl; now rewrite orb_false_r.
Qed.

Lemma sigterm_after_client_close (name : jsval) (t : tool) (pre post : list event) :
  forallb is_output pre = true ->
  signals (run name t (pre ++ ResClose :: post) initial) = ["SIGTERM"].
Proof.
  intros H. unfold run. rewrite fold_left_app. simpl fold_left.
  fold (run name t pre initial).
  destruct (running_after_output name t pre initial H) as [Hk [Hs Hx]].
  simpl in Hk, Hs, Hx.
  set (s := run name t pre initial) in *.
  assert (Hs1 : signalled_once (on_res_close s) /\ killed (on_res_close s) = true).
  { unfold signalled_once, on_res_close, proc_kill. rewrite Hk, Hx. simpl.
    now rewrite Hs. }
  destruct Hs1 as [H1 H2].
  destruct (signalled_once_run name t post _ H1) as [H3 H4].
  unfold run in H3, H4. unfold signalled_once in H3. rewrite H3, (H4 H2). reflexivity.
Qed.

Lemma gone_unsignalled_run (name : jsval) (t : tool) (trace : list event) (s : session) :
  gone_unsignalled s -> gone_unsignalled (run name t trace s).
Proof.
  revert s. induction trace as [|e tr IH]; intros s H; [exact H|].
  apply IH. destruct H as [Hx [Hk Hs]]. unfold gone_unsignalled.
  pose proof (step_proc name t s e) as P.
  destruct e as [data|data| |code|message|].
  1-5: destruct P as [Pk [Ps Px]]; now rewrite Pk, Ps, Px, Hx.
  rewrite P, Hk. unfold proc_kill. rewrite Hx. now repeat split.
Qed.

Lemma no_signal_after_exit (name : jsval) (t : tool) (pre post : list event) (e : event) :
  forallb is_output pre = true ->
  ends_process e = true ->
  signals (run name t (pre ++ e :: post) initial) = [].
Proof.
  intros Hpre He.
  assert (R : run name t (pre ++ e :: post) initial
              = run name t post (step name t (run name t pre initial) e))
    by (unfold run; now rewrite fold_left_app).
  rewrite R. apply gone_unsignalled_run.
  destruct (running_after_output name t pre initial Hpre) as [Hk [Hs Hx]].
  simpl in Hk, Hs, Hx. unfold gone_unsignalled.
  pose proof (step_proc name t (run name t pre initial) e) as P.
  destruct e as [data|data| |code|message|]; try discriminate;
    destruct P as [Pk [Ps Px]]; rewrite Pk, Ps, Px, Hk, Hs, Hx; now repeat split.
Qed.

(** C9: when the client closes the response while the process runs (only
    output events before it), the process is sent SIGTERM exactly once,
    whatever follows; on no trace is a second signal sent; when the process
    has ended before the client closes, no signal is sent at all; and the
    handler does nothing, and raises nothing, on a session already marked
    killed or whose process has ended.  Stated for the handlers of both
    files. *)
Theorem sigterm_exactly_once :
  (forall (name : jsval) (t : tool),
      (forall pre post, forallb is_output pre = true ->
         signals (run name t (pre ++ ResClose :: post) initial) = ["SIGTERM"])
      /\ (forall trace, signals (run name t trace initial) = []
                        \/ signals (run name t trace initial) = ["SIGTERM"])
      /\ (forall pre e post, forallb is_output pre = true -> ends_process e = true ->
          signals (run name t (pre ++ e :: post) initial) = [])
      /\ (forall s, killed s = true \/ exited s = true -> on_res_close s = s))
  /\ (forall (name : jsval) (t : IndexMjs.tool),
      (forall pre post, forallb is_output pre = true ->
         signals (IndexMjs.run name t (pre ++ ResClose :: post) initial) = ["SIGTERM"])
      /\ (forall trace, signals (IndexMjs.run name t trace initial) = []
                        \/ signals (IndexMjs.run name t trace initial) = ["SIGTERM"])
      /\ (forall pre e post, forallb is_output pre = true -> ends_process e = true ->
          signals (IndexMjs.run name t (pre ++ e :: post) initial) = [])
      /\ (forall s, killed s = true \/ exited s = true -> IndexMjs.on_res_close s = s)).
Proof.
  assert (G : forall name t,
      (forall pre post, forallb is_output pre = true ->
         signals (run name t (pre ++ ResClose :: post) initial) = ["SIGTERM"])
      /\ (forall trace, signals (run name t trace initial) = []
                        \/ signals (run name t trace initial) = ["SIGTERM"])
      /\ (forall pre e post, forallb is_output pre = true -> ends_process e = true ->
          signals (run name t (pre ++ e :: post) initial) = [])
      /\ (forall s, killed s = true \/ exited s = true -> on_res_close s = s)).
  { intros name t. split; [|split; [|split]].
    - intros pre post H. now apply sigterm_after_client_close.
    - intros trace.
      assert (H0 : signalled_once initial) by reflexivity.
      destruct (signalled_once_run name t trace initial H0) as [H _].
      unfold signalled_once in H. rewrite H.
      destruct (killed (run name t trace initial)); [now right | now left].
    - intros pre e post Hpre He. now apply no_signal_after_exit.
    - intros s [H|H]; unfold on_res_close, proc_kill; rewrite H.
      + reflexivity.
      + now destruct (killed s). }
  split; [exact G|].
  intros name t. destruct (G name (as_tool t)) as [G1 [G2 [G3 G4]]].
  split; [|split; [|split]].
  - intros pre post H. rewrite IndexMjs_run. now apply G1.
  - intros trace. rewrite IndexMjs_run. apply G2.
  - intros pre e post Hpre He. rewrite IndexMjs_run. now apply G3.
  - exact G4.
Qed.

(** ** The residual buffer at process exit *)

(** Until the process ends, [textSent] tells whether anything has been
    written to the response. *)
Lemma textSent_step (name : jsval) (t : tool) (s : session) (e : event) :
  nonterminal e = true ->
  textSent s = negb (is_nil (res s)) ->
  textSent (step name t s e) = negb (is_nil (res (step name t s e))).
Proof.
  intros He H. destruct e as [data|data| |code|message|]; try discriminate; simpl.
  - unfold on_stdout_data, on_stdout_text. destruct (parseStream t) as [p|].
    + destruct (feed_lines_res p (Buffer_toString data) s) as [texts E]. rewrite E.
      simpl. rewrite H. now destruct (res s), texts.
    + destruct (nonempty (Buffer_toString data)); simpl; [|exact H].
      now destruct (res s).
  - unfold on_stderr_data.
    now destruct (nonempty (trim (Buffer_toString data))).
  - exact H.
  - unfold on_res_close, proc_kill. now destruct (killed s), (exited s).
Qed.

Lemma textSent_run (name : jsval) (t : tool) (trace : list event) (s : session) :
  forallb nonterminal trace = true ->
  textSent s = negb (is_nil (res s)) ->
  textSent (run name t trace s) = negb (is_nil (res (run name t trace s))).
Proof.
  revert s. induction trace as [|e tr IH]; intros s Htr H; simpl in *.
  - exact H.
  - apply andb_prop in Htr as [He Htr]. apply IH; [exact Htr|].
    now apply textSent_step.
Qed.

Lemma residual_texts_forget {A : Type} (p : string -> Emit A) (b : bool) (buf : string) :
  residual_texts (forget p) b buf = residual_texts p b buf.
Proof. unfold residual_texts, forget. simpl. now destruct (snd (p buf)). Qed.

Lemma on_close_res (name : jsval) (t : tool) (p : string -> Emit unit)
  (code : option Z) (s : session) :
  parseStream t = Some p ->
  res (on_close name t code s)
  = (res s ++ map (fun v => Write (sse_text v))
              (if nonempty (trim (buffer s))
               then residual_texts p (textSent s) (buffer s)
               else [])
     ++ [Write DONE; End])%list.
Proof.
  intros Hp. unfold on_close. cbv zeta. rewrite Hp.
  set (s1 := if nonempty (trim (buffer s)) then flush_json p s else s).
  assert (H : res s1 = (res s ++ map (fun v => Write (sse_text v))
                                  (if nonempty (trim (buffer s))
                                   then residual_texts p (textSent s) (buffer s)
                                   else []))%list).
  { subst s1. destruct (nonempty (trim (buffer s))).
    - apply flush_json_res.
    - simpl. now rewrite app_nil_r. }
  assert (E : res (res_end (res_write DONE s1)) = (res s1 ++ [Write DONE; End])%list).
  { simpl. now rewrite <- app_assoc. }
  destruct (is_zero code); [|change (res (console_error ?l ?x)) with (res x)];
    rewrite E, H; now rewrite <- app_assoc.
Qed.

(** C4: at process exit of a JSON-mode provider, after any events that do
    not end the process, the handler writes the texts of the residual buffer
    and then the marker.  A residual that is blank after trimming gives no
    text.  Otherwise the residual is passed once through the provider's
    parser [p], whose texts are written once, in order; the trimmed residual
    itself is written after them only when the parser throws, has emitted
    nothing from the residual, and nothing has been written for the whole
    session; so the residual never reaches the client twice.  Stated for the
    handlers of both files. *)
Theorem residual_flushed_once :
  (forall (name : jsval) (t : tool) (p : string -> Emit unit)
          (pre : list event) (code : option Z),
      parseStream t = Some p ->
      forallb nonterminal pre = true ->
      let s := run name t pre initial in
      res (step name t s (ProcClose code))
      = (res s
         ++ map (fun v => Write (sse_text v))
              (if nonempty (trim (buffer s))
               then (fst (p (buffer s))
                     ++ match snd (p (buffer s)), fst (p (buffer s)), res s with
                        | None, [], [] => [JStr (trim (buffer s))]
                        | _, _, _ => []
                        end)%list
               else [])
         ++ [Write DONE; End])%list)
  /\ (forall (name : jsval) (t : IndexMjs.tool) (pre : list event) (code : option Z),
      forallb nonterminal pre = true ->
      let s := IndexMjs.run name t pre initial in
      let p := IndexMjs.parseStream t in
      res (IndexMjs.step name t s (ProcClose code))
      = (res s
         ++ map (fun v => Write (sse_text v))
              (if nonempty (trim (buffer s))
               then (fst (p (buffer s))
                     ++ match snd (p (buffer s)), fst (p (buffer s)), res s with
                        | None, [], [] => [JStr (trim (buffer s))]
                        | _, _, _ => []
                        end)%list
               else [])
         ++ [Write DONE; End])%list).
Proof.
  assert (G : forall {A : Type} (q : string -> Emit A) (sentBefore : bool)
                     (buf : string) (ops : list res_op),
             sentBefore = negb (is_nil ops) ->
             residual_texts q sentBefore buf
             = (fst (q buf)
                ++ match snd (q buf), fst (q buf), ops with
                   | None, [], [] => [JStr (trim buf)]
                   | _, _, _ => []
                   end)%list).
  { intros A q b buf ops ->. unfold residual_texts.
    destruct (snd (q buf)), (fst (q buf)), ops; reflexivity. }
  split.
  - intros name t p pre code Hp Hpre s.
    assert (Ht : textSent s = negb (is_nil (res s)))
      by (now apply textSent_run).
    change (step name t s (ProcClose code)) with (on_close name t code (set_exited s)).
    rewrite (on_close_res name t p code _ Hp).
    change (buffer (set_exited s)) with (buffer s).
    change (res (set_exited s)) with (res s).
    change (textSent (set_exited s)) with (textSent s).
    destruct (nonempty (trim (buffer s))); [|reflexivity].
    now rewrite (G _ p _ (buffer s) (res s) Ht).
  - intros name t pre code Hpre s p. subst s.
    rewrite IndexMjs_step, IndexMjs_run.
    set (s := run name (as_tool t) pre initial).
    assert (Ht : textSent s = negb (is_nil (res s)))
      by (now apply textSent_run).
    change (step name (as_tool t) s (ProcClose code))
      with (on_close name (as_tool t) code (set_exited s)).
    rewrite (on_close_res name (as_tool t) (forget p) code _ eq_refl).
    change (buffer (set_exited s)) with (buffer s).
    change (res (set_exited s)) with (res s).
    change (textSent (set_exited s)) with (textSent s).
    destruct (nonempty (trim (buffer s))); [|reflexivity].
    rewrite residual_texts_forget.
    now rewrite (G _ p _ (buffer s) (res s) Ht).
Qed.

(** ** Lines that fail to parse *)

Lemma scan_no_LF_text (s cur : string) :
  no_LF s = true -> scan cur s = ([], cur ++ s).
Proof.
  revert cur. induction s as [|c s IH]; intros cur H; simpl in *.
  - now rewrite append_nil_r.
  - apply andb_prop in H as [Hc Hs].
    destruct (Ascii.eqb c LF); [discriminate|].
    rewrite (IH _ Hs). now rewrite append_assoc.
Qed.

Lemma scan_one_line (line : string) :
  no_LF line = true -> scan "" (line ++ nl) = ([line], "").
Proof.
  intros H. rewrite scan_app, (scan_no_LF_text _ _ H). reflexivity.
Qed.





(** ** Boundary invariance of the rolling buffer, over decoded text *)

Lemma set_buffer_same (s : session) : set_buffer (buffer s) s = s.
Proof. now destruct s. Qed.

Lemma feed_all {A : Type} (p : string -> Emit A) (texts : list string) (s : session) :
  no_LF (buffer s) = true ->
  fold_left (fun st text => feed_lines p text st) texts s
  = with_texts (flat_map (line_texts p) (fst (scan (buffer s) (whole texts))))
      (set_buffer (snd (scan (buffer s) (whole texts))) s).
Proof.
  revert s. induction texts as [|x xs IH]; intros s H; simpl.
  - now rewrite with_texts_nil, set_buffer_same.
  - rewrite (feed_lines_eq p x s H).
    rewrite IH by (simpl; now apply scan_no_LF).
    simpl buffer. rewrite scan_app. simpl fst. simpl snd.
    rewrite flat_map_app, <- with_texts_app. reflexivity.
Qed.

(** However the decoded text of a JSON-mode provider is cut into pieces, the
    session ends up as if it had come in one piece. *)
Lemma text_boundary_invariance (t : tool) (p : string -> Emit unit) (texts : list string) :
  parseStream t = Some p ->
  fold_left (fun st text => on_stdout_text t text st) texts initial
  = on_stdout_text t (whole texts) initial.
Proof.
  intros Hp. unfold on_stdout_text. rewrite Hp.
  rewrite feed_all by reflexivity. now rewrite feed_lines_eq by reflexivity.
Qed.

Lemma run_stdout (name : jsval) (t : tool) (chunks : list string) (s : session) :
  run name t (map StdoutData chunks) s
  = fold_left (fun st text => on_stdout_text t text st) (map Buffer_toString chunks) s.
Proof.
  revert s. induction chunks as [|c cs IH]; intros s; simpl; [reflexivity|].
  now rewrite <- IH.
Qed.

(** The whole output of a session of a JSON-mode provider that receives
    [chunks] and then ends: the texts of the complete lines of the decoded
    stream, then those of its residual, then the marker. *)
Lemma session_output (name : jsval) (t : tool) (p : string -> Emit unit)
  (chunks : list string) (code : option Z) :
  parseStream t = Some p ->
  let stream := whole (map Buffer_toString chunks) in
  sent (res (run name t (map StdoutData chunks ++ [ProcClose code]) initial))
  = (map sse_text
       (fragments p stream
        ++ if nonempty (trim (residual stream))
           then residual_texts p (negb (is_nil (fragments p stream))) (residual stream)
           else [])
     ++ [DONE])%list.
Proof.
  intros Hp stream.
  assert (R : run name t (map StdoutData chunks ++ [ProcClose code]) initial
              = on_close name t code
                  (set_exited (run name t (map StdoutData chunks) initial)))
    by (unfold run; now rewrite fold_left_app).
  rewrite R, (on_close_res name t p code _ Hp), run_stdout.
  unfold on_stdout_text. rewrite Hp, feed_all by reflexivity.
  change (scan (buffer initial) (whole (map Buffer_toString chunks)))
    with (scan "" stream).
  fold (complete_lines stream) (residual stream) (fragments p stream).
  simpl buffer. simpl res. simpl textSent.
  replace (negb (match fragments p stream with [] => true | _ :: _ => false end))
    with (negb (is_nil (fragments p stream))) by reflexivity.
  rewrite app_assoc, <- map_app, <- (map_map sse_text Write).
  now rewrite sent_app, ended_writes, sent_writes.
Qed.

(** ** Chunk boundaries in the byte stream *)

(** C2: the emitted fragments depend on where the byte stream is cut.  For
    the claude provider of either file, the one-line stream [cut_1 ++ cut_2]
    read in one chunk gives the text "caf" and U+00E9; read as the chunks
    [cut_1] and [cut_2], whose boundary falls inside the two bytes of U+00E9,
    it gives "caf" and twice U+FFFD, because each chunk is decoded on its
    own. *)
Theorem chunk_boundary_inside_character :
  let name := JStr "claude" in
  let t := ApiRouter.claude Json.parse in
  let t' := IndexMjs.claude Json.parse in
  sent (res (run name t [StdoutData (cut_1 ++ cut_2); ProcClose (Some 0%Z)] initial))
  = [sse_text (JStr ("caf" ++ e_acute)); DONE]
  /\ sent (res (run name t [StdoutData cut_1; StdoutData cut_2; ProcClose (Some 0%Z)] initial))
     = [sse_text (JStr ("caf" ++ REPLACEMENT ++ REPLACEMENT)); DONE]
  /\ sent (res (IndexMjs.run name t' [StdoutData (cut_1 ++ cut_2); ProcClose (Some 0%Z)] initial))
     = [sse_text (JStr ("caf" ++ e_acute)); DONE]
  /\ sent (res (IndexMjs.run name t' [StdoutData cut_1; StdoutData cut_2; ProcClose (Some 0%Z)] initial))
     = [sse_text (JStr ("caf" ++ REPLACEMENT ++ REPLACEMENT)); DONE]
  /\ sse_text (JStr ("caf" ++ REPLACEMENT ++ REPLACEMENT)) <> sse_text (JStr ("caf" ++ e_acute)).
Proof.
  split; [|split; [|split; [|split]]]; try (vm_compute; reflexivity).
  vm_compute. discriminate.
Qed.

(** So the fragments are not the same for every way of cutting the bytes of
    a stream into chunks. *)
Lemma byte_boundary_invariance_fails :
  ~ (forall (name : jsval) (t : tool) (p : string -> Emit unit) (chunks : list string),
        parseStream t = Some p ->
        sent (res (run name t (map StdoutData chunks) initial))
        = sent (res (run name t [StdoutData (whole chunks)] initial))).
Proof.
  intros H.
  specialize (H (JStr "claude") (ApiRouter.claude Json.parse) _ [cut_1; cut_2] eq_refl).
  vm_compute in H. discriminate.
Qed.

Lemma Buffer_toString_ascii (s : string) :
  is_ascii_text s = true -> Buffer_toString s = s.
Proof.
  unfold Buffer_toString. induction s as [|c s IH]; simpl; intros H.
  - reflexivity.
  - apply andb_prop in H as [Hc Hs]. unfold classify. rewrite Hc.
    now rewrite (IH Hs).
Qed.

Lemma is_ascii_text_app (a b : string) :
  is_ascii_text a = true -> is_ascii_text b = true -> is_ascii_text (a ++ b) = true.
Proof.
  induction a as [|c a IH]; simpl; intros Ha Hb; [exact Hb|].
  apply andb_prop in Ha as [Hc Ha]. rewrite Hc. now apply IH.
Qed.

(** The boundary invariance that does hold on bytes: chunks of one-byte
    characters, for a JSON-mode provider. *)
Lemma ascii_boundary_invariance (name : jsval) (t : tool) (p : string -> Emit unit)
  (chunks : list string) :
  parseStream t = Some p ->
  forallb is_ascii_text chunks = true ->
  run name t (map StdoutData chunks) initial
  = run name t [StdoutData (whole chunks)] initial.
Proof.
  intros Hp H.
  assert (Hw : is_ascii_text (whole chunks) = true).
  { induction chunks as [|c cs IH]; simpl in *; [reflexivity|].
    apply andb_prop in H as [Hc Hcs]. apply is_ascii_text_app; auto. }
  simpl run. unfold on_stdout_data. rewrite (Buffer_toString_ascii _ Hw).
  rewrite <- (text_boundary_invariance t p chunks Hp).
  unfold run. generalize initial.
  induction chunks as [|c cs IH]; intros s; simpl in *; [reflexivity|].
  apply andb_prop in H as [Hc Hcs].
  unfold on_stdout_data at 1. rewrite (Buffer_toString_ascii _ Hc).
  apply IH; [exact Hcs|].
  clear - Hcs. induction cs as [|c cs IH]; simpl in *; [reflexivity|].
  apply andb_prop in Hcs as [Hc Hcs]. apply is_ascii_text_app; auto.
Qed.

(** ** The prompt *)

Lemma lookup_own {T : Type} (table : list (string * T)) (key : jsval) (t : T) :
  lookup table key = Own t -> own table (to_string key) = Some t.
Proof.
  unfold lookup. destruct (own table (to_string key)) as [t'|].
  - now intros [= ->].
  - destruct (existsb _ _); discriminate.
Qed.

Lemma render_ok (m : jsval) :
  nullish m = false -> printable (opt_prop m "content") = true ->
  render m = Some (rendered_message m).
Proof.
  destruct m; try discriminate; intros _ H; unfold render, opt_prop in *;
    simpl in *; now rewrite ?H.
Qed.

Lemma render_throws (m : jsval) :
  negb (nullish m) && printable (opt_prop m "content") = false -> render m = None.
Proof.
  destruct m; try reflexivity; unfold render, opt_prop; simpl; try discriminate;
    now intros ->.
Qed.

Lemma map_throwing_render (ms : list jsval) :
  renderable ms = true -> map_throwing render ms = Some (map rendered_message ms).
Proof.
  induction ms as [|m ms IH]; simpl; intros H; [reflexivity|].
  apply andb_prop in H as [Hm Hms]. apply andb_prop in Hm as [Hn Hc].
  apply negb_true_iff in Hn.
  now rewrite (render_ok m Hn Hc), (IH Hms).
Qed.

Lemma map_throwing_render_throws (ms : list jsval) :
  renderable ms = false -> map_throwing render ms = None.
Proof.
  induction ms as [|m ms IH]; simpl; intros H; [discriminate|].
  apply andb_false_iff in H as [H|H].
  - now rewrite (render_throws m H).
  - rewrite (IH H). now destruct (render m).
Qed.

Lemma concat_rendered (ms : list jsval) :
  String.concat (nl ++ nl) (map rendered_message ms) = rendered ms.
Proof.
  induction ms as [|m ms IH]; [reflexivity|].
  destruct ms as [|m' ms]; [reflexivity|].
  change (rendered (m :: m' :: ms))
    with (rendered_message m ++ blank_line ++ rendered (m' :: ms)).
  rewrite <- IH. reflexivity.
Qed.

Lemma join_messages_ok (ms : list jsval) :
  renderable ms = true -> join_messages ms = Some (rendered ms).
Proof.
  intros H. unfold join_messages. rewrite (map_throwing_render ms H). simpl.
  now rewrite concat_rendered.
Qed.

Lemma join_messages_throws (ms : list jsval) :
  renderable ms = false -> join_messages ms = None.
Proof.
  intros H. unfold join_messages. now rewrite (map_throwing_render_throws ms H).
Qed.

Lemma prompt_ok (t : tool) (ms : list jsval) (systemPrompt : jsval) :
  renderable ms = true ->
  (embedSystemPrompt t && truthy systemPrompt = true -> printable systemPrompt = true) ->
  ApiRouter.prompt (Own t) ms systemPrompt
  = Some (system_header (embedSystemPrompt t) systemPrompt ++ rendered ms).
Proof.
  intros H Hs. unfold ApiRouter.prompt, system_header. rewrite (join_messages_ok ms H).
  destruct (embedSystemPrompt t && truthy systemPrompt); [|reflexivity].
  rewrite (Hs eq_refl).
  f_equal. unfold blank_line. simpl. f_equal.
  now rewrite !append_assoc.
Qed.

(** A value whose conversion throws holds an object, which no name of the
    tables reads as: a name found in a table converts. *)
Lemma has_char_app (c : ascii) (a b : string) :
  has_char c (a ++ b) = has_char c a || has_char c b.
Proof.
  induction a as [|x a IH]; simpl; [reflexivity|]. now rewrite IH, orb_assoc.
Qed.

Lemma has_char_concat (c : ascii) (sep x : string) (parts : list string) :
  In x parts -> has_char c x = true -> has_char c (String.concat sep parts) = true.
Proof.
  induction parts as [|y ys IH]; intros Hin Hx; [contradiction|].
  simpl. destruct ys as [|z zs].
  - destruct Hin as [->|[]]. exact Hx.
  - rewrite !has_char_app. destruct Hin as [->|Hin].
    + now rewrite Hx.
    + rewrite (IH Hin Hx). now rewrite !orb_true_r.
Qed.

Lemma unprintable_bracket : forall v : jsval,
  printable v = false -> has_char "[" (to_string v) = true.
Proof.
  fix IH 1. intros v H. destruct v as [| |b|n|str|xs|kvs]; try discriminate.
  - simpl in H. simpl to_string.
    set (f := fun x0 => match x0 with JUndef | JNull => "" | _ => to_string x0 end).
    assert (K : exists y, In y (map f xs) /\ has_char "[" y = true).
    { induction xs as [|x xs IHxs]; [discriminate|].
      simpl in H. apply andb_false_iff in H as [H|H].
      - exists (f x). split; [now left|].
        replace (f x) with (to_string x) by (destruct x; try discriminate; reflexivity).
        exact (IH x H).
      - destruct (IHxs H) as [y [Hy Hc]]. exists y. split; [now right | exact Hc]. }
    destruct K as [y [Hy Hc]]. exact (has_char_concat _ _ y _ Hy Hc).
  - reflexivity.
Qed.

Lemma registered_name_converts (JSON_parse : string -> option jsval) (name : jsval) :
  (forall t, lookup (ApiRouter.CLI_TOOLS JSON_parse) name = Own t -> printable name = true)
  /\ (forall t, lookup (IndexMjs.CLI_TOOLS JSON_parse) name = Own t ->
                printable name = true).
Proof.
  assert (G : In (to_string name) ["claude"; "codex"; "gemini"] -> printable name = true).
  { intros Hin. destruct (printable name) eqn:E; [reflexivity|].
    apply unprintable_bracket in E.
    destruct Hin as [K|[K|[K|[]]]]; rewrite <- K in E; discriminate. }
  split; intros t H; apply G; unfold lookup in H;
    destruct (own _ (to_string name)) as [t'|] eqn:E;
    try (destruct (existsb _ _); discriminate);
    unfold ApiRouter.CLI_TOOLS, IndexMjs.CLI_TOOLS, own in E;
    destruct (String.eqb_spec (to_string name) "claude") as [->|]; [simpl; tauto| |simpl; tauto|];
    destruct (String.eqb_spec (to_string name) "codex") as [->|]; try (simpl; tauto);
    destruct (String.eqb_spec (to_string name) "gemini") as [->|]; try (simpl; tauto);
    discriminate.
Qed.

Lemma spawn_ok (command : string) (args : list jsval) (after : list action) :
  spawnable command args = true -> spawn command args after = Spawn command args :: after.
Proof.
  unfold spawnable, spawn. intros H. apply andb_prop in H as [H1 H2].
  apply negb_true_iff in H1. now rewrite H1, H2.
Qed.

(** A request with messages and a registered provider is answered by the
    streaming headers, the process and its prompt, and the listeners. *)
Lemma ApiRouter_chat_accepts (JSON_parse : string -> option jsval)
  (body m : jsval) (ms : list jsval) (t : tool) :
  opt_prop body "messages" = JArr (m :: ms) ->
  lookup (ApiRouter.CLI_TOOLS JSON_parse) (ApiRouter.providerName body) = Own t ->
  let model := opt_prop body "model" in
  let systemPrompt := opt_prop body "systemPrompt" in
  let text := system_header (embedSystemPrompt t) systemPrompt ++ rendered (m :: ms) in
  let argv := (buildArgs t model systemPrompt ++ in_arguments (inputMode t) text)%list in
  renderable (m :: ms) = true ->
  (embedSystemPrompt t && truthy systemPrompt = true -> printable systemPrompt = true) ->
  spawnable (command t) argv = true ->
  ApiRouter.chat JSON_parse body
  = (streaming_headers
     ++ Spawn (command t) argv
        :: on_stdin (inputMode t) text ++ [Listen (ApiRouter.providerName body)])%list.
Proof.
  intros Hm Hl model sp text argv Ho Hs Ha. unfold ApiRouter.chat.
  pose proof (proj1 (registered_name_converts JSON_parse _) t Hl) as Hn.
  assert (E : ApiRouter.start (ApiRouter.providerName body) t model sp text
              = Spawn (command t) argv
                :: on_stdin (inputMode t) text ++ [Listen (ApiRouter.providerName body)]).
  { unfold ApiRouter.start. cbv zeta. fold (in_arguments (inputMode t) text). fold argv.
    rewrite (spawn_ok _ _ _ Ha). now destruct (inputMode t). }
  pose proof (prompt_ok t (m :: ms) sp Ho Hs) as P. fold text in P.
  clearbody argv text. subst model sp.
  destruct body; try discriminate; cbv zeta; now rewrite Hm, Hn, Hl, P, E.
Qed.

Lemma IndexMjs_chat_accepts (JSON_parse : string -> option jsval)
  (body m : jsval) (ms : list jsval) (t : IndexMjs.tool) :
  opt_prop body "messages" = JArr (m :: ms) ->
  lookup (IndexMjs.CLI_TOOLS JSON_parse) (IndexMjs.provider body) = Own t ->
  let model := opt_prop body "model" in
  let systemPrompt := opt_prop body "systemPrompt" in
  let text := rendered (m :: ms) in
  let argv := (IndexMjs.buildArgs t model systemPrompt
               ++ in_arguments (IndexMjs.inputMode t) text)%list in
  renderable (m :: ms) = true ->
  spawnable (IndexMjs.command t) argv = true ->
  IndexMjs.chat JSON_parse body
  = (streaming_headers
     ++ Spawn (IndexMjs.command t) argv
        :: on_stdin (IndexMjs.inputMode t) text ++ [Listen (IndexMjs.provider body)])%list.
Proof.
  intros Hm Hl model sp text argv Ho Ha. unfold IndexMjs.chat.
  pose proof (proj2 (registered_name_converts JSON_parse _) t Hl) as Hn.
  assert (E : IndexMjs.start (IndexMjs.provider body) t model sp text
              = Spawn (IndexMjs.command t) argv
                :: on_stdin (IndexMjs.inputMode t) text ++ [Listen (IndexMjs.provider body)]).
  { unfold IndexMjs.start. cbv zeta. fold (in_arguments (IndexMjs.inputMode t) text).
    fold argv. rewrite (spawn_ok _ _ _ Ha). now destruct (IndexMjs.inputMode t). }
  pose proof (join_messages_ok (m :: ms) Ho) as P. fold text in P.
  clearbody argv text. subst model sp.
  destruct body; try discriminate; cbv zeta; now rewrite Hm, Hn, Hl, P, E.
Qed.

(** Where no prompt can be built the handler throws before it has sent
    anything. *)
Lemma chat_throws_without_prompt (JSON_parse : string -> option jsval)
  (body m : jsval) (ms : list jsval) :
  opt_prop body "messages" = JArr (m :: ms) ->
  renderable (m :: ms) = false ->
  (forall t, lookup (ApiRouter.CLI_TOOLS JSON_parse) (ApiRouter.providerName body) = Own t ->
             ApiRouter.chat JSON_parse body = [Throw])
  /\ (forall t, lookup (IndexMjs.CLI_TOOLS JSON_parse) (IndexMjs.provider body) = Own t ->
                IndexMjs.chat JSON_parse body = [Throw]).
Proof.
  intros Hm Ho. split; intros t Hl.
  - pose proof (proj1 (registered_name_converts JSON_parse _) t Hl) as Hn.
    unfold ApiRouter.chat, ApiRouter.prompt.
    destruct body; try discriminate; cbv zeta;
      now rewrite Hm, Hn, Hl, (join_messages_throws _ Ho).
  - pose proof (proj2 (registered_name_converts JSON_parse _) t Hl) as Hn.
    unfold IndexMjs.chat.
    destruct body; try discriminate; cbv zeta;
      now rewrite Hm, Hn, Hl, (join_messages_throws _ Ho).
Qed.

Lemma rendered_message_other_role (m : jsval) :
  opt_prop m "role" <> JStr "user" ->
  rendered_message m = "Assistant: " ++ to_string (opt_prop m "content").
Proof.
  intros Hr. unfold rendered_message, RoleLabel.
  destruct (opt_prop m "role") as [| | | |r| |]; try reflexivity.
  simpl. destruct (String.eqb_spec r "user") as [->|]; [now elim Hr | reflexivity].
Qed.

Lemma system_header_eq (embed : bool) (systemPrompt : jsval) :
  system_header embed systemPrompt
  = if embed && truthy systemPrompt
    then "System instructions: " ++ to_string systemPrompt ++ blank_line
    else "".
Proof. reflexivity. Qed.

(** C6: for a request with a non-empty list of messages and a registered
    provider, the handler sends the streaming headers and starts the
    provider's command with the prompt the specification describes: every
    message as "User: content" or "Assistant: content", in the order given,
    none left out or merged, joined by blank lines; in
    [src/unnamed/part_000] after "System instructions: ", the system prompt
    and a blank line when the provider embeds the system prompt and one is
    supplied.  The prompt is the text written to the standard input, or the
    argument after [-p].  This holds whenever a prompt can be built (no
    message is null, every content converts to a string, and so does an
    embedded system prompt) and [spawn] takes the arguments; where a message
    or a content prevents the prompt the handler throws before it has sent
    anything.  The table of [src/index.mjs] has no provider that embeds the
    system prompt. *)
Theorem prompt_rendering (JSON_parse : string -> option jsval) :
  (forall (body m : jsval) (ms : list jsval) (t : tool),
      opt_prop body "messages" = JArr (m :: ms) ->
      lookup (ApiRouter.CLI_TOOLS JSON_parse) (ApiRouter.providerName body) = Own t ->
      let model := opt_prop body "model" in
      let systemPrompt := opt_prop body "systemPrompt" in
      let text := (if embedSystemPrompt t && truthy systemPrompt
                   then "System instructions: " ++ to_string systemPrompt ++ blank_line
                   else "")
                  ++ String.concat blank_line (map rendered_message (m :: ms)) in
      let argv := (buildArgs t model systemPrompt ++ in_arguments (inputMode t) text)%list in
      (renderable (m :: ms) = true ->
       (embedSystemPrompt t && truthy systemPrompt = true ->
        printable systemPrompt = true) ->
       spawnable (command t) argv = true ->
       ApiRouter.chat JSON_parse body
       = (streaming_headers
          ++ Spawn (command t) argv
             :: on_stdin (inputMode t) text
             ++ [Listen (ApiRouter.providerName body)])%list)
      /\ (renderable (m :: ms) = false -> ApiRouter.chat JSON_parse body = [Throw]))
  /\ (forall (body m : jsval) (ms : list jsval) (t : IndexMjs.tool),
      opt_prop body "messages" = JArr (m :: ms) ->
      lookup (IndexMjs.CLI_TOOLS JSON_parse) (IndexMjs.provider body) = Own t ->
      let model := opt_prop body "model" in
      let systemPrompt := opt_prop body "systemPrompt" in
      let text := String.concat blank_line (map rendered_message (m :: ms)) in
      let argv := (IndexMjs.buildArgs t model systemPrompt
                   ++ in_arguments (IndexMjs.inputMode t) text)%list in
      (renderable (m :: ms) = true ->
       spawnable (IndexMjs.command t) argv = true ->
       IndexMjs.chat JSON_parse body
       = (streaming_headers
          ++ Spawn (IndexMjs.command t) argv
             :: on_stdin (IndexMjs.inputMode t) text
             ++ [Listen (IndexMjs.provider body)])%list)
      /\ (renderable (m :: ms) = false -> IndexMjs.chat JSON_parse body = [Throw])).
Proof.
  split.
  - intros body m ms t Hm Hl model sp text argv. split.
    + intros Ho Hs Ha. subst argv text. rewrite <- system_header_eq in *.
      unfold blank_line in *. rewrite concat_rendered in *.
      exact (ApiRouter_chat_accepts _ _ _ _ _ Hm Hl Ho Hs Ha).
    + intros Ho. exact (proj1 (chat_throws_without_prompt _ _ _ _ Hm Ho) t Hl).
  - intros body m ms t Hm Hl model sp text argv. split.
    + intros Ho Ha. subst argv text. unfold blank_line in *.
      rewrite concat_rendered in *.
      exact (IndexMjs_chat_accepts _ _ _ _ _ Hm Hl Ho Ha).
    + intros Ho. exact (proj2 (chat_throws_without_prompt _ _ _ _ Hm Ho) t Hl).
Qed.

Lemma rendered_around (pre post : list jsval) (m : jsval) :
  opt_prop m "role" <> JStr "user" ->
  String.concat blank_line
    (map rendered_message pre
     ++ ("Assistant: " ++ to_string (opt_prop m "content"))%string
        :: map rendered_message post)%list
  = rendered (pre ++ m :: post).
Proof.
  intros Hr. rewrite <- (rendered_message_other_role m Hr).
  change (rendered_message m :: map rendered_message post)
    with (map rendered_message (m :: post)).
  rewrite <- map_app. apply concat_rendered.
Qed.

(** C10: a message whose role is anything but the string "user" (another
    string, a value of another type, no role at all) stands in the prompt
    that the process receives as "Assistant: " and its content, at its place
    among the other messages; and the request is accepted whatever that role
    is: the handler sends the streaming headers and starts the process.  The
    conditions are those of every request: messages from which a prompt can
    be built, a registered provider and arguments that [spawn] takes. *)
Theorem other_roles_are_assistant (JSON_parse : string -> option jsval) :
  (forall (body m : jsval) (pre post : list jsval) (t : tool),
      opt_prop body "messages" = JArr (pre ++ m :: post) ->
      opt_prop m "role" <> JStr "user" ->
      lookup (ApiRouter.CLI_TOOLS JSON_parse) (ApiRouter.providerName body) = Own t ->
      let model := opt_prop body "model" in
      let systemPrompt := opt_prop body "systemPrompt" in
      let text := system_header (embedSystemPrompt t) systemPrompt
                  ++ String.concat blank_line
                       (map rendered_message pre
                        ++ ("Assistant: " ++ to_string (opt_prop m "content"))%string
                        :: map rendered_message post)%list in
      let argv := (buildArgs t model systemPrompt ++ in_arguments (inputMode t) text)%list in
      renderable (pre ++ m :: post) = true ->
      (embedSystemPrompt t && truthy systemPrompt = true -> printable systemPrompt = true) ->
      spawnable (command t) argv = true ->
      ApiRouter.chat JSON_parse body
      = (streaming_headers
         ++ Spawn (command t) argv
            :: on_stdin (inputMode t) text
            ++ [Listen (ApiRouter.providerName body)])%list)
  /\ (forall (body m : jsval) (pre post : list jsval) (t : IndexMjs.tool),
      opt_prop body "messages" = JArr (pre ++ m :: post) ->
      opt_prop m "role" <> JStr "user" ->
      lookup (IndexMjs.CLI_TOOLS JSON_parse) (IndexMjs.provider body) = Own t ->
      let model := opt_prop body "model" in
      let systemPrompt := opt_prop body "systemPrompt" in
      let text := String.concat blank_line
                    (map rendered_message pre
                     ++ ("Assistant: " ++ to_string (opt_prop m "content"))%string
                     :: map rendered_message post)%list in
      let argv := (IndexMjs.buildArgs t model systemPrompt
                   ++ in_arguments (IndexMjs.inputMode t) text)%list in
      renderable (pre ++ m :: post) = true ->
      spawnable (IndexMjs.command t) argv = true ->
      IndexMjs.chat JSON_parse body
      = (streaming_headers
         ++ Spawn (IndexMjs.command t) argv
            :: on_stdin (IndexMjs.inputMode t) text
            ++ [Listen (IndexMjs.provider body)])%list).
Proof.
  split.
  - intros body m pre post t Hm Hr Hl model sp text argv Ho Hs Ha.
    subst argv text. rewrite (rendered_around pre post m Hr) in *.
    destruct (pre ++ m :: post)%list as [|m0 ms0] eqn:E; [now destruct pre|].
    exact (ApiRouter_chat_accepts _ _ _ _ _ Hm Hl Ho Hs Ha).
  - intros body m pre post t Hm Hr Hl model sp text argv Ho Ha.
    subst argv text. rewrite (rendered_around pre post m Hr) in *.
    destruct (pre ++ m :: post)%list as [|m0 ms0] eqn:E; [now destruct pre|].
    exact (IndexMjs_chat_accepts _ _ _ _ _ Hm Hl Ho Ha).
Qed.

(** ** The system prompt *)



(** ** Request validation and provider selection *)

(** Requests without a usable [messages] array are refused. *)
Lemma bad_messages_refused (JSON_parse : string -> option jsval) (body : jsval) :
  (forall m ms, opt_prop body "messages" <> JArr (m :: ms)) ->
  body <> JUndef -> body <> JNull ->
  ApiRouter.chat JSON_parse body = bad_messages
  /\ IndexMjs.chat JSON_parse body = bad_messages.
Proof.
  intros H Hu Hn. unfold ApiRouter.chat, IndexMjs.chat.
  destruct body; try contradiction;
    destruct (opt_prop _ "messages") as [| | | | |[|m ms]|] eqn:E; try (now split);
    exfalso; now apply (H m ms).
Qed.

(** A provider name that converts to a string which is neither in the
    table nor a member of [Object.prototype] is refused, and the body lists
    the table's names. *)
Lemma unknown_provider_refused (JSON_parse : string -> option jsval)
  (kvs : list (string * jsval)) (m : jsval) (ms : list jsval) :
  assoc "messages" kvs = JArr (m :: ms) ->
  printable (ApiRouter.providerName (JObj kvs)) = true ->
  lookup (ApiRouter.CLI_TOOLS JSON_parse) (ApiRouter.providerName (JObj kvs)) = Undefined ->
  ApiRouter.chat JSON_parse (JObj kvs)
  = [ Status 400;
      Json (JObj [ ("error", JStr ("Unknown provider: "
                                   ++ to_string (ApiRouter.providerName (JObj kvs))));
                   ("available", JArr [JStr "claude"; JStr "codex"; JStr "gemini"]) ]) ].
Proof.
  intros Hm Hn Hl. unfold ApiRouter.chat. cbv zeta.
  change (opt_prop (JObj kvs) "messages") with (assoc "messages" kvs).
  rewrite Hm, Hn, Hl. reflexivity.
Qed.

(** A refusal sends no streaming header and starts no process. *)
Lemma refusals_are_plain {T : Type} (table : list (string * T)) (name : jsval) :
  existsb is_header bad_messages = false
  /\ existsb has_spawn bad_messages = false
  /\ existsb is_header (unknown_provider table name) = false
  /\ existsb has_spawn (unknown_provider table name) = false.
Proof. now repeat split. Qed.

(** A name that the table inherits passes the guard: the headers go out and
    the call of [buildArgs] throws. *)
Lemma inherited_name_streams_then_throws (JSON_parse : string -> option jsval)
  (body m : jsval) (ms : list jsval) :
  opt_prop body "messages" = JArr (m :: ms) ->
  renderable (m :: ms) = true ->
  lookup (ApiRouter.CLI_TOOLS JSON_parse) (ApiRouter.providerName body) = Inherited ->
  ApiRouter.chat JSON_parse body = (streaming_headers ++ [Throw])%list.
Proof.
  intros Hm Hr Hl.
  assert (Hn : printable (ApiRouter.providerName body) = true).
  { destruct (printable _) eqn:E; [reflexivity|]. apply unprintable_bracket in E.
    unfold lookup in Hl. destruct (own _ _); [discriminate|].
    destruct (existsb _ Object_prototype) eqn:X; [|discriminate].
    apply existsb_exists in X as [k [Hk Hx]]. apply String.eqb_eq in Hx.
    rewrite Hx in E. unfold Object_prototype in Hk. simpl in Hk.
    repeat (destruct Hk as [<-|Hk]; [discriminate|]). contradiction. }
  unfold ApiRouter.chat, ApiRouter.prompt.
  destruct body; try discriminate; cbv zeta;
    rewrite Hm, Hn, Hl, (join_messages_ok _ Hr); reflexivity.
Qed.

(** An unregistered name never starts a process, refused or not. *)
Lemma unregistered_never_spawns (JSON_parse : string -> option jsval) (body : jsval) :
  (forall t, lookup (ApiRouter.CLI_TOOLS JSON_parse) (ApiRouter.providerName body) <> Own t) ->
  (forall t, lookup (IndexMjs.CLI_TOOLS JSON_parse) (IndexMjs.provider body) <> Own t) ->
  existsb has_spawn (ApiRouter.chat JSON_parse body) = false
  /\ existsb has_spawn (IndexMjs.chat JSON_parse body) = false.
Proof.
  intros H H'. unfold ApiRouter.chat, IndexMjs.chat. cbv zeta. split.
  - clear H'. destruct body; try reflexivity;
      destruct (opt_prop _ "messages") as [| | | | |[|m ms]|]; try reflexivity;
      destruct (printable _); try reflexivity;
      destruct (lookup _ _) as [t| |] eqn:E; try reflexivity;
      try (now elim (H t));
      destruct (ApiRouter.prompt _ _ _); reflexivity.
  - clear H. destruct body; try reflexivity;
      destruct (opt_prop _ "messages") as [| | | | |[|m ms]|]; try reflexivity;
      destruct (printable _); try reflexivity;
      destruct (lookup _ _) as [t| |] eqn:E; try reflexivity;
      try (now elim (H' t));
      destruct (join_messages _); reflexivity.
Qed.

(** C5: a provider name that is not registered but names a member of
    [Object.prototype] is not refused.  For the body
    [{provider: 'constructor', messages: [{role: 'user', content: 'hi'}]}]
    the lookup in the table reads the inherited member, which is truthy: both
    handlers send the streaming headers and then fail in [buildArgs]; no 400
    and no list of names is sent (and no process is started). *)
Theorem inherited_name_not_refused (JSON_parse : string -> option jsval) :
  let body := JObj [("provider", JStr "constructor"); ("messages", hi)] in
  own (ApiRouter.CLI_TOOLS JSON_parse) "constructor" = None
  /\ own (IndexMjs.CLI_TOOLS JSON_parse) "constructor" = None
  /\ ApiRouter.chat JSON_parse body = (streaming_headers ++ [Throw])%list
  /\ IndexMjs.chat JSON_parse body = (streaming_headers ++ [Throw])%list.
Proof. repeat split. Qed.

(** When [spawn] refuses the arguments of an accepted request, the
    streaming headers have been sent and the exception leaves the handler:
    no process, no listener. *)
Lemma refused_spawn_opens_stream (JSON_parse : string -> option jsval)
  (body m : jsval) (ms : list jsval) :
  opt_prop body "messages" = JArr (m :: ms) ->
  renderable (m :: ms) = true ->
  let model := opt_prop body "model" in
  let systemPrompt := opt_prop body "systemPrompt" in
  (forall t,
      lookup (ApiRouter.CLI_TOOLS JSON_parse) (ApiRouter.providerName body) = Own t ->
      (embedSystemPrompt t && truthy systemPrompt = true -> printable systemPrompt = true) ->
      spawn_refuses (command t)
        (buildArgs t model systemPrompt
         ++ in_arguments (inputMode t)
              (system_header (embedSystemPrompt t) systemPrompt
               ++ rendered (m :: ms)))%list = true ->
      ApiRouter.chat JSON_parse body = (streaming_headers ++ [Throw])%list)
  /\ (forall t,
      lookup (IndexMjs.CLI_TOOLS JSON_parse) (IndexMjs.provider body) = Own t ->
      spawn_refuses (IndexMjs.command t)
        (IndexMjs.buildArgs t model systemPrompt
         ++ in_arguments (IndexMjs.inputMode t) (rendered (m :: ms)))%list = true ->
      IndexMjs.chat JSON_parse body = (streaming_headers ++ [Throw])%list).
Proof.
  intros Hm Ho model sp. split.
  - intros t Hl Hs Hr.
    pose proof (proj1 (registered_name_converts JSON_parse _) t Hl) as Hn.
    pose proof (prompt_ok t (m :: ms) sp Ho Hs) as P.
    assert (E : ApiRouter.start (ApiRouter.providerName body) t model sp
                  (system_header (embedSystemPrompt t) sp ++ rendered (m :: ms))
                = [Throw]).
    { unfold ApiRouter.start. cbv zeta.
      fold (in_arguments (inputMode t)
              (system_header (embedSystemPrompt t) sp ++ rendered (m :: ms))).
      unfold spawn. now rewrite Hr. }
    subst model sp. unfold ApiRouter.chat.
    destruct body; try discriminate; cbv zeta; now rewrite Hm, Hn, Hl, P, E.
  - intros t Hl Hr.
    pose proof (proj2 (registered_name_converts JSON_parse _) t Hl) as Hn.
    pose proof (join_messages_ok (m :: ms) Ho) as P.
    assert (E : IndexMjs.start (IndexMjs.provider body) t model sp (rendered (m :: ms))
                = [Throw]).
    { unfold IndexMjs.start. cbv zeta.
      fold (in_arguments (IndexMjs.inputMode t) (rendered (m :: ms))).
      unfold spawn. now rewrite Hr. }
    subst model sp. unfold IndexMjs.chat.
    destruct body; try discriminate; cbv zeta; now rewrite Hm, Hn, Hl, P, E.
Qed.

(** C1: not every chat session ends with the terminal marker.  The marker
    is written by the handlers of the process's ['close'] and ['error']
    (lemma [done_exactly_once_and_last]); but [spawn] is called after the
    streaming headers have been flushed, outside any [try], and it throws on
    an argument that holds a null byte.  For the body
    [{provider: 'gemini', messages: [{role: 'user', content: '\u0000hi'}]}],
    whose prompt is an argument, and for the body
    [{systemPrompt: '\u0000', messages: [{role: 'user', content: 'hi'}]}],
    whose system prompt is one, both handlers send the headers and throw: no
    process is started and no listener installed, so the stream that the
    client was given ends without a marker. *)
Theorem stream_opened_without_marker (JSON_parse : string -> option jsval) :
  let in_prompt :=
    JObj [ ("provider", JStr "gemini");
           ("messages", JArr [ JObj [ ("role", JStr "user");
                                      ("content", JStr (String NUL "hi")) ] ]) ] in
  let in_flag := JObj [ ("systemPrompt", JStr (String NUL "")); ("messages", hi) ] in
  ApiRouter.chat JSON_parse in_prompt = (streaming_headers ++ [Throw])%list
  /\ IndexMjs.chat JSON_parse in_prompt = (streaming_headers ++ [Throw])%list
  /\ ApiRouter.chat JSON_parse in_flag = (streaming_headers ++ [Throw])%list
  /\ IndexMjs.chat JSON_parse in_flag = (streaming_headers ++ [Throw])%list.
Proof. repeat split. Qed.

(** C8: [src/index.mjs] does not read the [tool] field.  For the body
    [{tool: 'codex', messages: [{role: 'user', content: 'hi'}]}] it starts
    claude, where the handler of [src/unnamed/part_000] starts codex. *)
Theorem tool_alias_ignored_by_index (JSON_parse : string -> option jsval) :
  let body := JObj [("tool", JStr "codex"); ("messages", hi)] in
  IndexMjs.chat JSON_parse body
  = (streaming_headers
     ++ [ Spawn "claude" [JStr "-p"; JStr "--output-format"; JStr "stream-json";
                          JStr "--verbose"];
          StdinWrite "User: hi"; StdinEnd; Listen (JStr "claude") ])%list
  /\ ApiRouter.chat JSON_parse body
     = (streaming_headers
        ++ [ Spawn "codex" [JStr "exec"; JStr "--json"];
             StdinWrite "User: hi"; StdinEnd; Listen (JStr "codex") ])%list.
Proof. split; reflexivity. Qed.

(** So not every request that names an unregistered provider is refused
    with the list of names, and [src/index.mjs] does not select the provider
    that [tool] names. *)
Lemma unregistered_not_always_refused (JSON_parse : string -> option jsval) :
  ~ (forall (body m : jsval) (ms : list jsval),
        opt_prop body "messages" = JArr (m :: ms) ->
        readable (m :: ms) = true ->
        own (ApiRouter.CLI_TOOLS JSON_parse) (to_string (ApiRouter.providerName body)) = None ->
        ApiRouter.chat JSON_parse body
        = unknown_provider (ApiRouter.CLI_TOOLS JSON_parse) (ApiRouter.providerName body)).
Proof.
  intros H.
  specialize (H (JObj [("provider", JStr "constructor"); ("messages", hi)]) _ _
                eq_refl eq_refl eq_refl).
  discriminate.
Qed.

Lemma index_does_not_take_tool :
  ~ (forall body : jsval,
        opt_prop body "provider" = JUndef ->
        truthy (opt_prop body "tool") = true ->
        IndexMjs.provider body = opt_prop body "tool").
Proof.
  intros H. specialize (H (JObj [("tool", JStr "codex")]) eq_refl eq_refl).
  discriminate.
Qed.

(** What part_000 does hold of the provider name: the default, and the
    alias. *)
Lemma providerName_default (body : jsval) :
  truthy (opt_prop body "provider") = false ->
  truthy (opt_prop body "tool") = false ->
  ApiRouter.providerName body = JStr "claude".
Proof.
  intros Hp Ht. unfold ApiRouter.providerName, js_or. rewrite Hp, Ht. reflexivity.
Qed.

Lemma providerName_alias (body : jsval) :
  truthy (opt_prop body "provider") = false ->
  truthy (opt_prop body "tool") = true ->
  ApiRouter.providerName body = opt_prop body "tool".
Proof.
  intros Hp Ht. unfold ApiRouter.providerName, js_or. rewrite Hp, Ht. reflexivity.
Qed.

Lemma provider_default (body : jsval) :
  opt_prop body "provider" = JUndef -> IndexMjs.provider body = JStr "claude".
Proof. intros H. unfold IndexMjs.provider. now rewrite H. Qed.

(** ** The theorems at concrete sessions and requests *)

(** The four ways out of a session: a normal exit, a failed spawn (Node
    delivers ['error'] and then ['close']), an exit with a residual buffer,
    and a client that closes the response first. *)
Lemma done_exactly_once_and_last_witness :
  let name := JStr "claude" in
  let t := ApiRouter.claude Json.parse in
  let ends_with_marker trace :=
    exists before,
      sent (res (run name t trace initial)) = (before ++ [DONE])%list
      /\ ~ In DONE before in
  ends_with_marker [StdoutData (hello_line ++ nl); ProcClose (Some 0%Z)]
  /\ ends_with_marker [ProcError "spawn claude ENOENT"; ProcClose (Some (-2)%Z)]
  /\ ends_with_marker [StdoutData "Segmentation fault"; ProcClose (Some 139%Z)]
  /\ ends_with_marker [StdoutData hello_line; ResClose; ProcExit; ProcClose None].
Proof.
  split; [|split; [|split]];
    apply (proj1 done_exactly_once_and_last); reflexivity.
Defined.

Lemma sigterm_exactly_once_witness :
  let trace := [StdoutData "partial"; ResClose; ProcExit; ResClose; ProcClose None] in
  forallb is_output [StdoutData "partial"] = true
  /\ signals (run (JStr "codex") (ApiRouter.codex Json.parse) trace initial) = ["SIGTERM"].
Proof.
  split; [reflexivity|].
  apply (proj1 (proj1 sigterm_exactly_once (JStr "codex") (ApiRouter.codex Json.parse))
           [StdoutData "partial"] [ProcExit; ResClose; ProcClose None]).
  reflexivity.
Defined.

Lemma residual_flushed_once_witness :
  let t := ApiRouter.claude Json.parse in
  let pre := [StdoutData "Segmentation"; StdoutData " fault"] in
  forallb nonterminal pre = true
  /\ res (step (JStr "claude") t (run (JStr "claude") t pre initial) (ProcClose (Some 1%Z)))
     = [Write (sse_text (JStr "Segmentation fault")); Write DONE; End].
Proof.
  split; [reflexivity|].
  exact (proj1 residual_flushed_once (JStr "claude") (ApiRouter.claude Json.parse)
           _
           [StdoutData "Segmentation"; StdoutData " fault"] (Some 1%Z)
           eq_refl eq_refl).
Defined.


Lemma prompt_rendering_witness :
  let body := JObj [ ("provider", JStr "gemini"); ("messages", conversation);
                     ("systemPrompt", JStr "Be brief.") ] in
  let unreadable :=
    JObj [ ("messages",
            JArr [ JObj [("role", JStr "user");
                         ("content", JObj [("toString", JStr "x")])] ]) ] in
  ApiRouter.chat Json.parse body
  = (streaming_headers
     ++ [ Spawn "gemini"
            [ JStr "-p";
              JStr ("System instructions: Be brief." ++ nl ++ nl
                    ++ "User: Hello" ++ nl ++ nl
                    ++ "Assistant: Hi" ++ nl ++ nl
                    ++ "User: Hello") ];
          Listen (JStr "gemini") ])%list
  /\ IndexMjs.chat Json.parse unreadable = [Throw].
Proof.
  exact (conj
           (proj1 (proj1 (prompt_rendering Json.parse)
                     (JObj [ ("provider", JStr "gemini"); ("messages", conversation);
                             ("systemPrompt", JStr "Be brief.") ])
                     _ _ ApiRouter.gemini eq_refl eq_refl)
              eq_refl (fun _ => eq_refl) eq_refl)
           (proj2 (proj2 (prompt_rendering Json.parse)
                     (JObj [ ("messages",
                              JArr [ JObj [("role", JStr "user");
                                           ("content", JObj [("toString", JStr "x")])] ]) ])
                     _ _ (IndexMjs.claude Json.parse) eq_refl eq_refl)
              eq_refl)).
Defined.

Lemma other_roles_are_assistant_witness :
  let body :=
    JObj [ ("provider", JStr "codex");
           ("messages",
            JArr [ JObj [("role", JStr "user"); ("content", JStr "Hello")];
                   JObj [("role", JStr "system"); ("content", JStr "Be kind")];
                   JObj [("content", JStr "no role")];
                   JObj [("role", JStr "User"); ("content", JNum 7)] ]) ] in
  IndexMjs.chat Json.parse body
  = (streaming_headers
     ++ [ Spawn "codex" [JStr "exec"; JStr "--json"];
          StdinWrite ("User: Hello" ++ nl ++ nl
                      ++ "Assistant: Be kind" ++ nl ++ nl
                      ++ "Assistant: no role" ++ nl ++ nl
                      ++ "Assistant: 7");
          StdinEnd;
          Listen (JStr "codex") ])%list.
Proof.
  refine (proj2 (other_roles_are_assistant Json.parse)
           (JObj [ ("provider", JStr "codex");
                   ("messages",
                    JArr [ JObj [("role", JStr "user"); ("content", JStr "Hello")];
                           JObj [("role", JStr "system"); ("content", JStr "Be kind")];
                           JObj [("content", JStr "no role")];
                           JObj [("role", JStr "User"); ("content", JNum 7)] ]) ])
           (JObj [("role", JStr "system"); ("content", JStr "Be kind")])
           [JObj [("role", JStr "user"); ("content", JStr "Hello")]]
           [JObj [("content", JStr "no role")];
            JObj [("role", JStr "User"); ("content", JNum 7)]]
           (IndexMjs.codex Json.parse) eq_refl _ eq_refl eq_refl eq_refl).
  discriminate.
Defined.


(** * Further properties of the code *)

(** ** What the client cannot see, and what the operator log holds *)

Lemma same_client_refl (s : session) : same_client s s.
Proof. now repeat split. Qed.

Lemma with_texts_same (texts : list jsval) (s s' : session) :
  same_client s s' -> same_client (with_texts texts s) (with_texts texts s').
Proof.
  intros (Hb & Ht & Hr & Hk & Hx & Hs). unfold same_client, with_texts; simpl.
  now rewrite Hb, Ht, Hr, Hk, Hx, Hs.
Qed.

Lemma feed_lines_same {A : Type} (p : string -> Emit A) (text : string) (s s' : session) :
  same_client s s' -> same_client (feed_lines p text s) (feed_lines p text s').
Proof.
  intros H. pose proof H as (Hb & _). unfold feed_lines. rewrite Hb.
  destruct (pop (split LF (buffer s' ++ text))) as [lines last].
  rewrite !process_lines_eq. apply with_texts_same.
  destruct H as (_ & Ht & Hr & Hk & Hx & Hs). unfold same_client; simpl.
  now rewrite Ht, Hr, Hk, Hx, Hs.
Qed.

Lemma flush_json_same {A : Type} (p : string -> Emit A) (s s' : session) :
  same_client s s' -> same_client (flush_json p s) (flush_json p s').
Proof.
  intros H. pose proof H as (Hb & Ht & Hr & Hk & Hx & Hs).
  unfold flush_json. rewrite Hb.
  destruct (p (buffer s')) as [texts [a|]]; rewrite !emit_all_eq.
  - now apply with_texts_same.
  - pose proof (with_texts_same texts s s' H) as (Wb & Wt & Wr & Wk & Wx & Ws).
    rewrite Wt. destruct (textSent (with_texts texts s')).
    + now apply with_texts_same.
    + unfold same_client; simpl in *. now rewrite Hb, Ht, Hr, Hk, Hx, Hs.
Qed.

Lemma step_same (name : jsval) (t : tool) (s s' : session) (e : event) :
  same_client s s' ->
  same_client (step name t s e) (step name t s' (redact e)).
Proof.
  intros H. pose proof H as (Hb & Ht & Hr & Hk & Hx & Hs).
  destruct e as [data|data| |code|message|]; simpl.
  - unfold on_stdout_data, on_stdout_text. destruct (parseStream t) as [p|].
    + now apply feed_lines_same.
    + destruct (nonempty (Buffer_toString data)); [|exact H].
      unfold same_client; simpl. now rewrite Hb, Hr, Hk, Hx, Hs.
  - unfold on_stderr_data.
    destruct (nonempty (trim (Buffer_toString data))); exact H.
  - unfold same_client; simpl. now rewrite Hb, Ht, Hr, Hk, Hs.
  - unfold on_close. cbv zeta. simpl buffer. rewrite Hb.
    assert (H0 : same_client (set_exited s) (set_exited s'))
      by (unfold same_client; simpl; now rewrite Hb, Ht, Hr, Hk, Hs).
    set (s1 := if nonempty (trim (buffer s'))
               then match parseStream t with
                    | Some p => flush_json p (set_exited s)
                    | None => res_write (sse_text (JStr (trim (buffer s')))) (set_exited s)
                    end
               else set_exited s).
    set (s1' := if nonempty (trim (buffer s'))
                then match parseStream t with
                     | Some p => flush_json p (set_exited s')
                     | None => res_write (sse_text (JStr (trim (buffer s')))) (set_exited s')
                     end
                else set_exited s').
    assert (H1 : same_client s1 s1').
    { subst s1 s1'. destruct (nonempty (trim (buffer s'))); [|exact H0].
      destruct (parseStream t) as [p|]; [now apply flush_json_same|].
      unfold same_client; simpl. now rewrite Hb, Ht, Hr, Hk, Hs. }
    destruct H1 as (Wb & Wt & Wr & Wk & Wx & Ws).
    destruct (is_zero code); unfold same_client; simpl;
      now rewrite Wb, Wt, Wr, Wk, Wx, Ws.
  - unfold on_error, same_client; simpl. now rewrite Hb, Ht, Hr, Hk, Hs.
  - unfold on_res_close, proc_kill. rewrite Hk, Hx.
    destruct (killed s'); [exact H|]. destruct (exited s'); [exact H|].
    unfold same_client; simpl. now rewrite Hb, Ht, Hr, Hs.
Qed.

Lemma run_same (name : jsval) (t : tool) (trace : list event) (s s' : session) :
  same_client s s' ->
  same_client (run name t trace s) (run name t (map redact trace) s').
Proof.
  revert s s'. induction trace as [|e tr IH]; intros s s' H; simpl; [exact H|].
  apply IH. now apply step_same.
Qed.

(** What a session writes to the client, what it keeps and what it signals
    do not depend on the diagnostic output of the process, on its exit code
    or on the message of a spawn error. *)
Theorem diagnostics_never_reach_client :
  (forall (name : jsval) (t : tool) (trace : list event),
      same_client (run name t trace initial) (run name t (map redact trace) initial))
  /\ (forall (name : jsval) (t : IndexMjs.tool) (trace : list event),
      same_client (IndexMjs.run name t trace initial)
                  (IndexMjs.run name t (map redact trace) initial)).
Proof.
  split.
  - intros name t trace. apply run_same, same_client_refl.
  - intros name t trace. rewrite !IndexMjs_run. apply run_same, same_client_refl.
Qed.

Lemma step_console (name : jsval) (t : tool) (s : session) (e : event) :
  console (step name t s e) = (console s ++ log_lines name e)%list.
Proof.
  destruct e as [data|data| |code|message|]; simpl.
  - unfold on_stdout_data, on_stdout_text. destruct (parseStream t) as [p|].
    + destruct (feed_lines_res p (Buffer_toString data) s) as [texts E]. rewrite E.
      simpl. now rewrite app_nil_r.
    + destruct (nonempty (Buffer_toString data)); simpl; now rewrite app_nil_r.
  - unfold on_stderr_data.
    destruct (nonempty (trim (Buffer_toString data))); simpl; now rewrite ?app_nil_r.
  - now rewrite app_nil_r.
  - unfold on_close. cbv zeta.
    set (s0 := set_exited s).
    set (s1 := if nonempty (trim (buffer s0))
               then match parseStream t with
                    | Some p => flush_json p s0
                    | None => res_write (sse_text (JStr (trim (buffer s0)))) s0
                    end
               else s0).
    assert (H : console s1 = console s).
    { subst s1. destruct (nonempty (trim (buffer s0))); [|reflexivity].
      destruct (parseStream t) as [p|]; [|reflexivity].
      now destruct (flush_json_frame p s0) as (_ & _ & _ & _ & Hc). }
    destruct (is_zero code); simpl; rewrite H; now rewrite ?app_nil_r.
  - reflexivity.
  - unfold on_res_close, proc_kill.
    destruct (killed s), (exited s); simpl; now rewrite app_nil_r.
Qed.

(** The operator log of a session is made of its diagnostic events alone, in
    their order: the non-blank diagnostic chunks, trimmed; the exit code when
    it is not zero; the message of a spawn error.  Nothing the process writes
    to its standard output is logged, whatever the provider. *)
Theorem operator_log :
  (forall (name : jsval) (t : tool) (trace : list event),
      console (run name t trace initial) = flat_map (log_lines name) trace)
  /\ (forall (name : jsval) (t : IndexMjs.tool) (trace : list event),
      console (IndexMjs.run name t trace initial) = flat_map (log_lines name) trace).
Proof.
  assert (G : forall name t trace s,
             console (run name t trace s)
             = (console s ++ flat_map (log_lines name) trace)%list).
  { intros name t trace. induction trace as [|e tr IH]; intros s; simpl.
    - now rewrite app_nil_r.
    - rewrite IH, step_console. now rewrite <- app_assoc. }
  split.
  - intros name t trace. now rewrite G.
  - intros name t trace. rewrite IndexMjs_run. now rewrite G.
Qed.

(** ** Plain-text mode and the buffer *)

Lemma plain_text_run (name : jsval) (t : tool) (chunks : list string) (s : session) :
  parseStream t = None ->
  buffer (run name t (map StdoutData chunks) s) = buffer s
  /\ res (run name t (map StdoutData chunks) s)
     = (res s ++ map (fun x => Write (sse_text (JStr x))) (forwarded chunks))%list.
Proof.
  intros Hp. revert s. induction chunks as [|c cs IH]; intros s.
  - simpl. now rewrite app_nil_r.
  - change (run name t (map StdoutData (c :: cs)) s)
      with (run name t (map StdoutData cs) (on_stdout_data t c s)).
    destruct (IH (on_stdout_data t c s)) as [Hb Hr]. rewrite Hb, Hr.
    unfold on_stdout_data, on_stdout_text, forwarded. rewrite Hp. simpl.
    destruct (nonempty (Buffer_toString c)); simpl; [|now split].
    now rewrite <- app_assoc.
Qed.

Lemma whole_filter_nonempty (l : list string) : whole (filter nonempty l) = whole l.
Proof.
  induction l as [|x l IH]; [reflexivity|].
  simpl. destruct x; simpl; now rewrite IH.
Qed.

(** A provider without parser forwards every decoded chunk that is not empty
    as one text event, as it is and in order, and at the end of the process
    writes the marker only: the buffer is never used.  The texts sent make up
    the whole decoded output. *)
Theorem plain_text_forwarding (name : jsval) (t : tool) (chunks : list string)
  (code : option Z) :
  parseStream t = None ->
  sent (res (run name t (map StdoutData chunks ++ [ProcClose code]) initial))
  = (map (fun x => sse_text (JStr x)) (forwarded chunks) ++ [DONE])%list
  /\ whole (forwarded chunks) = whole (map Buffer_toString chunks).
Proof.
  intros Hp. split; [|apply whole_filter_nonempty].
  assert (R : run name t (map StdoutData chunks ++ [ProcClose code]) initial
              = on_close name t code
                  (set_exited (run name t (map StdoutData chunks) initial)))
    by (unfold run; now rewrite fold_left_app).
  rewrite R. destruct (plain_text_run name t chunks initial Hp) as [Hb Hr].
  simpl in Hb, Hr.
  set (s := run name t (map StdoutData chunks) initial) in *.
  assert (E : res (on_close name t code (set_exited s))
              = (res s ++ [Write DONE; End])%list).
  { unfold on_close. cbv zeta. simpl buffer. rewrite Hb. simpl.
    destruct (is_zero code); simpl; now rewrite <- app_assoc. }
  rewrite E, Hr, <- (map_map (fun x => sse_text (JStr x)) Write).
  now rewrite sent_app, ended_writes, sent_writes.
Qed.

Lemma plain_text_forwarding_witness :
  sent (res (run (JStr "gemini") ApiRouter.gemini
               (map StdoutData ["Hi "; ""; "there" ++ nl] ++ [ProcClose (Some 0%Z)]) initial))
  = [sse_text (JStr "Hi "); sse_text (JStr ("there" ++ nl)); DONE]
  /\ whole (forwarded ["Hi "; ""; "there" ++ nl]) = "Hi there" ++ nl.
Proof.
  exact (plain_text_forwarding (JStr "gemini") ApiRouter.gemini
           ["Hi "; ""; "there" ++ nl] (Some 0%Z) eq_refl).
Defined.

Lemma split_no_LF_all (s : string) : Forall (fun l => no_LF l = true) (split LF s).
Proof.
  induction s as [|c s IH]; simpl.
  - now repeat constructor.
  - destruct (Ascii.eqb c LF) eqn:E.
    + constructor; [reflexivity | exact IH].
    + destruct (split LF s) as [|h t]; [now repeat constructor; simpl; rewrite E|].
      inversion IH as [|? ? Hh Ht]; subst. constructor; [|exact Ht].
      simpl. now rewrite E, Hh.
Qed.

Lemma pop_last_in {A : Type} (l : list A) (x : A) :
  snd (pop l) = Some x -> In x l.
Proof.
  induction l as [|y l IH]; simpl; [discriminate|].
  destruct l as [|z l].
  - intros H. injection H as <-. now left.
  - destruct (pop (z :: l)) as [init lst] eqn:E. simpl. intros H. right.
    apply IH. now rewrite <- H.
Qed.

Lemma feed_lines_no_LF {A : Type} (p : string -> Emit A) (text : string) (s : session) :
  no_LF (buffer (feed_lines p text s)) = true.
Proof.
  destruct (feed_lines_res p text s) as [texts E]. rewrite E. simpl.
  destruct (snd (pop (split LF (buffer s ++ text)))) as [l|] eqn:El; [|reflexivity].
  apply pop_last_in in El.
  pose proof (split_no_LF_all (buffer s ++ text)) as F.
  rewrite Forall_forall in F. now apply F.
Qed.

Lemma step_buffer (name : jsval) (t : tool) (s : session) (e : event) :
  no_LF (buffer s) = true -> no_LF (buffer (step name t s e)) = true.
Proof.
  intros H. destruct e as [data|data| |code|message|]; simpl.
  - unfold on_stdout_data, on_stdout_text. destruct (parseStream t) as [p|].
    + apply feed_lines_no_LF.
    + now destruct (nonempty (Buffer_toString data)).
  - unfold on_stderr_data. now destruct (nonempty (trim (Buffer_toString data))).
  - exact H.
  - unfold on_close. cbv zeta.
    set (s0 := set_exited s).
    set (s1 := if nonempty (trim (buffer s0))
               then match parseStream t with
                    | Some p => flush_json p s0
                    | None => res_write (sse_text (JStr (trim (buffer s0)))) s0
                    end
               else s0).
    assert (E : buffer s1 = buffer s).
    { subst s1. destruct (nonempty (trim (buffer s0))); [|reflexivity].
      destruct (parseStream t) as [p|]; [|reflexivity].
      now destruct (flush_json_frame p s0) as (_ & _ & _ & Hb & _). }
    destruct (is_zero code); simpl; now rewrite E.
  - exact H.
  - unfold on_res_close, proc_kill. now destruct (killed s), (exited s).
Qed.

(** Between two events the buffer of a session never holds a line feed: it
    is the segment after the last line feed received, kept for the next
    chunk; every complete line has been handed on. *)
Theorem buffer_holds_no_complete_line :
  (forall (name : jsval) (t : tool) (trace : list event),
      no_LF (buffer (run name t trace initial)) = true)
  /\ (forall (name : jsval) (t : IndexMjs.tool) (trace : list event),
      no_LF (buffer (IndexMjs.run name t trace initial)) = true).
Proof.
  assert (G : forall name t trace s,
             no_LF (buffer s) = true -> no_LF (buffer (run name t trace s)) = true).
  { intros name t trace. induction trace as [|e tr IH]; intros s H; simpl; [exact H|].
    apply IH. now apply step_buffer. }
  split.
  - intros name t trace. now apply G.
  - intros name t trace. rewrite IndexMjs_run. now apply G.
Qed.

Lemma session_output_witness :
  let t := ApiRouter.claude Json.parse in
  sent (res (run (JStr "claude") t
               (map StdoutData [substring 0 5 hello_line;
                                substring 5 200 hello_line ++ nl ++ "Segfault"]
                ++ [ProcClose (Some 139%Z)]) initial))
  = [sse_text (JStr "Hello"); DONE].
Proof.
  exact (session_output (JStr "claude") (ApiRouter.claude Json.parse) _
           [substring 0 5 hello_line; substring 5 200 hello_line ++ nl ++ "Segfault"]
           (Some 139%Z) eq_refl).
Defined.

Lemma ascii_boundary_invariance_witness :
  let t := ApiRouter.claude Json.parse in
  let chunks := [substring 0 5 hello_line; ""; substring 5 200 hello_line; nl] in
  forallb is_ascii_text chunks = true
  /\ run (JStr "claude") t (map StdoutData chunks) initial
     = run (JStr "claude") t [StdoutData (hello_line ++ nl)] initial.
Proof.
  split; [reflexivity|].
  exact (ascii_boundary_invariance (JStr "claude") (ApiRouter.claude Json.parse) _
           [substring 0 5 hello_line; ""; substring 5 200 hello_line; nl]
           eq_refl eq_refl).
Defined.

(** ** The parsers *)

Lemma bind_ret_l {A B : Type} (a : A) (f : A -> Emit B) : bind (ret a) f = f a.
Proof. unfold bind, ret. now destruct (f a). Qed.

Ltac run_parser :=
  repeat (unfold get; simpl prop; simpl lift; rewrite ?bind_ret_l; cbv beta).

Lemma prop_readable (v : jsval) (k : string) :
  nullish v = false -> prop v k = Some (opt_prop v k).
Proof. destruct v; try discriminate; reflexivity. Qed.

Lemma emit_text_blocks_eq (kvs : list (string * jsval)) (blocks : list jsval) :
  opt_prop (assoc "message" kvs) "content" = JArr blocks ->
  readable blocks = true ->
  emit_text_blocks (JObj kvs) = (block_texts blocks, Some tt).
Proof.
  intros Hc Hr. unfold emit_text_blocks. run_parser.
  destruct (assoc "message" kvs) as [| | | | | |mk]; try discriminate.
  unfold opt_prop in Hc. simpl in Hc. run_parser. rewrite Hc. simpl iterate.
  run_parser.
  clear Hc. induction blocks as [|b bs IH]; [reflexivity|].
  simpl in Hr. apply andb_prop in Hr as [Hb Hbs]. apply negb_true_iff in Hb.
  simpl for_of. unfold get.
  rewrite (prop_readable b "type" Hb). simpl lift. rewrite bind_ret_l.
  unfold block_texts. simpl flat_map. fold (block_texts bs).
  destruct (is_str (opt_prop b "type") "text"); simpl andb.
  - rewrite (prop_readable b "text" Hb). simpl lift. rewrite bind_ret_l.
    destruct (truthy (opt_prop b "text")).
    + rewrite (IH Hbs). reflexivity.
    + rewrite bind_ret_l. exact (IH Hbs).
  - rewrite bind_ret_l. exact (IH Hbs).
Qed.

Lemma is_assistant_message_obj (kvs : list (string * jsval)) :
  is_assistant_message (JObj kvs)
  = ret (is_str (assoc "type" kvs) "assistant"
         && truthy (opt_prop (assoc "message" kvs) "content")).
Proof.
  unfold is_assistant_message. run_parser.
  now destruct (is_str (assoc "type" kvs) "assistant").
Qed.

Lemma is_text_delta_obj (kvs : list (string * jsval)) :
  is_text_delta (JObj kvs)
  = ret (is_str (assoc "type" kvs) "content_block_delta"
         && truthy (opt_prop (assoc "delta" kvs) "text")).
Proof.
  unfold is_text_delta. run_parser.
  now destruct (is_str (assoc "type" kvs) "content_block_delta").
Qed.

(** One complete line, arriving whole into an empty buffer. *)
Lemma one_line_res {A : Type} (p : string -> Emit A) (line : string) (s : session) :
  no_LF line = true ->
  buffer s = "" ->
  res (feed_lines p (line ++ nl) s)
  = (res s ++ map (fun v => Write (sse_text v)) (line_texts p line))%list.
Proof.
  intros H Hb. rewrite feed_lines_eq by (now rewrite Hb).
  rewrite Hb, (scan_one_line _ H). simpl. now rewrite app_nil_r.
Qed.

(** A line that carries an assistant message whose content is an array of
    blocks is answered by one text event for each block of type "text" whose
    text is not empty, in the order of the blocks; no other block gives
    anything.  So read the claude provider of both files and the gemini
    provider of [src/index.mjs]. *)
Theorem assistant_line_texts (JSON_parse : string -> option jsval)
  (line : string) (kvs : list (string * jsval)) (blocks : list jsval) (s : session) :
  JSON_parse line = Some (JObj kvs) ->
  assoc "type" kvs = JStr "assistant" ->
  opt_prop (assoc "message" kvs) "content" = JArr blocks ->
  readable blocks = true ->
  nonempty (trim line) = true ->
  no_LF line = true ->
  buffer s = "" ->
  let written := (res s ++ map (fun v => Write (sse_text v)) (block_texts blocks))%list in
  res (on_stdout_text (ApiRouter.claude JSON_parse) (line ++ nl) s) = written
  /\ res (IndexMjs.on_stdout_text (IndexMjs.claude JSON_parse) (line ++ nl) s) = written
  /\ res (IndexMjs.on_stdout_text (IndexMjs.gemini JSON_parse) (line ++ nl) s) = written.
Proof.
  intros Hj Ht Hc Hr Hne Hl Hb written. subst written.
  unfold on_stdout_text, IndexMjs.on_stdout_text. simpl parseStream.
  rewrite !one_line_res by assumption.
  unfold line_texts. rewrite Hne. simpl IndexMjs.parseStream.
  rewrite Hj. simpl lift. rewrite !bind_ret_l, is_assistant_message_obj, Ht, Hc.
  simpl andb. rewrite !bind_ret_l, (emit_text_blocks_eq kvs blocks Hc Hr).
  simpl. rewrite !app_nil_r. now repeat split.
Qed.

Lemma assistant_line_texts_witness :
  res (on_stdout_text (ApiRouter.claude Json.parse)
         (js "{'type':'assistant','message':{'content':[{'type':'text','text':'a'},{'type':'tool_use','id':'t'},{'type':'text','text':''},{'type':'text','text':'b'}]}}"
          ++ nl) initial)
  = [Write (sse_text (JStr "a")); Write (sse_text (JStr "b"))].
Proof.
  exact (proj1 (assistant_line_texts Json.parse
           (js "{'type':'assistant','message':{'content':[{'type':'text','text':'a'},{'type':'tool_use','id':'t'},{'type':'text','text':''},{'type':'text','text':'b'}]}}")
           _ _ initial eq_refl eq_refl eq_refl eq_refl eq_refl eq_refl eq_refl)).
Defined.

(** A line that carries an object of a type the parser does not know (a
    "result" event of claude, say, which repeats the assistant text) is
    dropped without a word: nothing is written.  For the claude parser of
    both files the known types are "assistant" and "content_block_delta"; for
    the codex parser of [src/unnamed/part_000], "item.completed". *)
Theorem unknown_event_types_are_skipped (JSON_parse : string -> option jsval)
  (line : string) (kvs : list (string * jsval)) (s : session) :
  JSON_parse line = Some (JObj kvs) ->
  no_LF line = true ->
  buffer s = "" ->
  (is_str (assoc "type" kvs) "assistant" = false ->
   is_str (assoc "type" kvs) "content_block_delta" = false ->
   res (on_stdout_text (ApiRouter.claude JSON_parse) (line ++ nl) s) = res s
   /\ res (IndexMjs.on_stdout_text (IndexMjs.claude JSON_parse) (line ++ nl) s) = res s)
  /\ (is_str (assoc "type" kvs) "item.completed" = false ->
      res (on_stdout_text (ApiRouter.codex JSON_parse) (line ++ nl) s) = res s).
Proof.
  intros Hj Hl Hb.
  unfold on_stdout_text, IndexMjs.on_stdout_text. simpl parseStream.
  rewrite !one_line_res by assumption. unfold line_texts.
  simpl IndexMjs.parseStream. rewrite Hj. simpl lift. rewrite !bind_ret_l.
  split.
  - intros Ha Hd.
    rewrite is_assistant_message_obj, Ha. simpl andb. rewrite !bind_ret_l.
    rewrite is_text_delta_obj, Hd. simpl andb. rewrite !bind_ret_l.
    destruct (nonempty (trim line)); simpl; now rewrite !app_nil_r.
  - intros Hc. run_parser. rewrite Hc.
    destruct (nonempty (trim line)); simpl; now rewrite !app_nil_r.
Qed.

Lemma unknown_event_types_are_skipped_witness :
  res (on_stdout_text (ApiRouter.claude Json.parse)
         (js "{'type':'result','subtype':'success','result':'Hello'}" ++ nl) initial)
  = [].
Proof.
  exact (proj1 (proj1 (unknown_event_types_are_skipped Json.parse
           (js "{'type':'result','subtype':'success','result':'Hello'}")
           _ initial eq_refl eq_refl eq_refl) eq_refl eq_refl)).
Defined.

(** What a parser does on a line whose JSON value is not an object.  On
    [null] every parser throws when it reads [json.type], with nothing
    emitted, so the line is handled like one that is not JSON (and, as it
    starts with neither brace nor bracket, is sent to the client as text).
    On a number, a string, a boolean or an array every parser returns
    normally with nothing emitted, so the line is dropped. *)
Theorem lines_that_are_not_objects (JSON_parse : string -> option jsval)
  (line : string) (v : jsval) (p : string -> list jsval * bool) :
  In p (parsers JSON_parse) ->
  JSON_parse line = Some v ->
  is_object v = false ->
  p line = ([], nullish v).
Proof.
  intros Hp Hj Ho. unfold parsers in Hp. simpl in Hp.
  destruct Hp as [<-|[<-|[<-|[<-|[<-|[]]]]]];
    unfold outcome, parser_of, ApiRouter.claude, ApiRouter.codex,
      IndexMjs.claude, IndexMjs.codex, IndexMjs.gemini;
    cbv beta iota delta [parseStream IndexMjs.parseStream];
    rewrite Hj; simpl lift;
    destruct v; try discriminate; reflexivity.
Qed.

Lemma lines_that_are_not_objects_witness :
  Forall (fun p => p "null" = ([], true)) (parsers Json.parse)
  /\ Forall (fun p => p (js "'plain'") = ([], false)) (parsers Json.parse).
Proof.
  split; apply Forall_forall; intros p Hp.
  - exact (lines_that_are_not_objects Json.parse "null" JNull p Hp eq_refl eq_refl).
  - exact (lines_that_are_not_objects Json.parse (js "'plain'") (JStr "plain") p Hp
             eq_refl eq_refl).
Defined.

(** A line gives at most one text with the codex parser of either file: the
    first shape that matches is emitted and the others are not looked at. *)
Theorem codex_emits_at_most_one (JSON_parse : string -> option jsval) (line : string) :
  (forall p, parseStream (ApiRouter.codex JSON_parse) = Some p ->
             (List.length (fst (p line)) <= 1)%nat)
  /\ (List.length (fst (IndexMjs.parseStream (IndexMjs.codex JSON_parse) line)) <= 1)%nat.
Proof.
  split.
  - intros p Hp. simpl in Hp. injection Hp as <-.
    destruct (JSON_parse line) as [json|]; [|simpl; lia].
    simpl lift. rewrite bind_ret_l.
    destruct json as [| |b|n|str|xs|kvs]; try (simpl; lia).
    run_parser.
    destruct (is_str (assoc "type" kvs) "item.completed"); [|simpl; lia].
    destruct (is_str (opt_prop (assoc "item" kvs) "type") "agent_message") eqn:E;
      [|simpl; lia].
    destruct (assoc "item" kvs); try discriminate. run_parser.
    destruct (truthy _); simpl; lia.
  - unfold IndexMjs.codex; simpl IndexMjs.parseStream.
    destruct (JSON_parse line) as [json|]; [|simpl; lia].
    simpl lift. rewrite bind_ret_l.
    destruct json as [| |b|n|str|xs|kvs]; try (simpl; lia).
    run_parser.
    destruct (is_str (assoc "type" kvs) "message" && truthy (assoc "content" kvs));
      [simpl; lia|].
    destruct (truthy (assoc "output_text" kvs)); [simpl; lia|].
    destruct (is_str (assoc "type" kvs) "response.output_text.delta"
              && truthy (assoc "delta" kvs)); [simpl; lia|].
    destruct (is_str (assoc "type" kvs) "response.completed"
              && truthy (opt_prop (assoc "response" kvs) "output_text")) eqn:E;
      [|simpl; lia].
    destruct (assoc "response" kvs); simpl; lia.
Qed.

Lemma codex_emits_at_most_one_witness :
  (List.length
     (fst (IndexMjs.parseStream (IndexMjs.codex Json.parse)
             (js "{'type':'message','content':'a','output_text':'b'}"))) <= 1)%nat.
Proof.
  exact (proj2 (codex_emits_at_most_one Json.parse
                  (js "{'type':'message','content':'a','output_text':'b'}"))).
Defined.

(** ** The two files on claude *)

Lemma line_texts_ext {A B : Type} (p : string -> Emit A) (q : string -> Emit B)
  (line : string) :
  outcome p line = outcome q line -> line_texts p line = line_texts q line.
Proof.
  unfold outcome, line_texts. intros H. injection H as H1 H2. rewrite H1.
  destruct (snd (p line)), (snd (q line)); try discriminate; reflexivity.
Qed.

Lemma feed_lines_ext {A B : Type} (p : string -> Emit A) (q : string -> Emit B)
  (text : string) (s : session) :
  (forall line, outcome p line = outcome q line) ->
  feed_lines p text s = feed_lines q text s.
Proof.
  intros H. unfold feed_lines. destruct (pop (split LF (buffer s ++ text))) as [lines last].
  rewrite !process_lines_eq. f_equal.
  induction lines as [|l ls IH]; simpl; [reflexivity|].
  now rewrite (line_texts_ext p q l (H l)), IH.
Qed.

Lemma flush_json_ext {A B : Type} (p : string -> Emit A) (q : string -> Emit B)
  (s : session) :
  (forall line, outcome p line = outcome q line) ->
  flush_json p s = flush_json q s.
Proof.
  intros H. specialize (H (buffer s)). unfold outcome in H. injection H as H1 H2.
  unfold flush_json.
  destruct (p (buffer s)) as [tp rp], (q (buffer s)) as [tq rq]. simpl in H1, H2.
  subst tq. destruct rp, rq; try discriminate; reflexivity.
Qed.

Lemma claude_parsers_agree (JSON_parse : string -> option jsval) (line : string) :
  outcome (IndexMjs.parseStream (IndexMjs.claude JSON_parse)) line
  = outcome (parser_of (ApiRouter.claude JSON_parse)) line.
Proof.
  unfold outcome, parser_of, ApiRouter.claude, IndexMjs.claude.
  cbv beta iota delta [parseStream IndexMjs.parseStream].
  destruct (JSON_parse line) as [json|]; [|reflexivity].
  simpl lift. rewrite !bind_ret_l.
  destruct (is_assistant_message json) as [o1 [[|]|]]; simpl; [| |reflexivity].
  - destruct (emit_text_blocks json) as [o2 [[]|]]; simpl; now rewrite ?app_nil_r.
  - destruct (is_text_delta json) as [o2 [[|]|]]; simpl; [| |reflexivity].
    + destruct (emit_delta_text json) as [o3 [[]|]]; simpl; now rewrite ?app_nil_r.
    + reflexivity.
Qed.

(** The two files treat claude alike: a session of the claude provider
    passes through the same states in both, whatever the events, and a
    request that names claude is answered by the same actions. *)
Theorem claude_is_the_same_in_both_files (JSON_parse : string -> option jsval) :
  (forall (name : jsval) (trace : list event) (s : session),
      IndexMjs.run name (IndexMjs.claude JSON_parse) trace s
      = run name (ApiRouter.claude JSON_parse) trace s)
  /\ (forall body : jsval,
      opt_prop body "provider" = JStr "claude" ->
      IndexMjs.chat JSON_parse body = ApiRouter.chat JSON_parse body).
Proof.
  split.
  - intros name trace. induction trace as [|e tr IH]; intros s; [reflexivity|].
    simpl. rewrite <- IH. f_equal.
    destruct e as [data|data| |code|message|]; try reflexivity.
    + unfold IndexMjs.step, step, IndexMjs.on_stdout_data, IndexMjs.on_stdout_text,
        on_stdout_data, on_stdout_text.
      apply feed_lines_ext. apply claude_parsers_agree.
    + unfold IndexMjs.step, step, IndexMjs.on_close, on_close. cbv zeta.
      simpl parseStream.
      rewrite (flush_json_ext _ (parser_of (ApiRouter.claude JSON_parse)) (set_exited s)
                 (claude_parsers_agree JSON_parse)).
      reflexivity.
  - intros body Hp. unfold IndexMjs.chat, ApiRouter.chat, IndexMjs.provider,
      ApiRouter.providerName, js_or. rewrite Hp. simpl truthy. cbv iota zeta.
    destruct body; try discriminate;
      destruct (opt_prop _ "messages") as [| | | | |[|m ms]|]; try reflexivity;
      simpl lookup; unfold ApiRouter.prompt; simpl embedSystemPrompt; simpl andb;
      destruct (join_messages (m :: ms)); reflexivity.
Qed.

Lemma claude_is_the_same_in_both_files_witness :
  let body := JObj [("provider", JStr "claude"); ("model", JStr "sonnet");
                    ("messages", conversation); ("systemPrompt", JStr "Be brief.")] in
  opt_prop body "provider" = JStr "claude"
  /\ IndexMjs.chat Json.parse body = ApiRouter.chat Json.parse body.
Proof.
  intros body. split; [reflexivity|].
  exact (proj2 (claude_is_the_same_in_both_files Json.parse) body eq_refl).
Defined.

(** ** Which process is started *)

Lemma own_command (JSON_parse : string -> option jsval) (k : string) :
  (forall t, own (ApiRouter.CLI_TOOLS JSON_parse) k = Some t ->
             command t = k /\ In k ["claude"; "codex"; "gemini"])
  /\ (forall t, own (IndexMjs.CLI_TOOLS JSON_parse) k = Some t ->
                IndexMjs.command t = k /\ In k ["claude"; "codex"; "gemini"]).
Proof.
  split; intros t H; unfold ApiRouter.CLI_TOOLS, IndexMjs.CLI_TOOLS, own in H;
    destruct (String.eqb_spec k "claude") as [->|];
    [ | destruct (String.eqb_spec k "codex") as [->|];
        [ | destruct (String.eqb_spec k "gemini") as [->|]; [|discriminate] ]
      | | destruct (String.eqb_spec k "codex") as [->|];
        [ | destruct (String.eqb_spec k "gemini") as [->|]; [|discriminate] ] ];
    injection H as <-; simpl; tauto.
Qed.

Lemma no_spawn_not_in (l : list action) (cmd : string) (args : list jsval) :
  existsb has_spawn l = false -> ~ In (Spawn cmd args) l.
Proof.
  intros H Hin. assert (K : existsb has_spawn l = true).
  { apply existsb_exists. now exists (Spawn cmd args). }
  congruence.
Qed.

Lemma spawn_shape (c : string) (a : list jsval) (after : list action)
  (cmd : string) (args : list jsval) :
  existsb has_spawn after = false ->
  In (Spawn cmd args) (spawn c a after) ->
  c = cmd /\ a = args
  /\ exists rest, spawn c a after = Spawn cmd args :: rest
                  /\ existsb has_spawn rest = false.
Proof.
  intros N. unfold spawn. destruct (spawn_refuses c a).
  { intros [H|[]]. discriminate. }
  destruct (forallb printable a).
  - intros [H|H]; [|now elim (no_spawn_not_in _ _ _ N H)].
    injection H as <- <-. repeat split. now exists after.
  - intros [H|[H|[]]]; [|discriminate].
    injection H as <- <-. repeat split. now exists [Throw].
Qed.

(** A handler either starts no process, or sends the streaming headers and
    goes on to start the provider that the table holds for the name. *)
Lemma ApiRouter_chat_shape (JSON_parse : string -> option jsval) (body : jsval) :
  existsb has_spawn (ApiRouter.chat JSON_parse body) = false
  \/ exists t text,
       lookup (ApiRouter.CLI_TOOLS JSON_parse) (ApiRouter.providerName body) = Own t
       /\ ApiRouter.chat JSON_parse body
          = (streaming_headers
             ++ ApiRouter.start (ApiRouter.providerName body) t (opt_prop body "model")
                  (opt_prop body "systemPrompt") text)%list.
Proof.
  unfold ApiRouter.chat. cbv zeta.
  destruct body; try (now left);
    destruct (opt_prop _ "messages") as [| | | | |[|m ms]|]; try (now left);
    destruct (printable _); try (now left);
    destruct (lookup _ _) as [t| |] eqn:El; try (now left);
    destruct (ApiRouter.prompt _ _ _) as [text|]; try (now left);
    right; now exists t, text.
Qed.

Lemma IndexMjs_chat_shape (JSON_parse : string -> option jsval) (body : jsval) :
  existsb has_spawn (IndexMjs.chat JSON_parse body) = false
  \/ exists t text,
       lookup (IndexMjs.CLI_TOOLS JSON_parse) (IndexMjs.provider body) = Own t
       /\ IndexMjs.chat JSON_parse body
          = (streaming_headers
             ++ IndexMjs.start (IndexMjs.provider body) t (opt_prop body "model")
                  (opt_prop body "systemPrompt") text)%list.
Proof.
  unfold IndexMjs.chat. cbv zeta.
  destruct body; try (now left);
    destruct (opt_prop _ "messages") as [| | | | |[|m ms]|]; try (now left);
    destruct (printable _); try (now left);
    destruct (lookup _ _) as [t| |] eqn:El; try (now left);
    destruct (join_messages _) as [text|]; try (now left);
    right; now exists t, text.
Qed.

(** A request starts a process only for a provider of the table, and then
    one process only, after the streaming headers: its command is the
    provider's name in the table, one of claude, codex and gemini, and never
    a string of the request. *)
Theorem only_registered_commands_are_started (JSON_parse : string -> option jsval)
  (body : jsval) (cmd : string) (args : list jsval) :
  (In (Spawn cmd args) (ApiRouter.chat JSON_parse body) ->
   In cmd ["claude"; "codex"; "gemini"]
   /\ cmd = to_string (ApiRouter.providerName body)
   /\ exists rest,
        ApiRouter.chat JSON_parse body = (streaming_headers ++ Spawn cmd args :: rest)%list
        /\ existsb has_spawn rest = false)
  /\ (In (Spawn cmd args) (IndexMjs.chat JSON_parse body) ->
      In cmd ["claude"; "codex"; "gemini"]
      /\ cmd = to_string (IndexMjs.provider body)
      /\ exists rest,
           IndexMjs.chat JSON_parse body = (streaming_headers ++ Spawn cmd args :: rest)%list
           /\ existsb has_spawn rest = false).
Proof.
  split.
  - intros Hin.
    destruct (ApiRouter_chat_shape JSON_parse body) as [N|(t & text & Hl & E)].
    { now elim (no_spawn_not_in _ cmd args N). }
    rewrite E in *. apply in_app_or in Hin as [Hin|Hin];
      [now elim (no_spawn_not_in streaming_headers cmd args eq_refl)|].
    unfold ApiRouter.start in *. cbv zeta in *.
    apply spawn_shape in Hin as (<- & <- & rest & R & N);
      [|now destruct (inputMode t)].
    apply lookup_own in Hl.
    destruct (proj1 (own_command JSON_parse _) t Hl) as [Hc Hk]. rewrite Hc.
    split; [exact Hk|]. split; [reflexivity|].
    exists rest. rewrite <- Hc, R. now split.
  - intros Hin.
    destruct (IndexMjs_chat_shape JSON_parse body) as [N|(t & text & Hl & E)].
    { now elim (no_spawn_not_in _ cmd args N). }
    rewrite E in *. apply in_app_or in Hin as [Hin|Hin];
      [now elim (no_spawn_not_in streaming_headers cmd args eq_refl)|].
    unfold IndexMjs.start in *. cbv zeta in *.
    apply spawn_shape in Hin as (<- & <- & rest & R & N);
      [|now destruct (IndexMjs.inputMode t)].
    apply lookup_own in Hl.
    destruct (proj2 (own_command JSON_parse _) t Hl) as [Hc Hk]. rewrite Hc.
    split; [exact Hk|]. split; [reflexivity|].
    exists rest. rewrite <- Hc, R. now split.
Qed.

Lemma only_registered_commands_are_started_witness :
  let body := JObj [ ("provider", JStr "codex"); ("model", JStr "rm -rf /");
                     ("messages", hi) ] in
  let args := [JStr "exec"; JStr "--json"; JStr "--model"; JStr "rm -rf /"] in
  In (Spawn "codex" args) (ApiRouter.chat Json.parse body)
  /\ In "codex" ["claude"; "codex"; "gemini"].
Proof.
  assert (H : In (Spawn "codex" [JStr "exec"; JStr "--json"; JStr "--model"; JStr "rm -rf /"])
                (ApiRouter.chat Json.parse
                   (JObj [ ("provider", JStr "codex"); ("model", JStr "rm -rf /");
                           ("messages", hi) ])))
    by (simpl; tauto).
  split; [exact H|].
  exact (proj1 (proj1 (only_registered_commands_are_started Json.parse _ _ _) H)).
Defined.

(** ** The list of providers *)

(** The names that [/health] lists, the names that the refusal of an unknown
    provider lists and the provider names that [/chat] finds in its table are
    the same: claude, codex and gemini, in both files. *)
Theorem health_lists_the_providers_of_chat (JSON_parse : string -> option jsval) :
  let names := [JStr "claude"; JStr "codex"; JStr "gemini"] in
  (ApiRouter.health JSON_parse
   = [Json (JObj [("status", JStr "ok"); ("providers", JArr names)])]
   /\ (forall name, exists message,
          unknown_provider (ApiRouter.CLI_TOOLS JSON_parse) name
          = [Status 400; Json (JObj [("error", JStr message); ("available", JArr names)])])
   /\ (forall key, In (JStr (to_string key)) names
                   <-> exists t, lookup (ApiRouter.CLI_TOOLS JSON_parse) key = Own t))
  /\ (IndexMjs.health JSON_parse
      = [Json (JObj [("status", JStr "ok"); ("providers", JArr names)])]
      /\ (forall name, exists message,
             unknown_provider (IndexMjs.CLI_TOOLS JSON_parse) name
             = [Status 400; Json (JObj [("error", JStr message); ("available", JArr names)])])
      /\ (forall key, In (JStr (to_string key)) names
                      <-> exists t, lookup (IndexMjs.CLI_TOOLS JSON_parse) key = Own t)).
Proof.
  intros names. split; (split; [reflexivity|split; [intros name; eexists; reflexivity|]]).
  - intros key. split.
    + intros [H|[H|[H|[]]]]; injection H as H; unfold lookup; rewrite <- H; simpl;
        eexists; reflexivity.
    + intros [t H]. apply lookup_own in H.
      destruct (proj1 (own_command JSON_parse _) t H) as [_ [E|[E|[E|[]]]]];
        rewrite <- E; simpl; tauto.
  - intros key. split.
    + intros [H|[H|[H|[]]]]; injection H as H; unfold lookup; rewrite <- H; simpl;
        eexists; reflexivity.
    + intros [t H]. apply lookup_own in H.
      destruct (proj2 (own_command JSON_parse _) t H) as [_ [E|[E|[E|[]]]]];
        rewrite <- E; simpl; tauto.
Qed.

(** ** The framing of events *)

Lemma no_control_app (a b : string) : no_control (a ++ b) = no_control a && no_control b.
Proof.
  induction a as [|c a IH]; simpl; [reflexivity|]. now rewrite IH, andb_assoc.
Qed.

Lemma quote_char_no_control (c : ascii) : no_control (quote_char c) = true.
Proof.
  destruct c as [[|] [|] [|] [|] [|] [|] [|] [|]]; reflexivity.
Qed.

Lemma hex1_no_control (n : N) : no_control (hex1 n) = true.
Proof.
  unfold hex1. pose proof (N.mod_upper_bound n 16) as H.
  assert (K : (N.modulo n 16 < 16)%N) by (apply H; discriminate).
  destruct (N.modulo n 16) as [|q]; [reflexivity|].
  do 4 (destruct q as [q|q|]; try reflexivity; try (exfalso; now destruct q)).
Qed.

Lemma surrogate_escape_no_control (b c : ascii) :
  no_control (surrogate_escape b c) = true.
Proof.
  unfold surrogate_escape. cbv zeta.
  change (no_control ("\u" ++ ?x)) with (no_control x).
  now rewrite !no_control_app, !hex1_no_control.
Qed.

Lemma quote_body_no_control : forall s : string, no_control (quote_body s) = true.
Proof.
  fix IH 1. intros s. destruct s as [|a s']; [reflexivity|].
  assert (G : no_control (quote_char a ++ quote_body s') = true)
    by (now rewrite no_control_app, quote_char_no_control, IH).
  destruct s' as [|b [|c rest]]; try exact G.
  cbn [quote_body]. fold (quote_body (String b (String c rest))).
  destruct (is_lone_surrogate a b c); [|exact G].
  now rewrite no_control_app, surrogate_escape_no_control, IH.
Qed.

Lemma quote_no_control (s : string) : no_control (quote s) = true.
Proof.
  unfold quote. now rewrite !no_control_app, quote_body_no_control.
Qed.

Lemma uint_no_control (u : Decimal.uint) :
  no_control (NilEmpty.string_of_uint u) = true.
Proof. induction u; simpl; auto. Qed.

Lemma dec_no_control (n : Z) : no_control (dec n) = true.
Proof.
  unfold dec, NilZero.string_of_int, NilZero.string_of_uint.
  destruct (Z.to_int n) as [u|u]; [|simpl]; destruct u; try reflexivity;
    apply (uint_no_control (_ u)) || (simpl; apply uint_no_control).
Qed.

Lemma zeros_no_control (n : nat) : no_control (zeros n) = true.
Proof. induction n as [|n IH]; [reflexivity | exact IH]. Qed.

Lemma digits_exp_no_control (x : Z) : no_control (digits_exp x) = true.
Proof.
  unfold digits_exp.
  destruct (shortest _ 1 x _) as [s n].
  pose proof (dec_no_control s) as Hs.
  destruct (Z.leb n 21).
  - now rewrite no_control_app, Hs, zeros_no_control.
  - destruct (dec s) as [|d rest]; [reflexivity|].
    simpl in Hs. apply andb_prop in Hs as [Hd Hrest].
    destruct rest as [|d' rest'].
    + simpl. rewrite Hd. simpl. apply dec_no_control.
    + cbn [no_control]. rewrite Hd. cbn [andb].
      change (no_control ("." ++ String d' rest' ++ "e+" ++ dec (n - 1)) = true).
      rewrite !no_control_app, Hrest, dec_no_control. reflexivity.
Qed.

Lemma Number_toString_no_control (n : Z) : no_control (Number_toString n) = true.
Proof.
  unfold Number_toString.
  destruct (Z.leb (Z.abs n) 9007199254740992); [apply dec_no_control|].
  destruct (is_finite n).
  - rewrite no_control_app, digits_exp_no_control. now destruct (Z.ltb n 0).
  - now destruct (Z.ltb n 0).
Qed.

Lemma concat_no_control (parts : list string) :
  Forall (fun x => no_control x = true) parts ->
  no_control (String.concat "," parts) = true.
Proof.
  induction parts as [|x xs IH]; intros H; [reflexivity|].
  inversion H as [|? ? Hx Hxs]; subst. simpl.
  destruct xs as [|y ys]; [exact Hx|].
  rewrite no_control_app, Hx. simpl. now apply IH.
Qed.

Lemma serialize_no_control : forall (v : jsval) (s : string),
  serialize v = Some s -> no_control s = true.
Proof.
  fix IH 1. intros v s H. destruct v as [| |b|n|str|xs|kvs]; simpl in H.
  - discriminate.
  - now injection H as <-.
  - destruct b; now injection H as <-.
  - injection H as <-.
    destruct (is_finite n); [apply Number_toString_no_control | reflexivity].
  - injection H as <-. apply quote_no_control.
  - injection H as <-. simpl. rewrite no_control_app. simpl. rewrite andb_true_r.
    apply concat_no_control.
    induction xs as [|x xs IHxs]; simpl; constructor; [|exact IHxs].
    destruct (serialize x) as [sx|] eqn:E; [exact (IH x sx E) | reflexivity].
  - injection H as <-. simpl. rewrite no_control_app. simpl. rewrite andb_true_r.
    apply concat_no_control.
    induction kvs as [|[k x] kvs IHk]; simpl; [constructor|].
    destruct (serialize x) as [sx|] eqn:E; [|exact IHk].
    apply Forall_cons; [|exact IHk].
    cbn [fst]. simpl. rewrite !no_control_app, quote_body_no_control. simpl.
    exact (IH x sx E).
Qed.

(** Every chunk the program writes is one event of the stream: "data: ", a
    payload without control character, and the blank line that ends the
    event.  Whatever text a fragment or an error message holds, also line
    feeds, carriage returns and the text of the terminal marker, it cannot
    end the event early or start another. *)
Theorem every_chunk_is_one_event :
  (forall text : jsval,
      exists payload, sse_text text = "data: " ++ payload ++ nl ++ nl
                      /\ no_control payload = true)
  /\ (forall message : string,
      exists payload, sse_error message = "data: " ++ payload ++ nl ++ nl
                      /\ no_control payload = true)
  /\ DONE = "data: " ++ "[DONE]" ++ nl ++ nl.
Proof.
  split; [|split; [|reflexivity]].
  - intros text. exists (JSON_stringify (JObj [("text", text)])). split; [reflexivity|].
    unfold JSON_stringify.
    destruct (serialize (JObj [("text", text)])) as [s|] eqn:E; [|reflexivity].
    exact (serialize_no_control _ _ E).
  - intros message. exists (JSON_stringify (JObj [("error", JStr message)])).
    split; [reflexivity|]. unfold JSON_stringify.
    destruct (serialize (JObj [("error", JStr message)])) as [s|] eqn:E; [|reflexivity].
    exact (serialize_no_control _ _ E).
Qed.

(** ** What a stream is made of *)

Lemma emits_only_bind {A B : Type} (P : jsval -> bool) (m : Emit A) (f : A -> Emit B) :
  emits_only P m ->
  (forall a, snd m = Some a -> emits_only P (f a)) ->
  emits_only P (bind m f).
Proof.
  unfold emits_only, bind. destruct m as [out [a|]]; simpl; intros H K; [|exact H].
  specialize (K a eq_refl). destruct (f a) as [out' r]. simpl in *.
  now rewrite forallb_app, H, K.
Qed.

Lemma emits_only_lift {A : Type} (P : jsval -> bool) (o : option A) :
  emits_only P (lift o).
Proof. now destruct o. Qed.

Lemma emits_only_emit (P : jsval -> bool) (v : jsval) :
  P v = true -> emits_only P (emit v).
Proof. unfold emits_only. simpl. intros ->. reflexivity. Qed.

Lemma emits_only_for_of (P : jsval -> bool) (xs : list jsval) (body : jsval -> Emit unit) :
  (forall x, emits_only P (body x)) -> emits_only P (for_of xs body).
Proof.
  intros H. induction xs as [|x xs IH]; [reflexivity|].
  simpl. apply emits_only_bind; [apply H | intros _ _; exact IH].
Qed.

Lemma get_opt_prop (v : jsval) (k : string) (x : jsval) :
  snd (get v k) = Some x -> opt_prop v k = x.
Proof.
  unfold get, opt_prop. destruct (prop v k); simpl; [|discriminate].
  now intros [= ->].
Qed.

Lemma emit_text_blocks_truthy (json : jsval) : emits_only truthy (emit_text_blocks json).
Proof.
  unfold emit_text_blocks.
  apply emits_only_bind; [apply emits_only_lift | intros m _].
  apply emits_only_bind; [apply emits_only_lift | intros content _].
  apply emits_only_bind; [apply emits_only_lift | intros blocks _].
  apply emits_only_for_of. intros block.
  apply emits_only_bind; [apply emits_only_lift | intros bt _].
  destruct (is_str bt "text"); [|reflexivity].
  apply emits_only_bind; [apply emits_only_lift | intros t _].
  destruct (truthy t) eqn:E; [now apply emits_only_emit | reflexivity].
Qed.

Lemma emit_delta_text_truthy (json : jsval) :
  snd (is_text_delta json) = Some true -> emits_only truthy (emit_delta_text json).
Proof.
  destruct json as [| |b|n|str|xs|kvs]; try discriminate.
  rewrite is_text_delta_obj. simpl. intros [= H].
  apply andb_prop in H as [_ H].
  unfold emit_delta_text.
  apply emits_only_bind; [apply emits_only_lift | intros d Hd].
  apply emits_only_bind; [apply emits_only_lift | intros t Ht].
  apply emits_only_emit.
  apply get_opt_prop in Ht. simpl in Hd. injection Hd as <-. now rewrite <- Ht.
Qed.

Lemma claude_emits_truthy (json : jsval) :
  emits_only truthy
    (a <- is_assistant_message json ;;
     if a then emit_text_blocks json
     else
       d <- is_text_delta json ;;
       if d then emit_delta_text json else ret tt)%emit.
Proof.
  apply emits_only_bind.
  { unfold is_assistant_message. apply emits_only_bind; [apply emits_only_lift|intros ty _].
    destruct (is_str ty "assistant"); [|reflexivity].
    apply emits_only_bind; [apply emits_only_lift | reflexivity]. }
  intros [|] _; [apply emit_text_blocks_truthy|].
  apply emits_only_bind.
  { unfold is_text_delta. apply emits_only_bind; [apply emits_only_lift|intros ty _].
    destruct (is_str ty "content_block_delta"); [|reflexivity].
    apply emits_only_bind; [apply emits_only_lift | reflexivity]. }
  intros [|] Hd; [now apply emit_delta_text_truthy | reflexivity].
Qed.

Ltac emitted :=
  first [ apply emits_only_bind; [now apply emits_only_emit | reflexivity]
        | unfold emits_only; simpl;
          repeat match goal with H : truthy _ = true |- _ => rewrite H end;
          reflexivity ].

Lemma parsers_emit_truthy (JSON_parse : string -> option jsval)
  (p : string -> list jsval * bool) (line : string) :
  In p (parsers JSON_parse) -> forallb truthy (fst (p line)) = true.
Proof.
  intros [<-|[<-|[<-|[<-|[<-|[]]]]]]; unfold outcome; simpl fst.
  - unfold parser_of, ApiRouter.claude. cbv beta iota delta [parseStream].
    apply emits_only_bind; [apply emits_only_lift | intros json _].
    apply claude_emits_truthy.
  - unfold parser_of, ApiRouter.codex. cbv beta iota delta [parseStream].
    apply emits_only_bind; [apply emits_only_lift | intros json _].
    apply emits_only_bind; [apply emits_only_lift | intros ty _].
    destruct (is_str ty "item.completed"); [|reflexivity].
    apply emits_only_bind; [apply emits_only_lift | intros item _].
    destruct (is_str (opt_prop item "type") "agent_message"); [|reflexivity].
    apply emits_only_bind; [apply emits_only_lift | intros t _].
    destruct (truthy t) eqn:E; [now apply emits_only_emit | reflexivity].
  - unfold IndexMjs.claude. cbv beta iota delta [IndexMjs.parseStream].
    apply emits_only_bind; [apply emits_only_lift | intros json _].
    apply emits_only_bind.
    { unfold is_assistant_message. apply emits_only_bind; [apply emits_only_lift|intros ty _].
      destruct (is_str ty "assistant"); [|reflexivity].
      apply emits_only_bind; [apply emits_only_lift | reflexivity]. }
    intros [|] _.
    { apply emits_only_bind; [apply emit_text_blocks_truthy | reflexivity]. }
    apply emits_only_bind.
    { unfold is_text_delta. apply emits_only_bind; [apply emits_only_lift|intros ty _].
      destruct (is_str ty "content_block_delta"); [|reflexivity].
      apply emits_only_bind; [apply emits_only_lift | reflexivity]. }
    intros [|] Hd; [|reflexivity].
    apply emits_only_bind; [now apply emit_delta_text_truthy | reflexivity].
  - unfold IndexMjs.codex. cbv beta iota delta [IndexMjs.parseStream].
    apply emits_only_bind; [apply emits_only_lift | intros json _].
    apply emits_only_bind; [apply emits_only_lift | intros ty _].
    apply emits_only_bind; [apply emits_only_lift | intros content _].
    destruct (is_str ty "message" && truthy content) eqn:E1.
    { apply andb_prop in E1 as [_ E1].
      emitted. }
    apply emits_only_bind; [apply emits_only_lift | intros output_text _].
    destruct (truthy output_text) eqn:E2.
    { emitted. }
    apply emits_only_bind; [apply emits_only_lift | intros delta _].
    destruct (is_str ty "response.output_text.delta" && truthy delta) eqn:E3.
    { apply andb_prop in E3 as [_ E3].
      emitted. }
    apply emits_only_bind; [apply emits_only_lift | intros response _].
    destruct (is_str ty "response.completed"
              && truthy (opt_prop response "output_text")) eqn:E4; [|reflexivity].
    apply andb_prop in E4 as [_ E4].
    apply emits_only_bind; [apply emits_only_lift | intros t Ht].
    apply get_opt_prop in Ht. rewrite Ht in E4.
    emitted.
  - unfold IndexMjs.gemini. cbv beta iota delta [IndexMjs.parseStream].
    apply emits_only_bind; [apply emits_only_lift | intros json _].
    apply emits_only_bind.
    { unfold is_assistant_message. apply emits_only_bind; [apply emits_only_lift|intros ty _].
      destruct (is_str ty "assistant"); [|reflexivity].
      apply emits_only_bind; [apply emits_only_lift | reflexivity]. }
    intros [|] _.
    { apply emits_only_bind; [apply emit_text_blocks_truthy | reflexivity]. }
    apply emits_only_bind.
    { unfold is_text_delta. apply emits_only_bind; [apply emits_only_lift|intros ty _].
      destruct (is_str ty "content_block_delta"); [|reflexivity].
      apply emits_only_bind; [apply emits_only_lift | reflexivity]. }
    intros [|] Hd.
    { apply emits_only_bind; [now apply emit_delta_text_truthy | reflexivity]. }
    apply emits_only_bind; [apply emits_only_lift | intros partialText _].
    destruct (truthy partialText) eqn:E1.
    { emitted. }
    apply emits_only_bind; [apply emits_only_lift | intros text _].
    apply emits_only_bind; [apply emits_only_lift | intros ty _].
    destruct (truthy text && negb (truthy ty)) eqn:E2; [|reflexivity].
    apply andb_prop in E2 as [E2 _].
    emitted.
Qed.

Lemma text_writes_are_chunks (name : jsval) (texts : list jsval) :
  forallb truthy texts = true ->
  Forall (stream_chunk name) (map (fun v => Write (sse_text v)) texts).
Proof.
  intros H. apply Forall_forall. intros op Hop.
  apply in_map_iff in Hop as [v [<- Hv]]. left. exists v. split; [|reflexivity].
  rewrite forallb_forall in H. now apply H.
Qed.

Lemma line_texts_truthy {A : Type} (p : string -> Emit A) (line : string) :
  forallb truthy (fst (p line)) = true ->
  forallb truthy (line_texts p line) = true.
Proof.
  intros H. unfold line_texts. destruct (nonempty (trim line)); [|reflexivity].
  rewrite forallb_app, H. destruct (snd (p line)); [reflexivity|]. simpl.
  destruct (negb (startsWith (trim line) "{") && negb (startsWith (trim line) "["));
    [|reflexivity].
  simpl. now destruct (trim line).
Qed.

Lemma residual_texts_truthy {A : Type} (p : string -> Emit A) (b : bool) (buf : string) :
  forallb truthy (fst (p buf)) = true ->
  nonempty (trim buf) = true ->
  forallb truthy (residual_texts p b buf) = true.
Proof.
  intros H Hb. unfold residual_texts. rewrite forallb_app, H.
  destruct (snd (p buf)); [reflexivity|]. destruct (fst (p buf)); [|reflexivity].
  destruct b; [reflexivity|]. simpl. now rewrite Hb.
Qed.

Lemma step_chunks (name : jsval) (t : tool) (s : session) (e : event) :
  (forall p line, parseStream t = Some p -> forallb truthy (fst (p line)) = true) ->
  Forall (stream_chunk name) (res s) ->
  Forall (stream_chunk name) (res (step name t s e)).
Proof.
  intros Hp H. destruct e as [data|data| |code|message|]; simpl.
  - unfold on_stdout_data, on_stdout_text. destruct (parseStream t) as [p|] eqn:E.
    + unfold feed_lines.
      destruct (pop (split LF (buffer s ++ Buffer_toString data))) as [lines last].
      rewrite process_lines_eq. simpl. apply Forall_app. split; [exact H|].
      apply text_writes_are_chunks.
      induction lines as [|l ls IH]; [reflexivity|]. simpl.
      rewrite forallb_app, IH, andb_true_r.
      apply line_texts_truthy. now apply Hp.
    + destruct (nonempty (Buffer_toString data)) eqn:N; [|exact H].
      simpl. apply Forall_app. split; [exact H|].
      constructor; [|constructor]. left. now exists (JStr (Buffer_toString data)).
  - unfold on_stderr_data. cbv zeta.
    now destruct (nonempty (trim (Buffer_toString data))).
  - exact H.
  - assert (K : Forall (stream_chunk name)
                  (res (on_close name t (Some 0%Z) (set_exited s)))).
    { unfold on_close. cbv zeta. simpl is_zero. cbv iota. simpl res.
      apply Forall_app. split; [|constructor; constructor].
      apply Forall_app. split; [|constructor; [now right; right | constructor]].
      simpl buffer.
      destruct (nonempty (trim (buffer s))) eqn:N; [|exact H].
      destruct (parseStream t) as [p|] eqn:E.
      - rewrite flush_json_res. apply Forall_app. split; [exact H|].
        apply text_writes_are_chunks. apply residual_texts_truthy; [|exact N].
        now apply Hp.
      - simpl. apply Forall_app. split; [exact H|].
        constructor; [|constructor]. left. now exists (JStr (trim (buffer s))). }
    unfold on_close in *. cbv zeta in *. simpl is_zero in K. cbv iota in K.
    now destruct (is_zero code).
  - unfold on_error. simpl. rewrite <- !app_assoc. apply Forall_app. split; [exact H|].
    simpl. constructor; [now right; left|].
    constructor; [now right; right|]. constructor; [exact I | constructor].
  - unfold on_res_close, proc_kill. now destruct (killed s), (exited s).
Qed.

Lemma run_chunks (name : jsval) (t : tool) (trace : list event) (s : session) :
  (forall p line, parseStream t = Some p -> forallb truthy (fst (p line)) = true) ->
  Forall (stream_chunk name) (res s) ->
  Forall (stream_chunk name) (res (run name t trace s)).
Proof.
  intros Hp. revert s. induction trace as [|e tr IH]; intros s H; [exact H|].
  simpl. apply IH. now apply step_chunks.
Qed.

(** No empty event: every parser of the two tables emits only values that
    are not empty (truthy), whatever the line; and whatever the events of a
    session of a registered provider, every chunk written to the response
    is a text event whose text is not empty, the error event of a provider
    that could not be started, or the terminal marker. *)
Theorem text_events_are_never_empty (JSON_parse : string -> option jsval) :
  (forall p line, In p (parsers JSON_parse) -> forallb truthy (fst (p line)) = true)
  /\ (forall key t name trace,
         In (key, t) (ApiRouter.CLI_TOOLS JSON_parse) ->
         Forall (stream_chunk name) (res (run name t trace initial)))
  /\ (forall key t name trace,
         In (key, t) (IndexMjs.CLI_TOOLS JSON_parse) ->
         Forall (stream_chunk name) (res (IndexMjs.run name t trace initial))).
Proof.
  split; [intros p line; apply parsers_emit_truthy|]. split.
  - intros key t name trace Ht. apply run_chunks; [|constructor].
    intros p line Hp.
    destruct Ht as [E|[E|[E|[]]]]; injection E as _ <-; simpl in Hp;
      try discriminate; injection Hp as <-.
    + apply (parsers_emit_truthy JSON_parse
               (outcome (parser_of (ApiRouter.claude JSON_parse)))). simpl. tauto.
    + apply (parsers_emit_truthy JSON_parse
               (outcome (parser_of (ApiRouter.codex JSON_parse)))). simpl. tauto.
  - intros key t name trace Ht. rewrite IndexMjs_run. apply run_chunks; [|constructor].
    intros p line Hp. simpl in Hp. injection Hp as <-. unfold forget. simpl fst.
    destruct Ht as [E|[E|[E|[]]]]; injection E as _ <-.
    + apply (parsers_emit_truthy JSON_parse
               (outcome (IndexMjs.parseStream (IndexMjs.claude JSON_parse)))). simpl. tauto.
    + apply (parsers_emit_truthy JSON_parse
               (outcome (IndexMjs.parseStream (IndexMjs.codex JSON_parse)))). simpl. tauto.
    + apply (parsers_emit_truthy JSON_parse
               (outcome (IndexMjs.parseStream (IndexMjs.gemini JSON_parse)))). simpl. tauto.
Qed.

Lemma text_events_are_never_empty_witness :
  Forall (stream_chunk (JStr "codex"))
    (res (run (JStr "codex") (ApiRouter.codex Json.parse)
            [ StdoutData (js "{'type':'item.completed','item':{'type':'agent_message','text':'Hi'}}" ++ nl);
              StdoutData "warming up";
              ProcClose (Some 1%Z) ] initial)).
Proof.
  exact (proj1 (proj2 (text_events_are_never_empty Json.parse)) "codex"
           (ApiRouter.codex Json.parse) (JStr "codex") _
           (or_intror (or_introl eq_refl))).
Defined.

(** ** A provider that cannot be started *)

Lemma run_appends (name : jsval) (t : tool) (trace : list event) (s : session) :
  exists more, res (run name t trace s) = (res s ++ more)%list.
Proof.
  revert s. induction trace as [|e tr IH]; intros s.
  - exists []. simpl. now rewrite app_nil_r.
  - destruct (step_shape name t s e) as [ws [_ E]].
    destruct (IH (step name t s e)) as [more M].
    exists ((map Write ws ++ closing e) ++ more)%list.
    change (run name t (e :: tr) s) with (run name t tr (step name t s e)).
    now rewrite M, E, <- !app_assoc.
Qed.

Lemma failed_start (name : jsval) (t : tool) (pre rest : list event) (message : string) :
  forallb nonterminal pre = true ->
  sent (res (run name t (pre ++ ProcError message :: rest) initial))
  = (sent (res (run name t pre initial)) ++ [start_failure name; DONE])%list.
Proof.
  intros Hpre.
  assert (R : run name t (pre ++ ProcError message :: rest) initial
              = run name t rest (step name t (run name t pre initial) (ProcError message))).
  { unfold run. now rewrite fold_left_app. }
  rewrite R.
  destruct (writes_before_exit name t pre initial Hpre) as [ws [_ E]].
  destruct (run_appends name t rest (step name t (run name t pre initial) (ProcError message)))
    as [more M].
  rewrite M.
  assert (S : res (step name t (run name t pre initial) (ProcError message))
              = (res (run name t pre initial)
                 ++ [Write (start_failure name); Write DONE; End])%list).
  { unfold step, on_error. simpl. now rewrite <- !app_assoc. }
  rewrite S, E. simpl app.
  rewrite sent_app, ended_app. simpl ended at 2. rewrite orb_true_r.
  rewrite sent_app, ended_writes. reflexivity.
Qed.

(** When the process reports an error before it has closed, which is what
    happens when the provider's program cannot be started, the client
    receives what had been written so far, then one error event that
    names the provider as the request gave it, then the terminal marker,
    and nothing after: the residual buffer is not flushed, and the 'close'
    that follows a failed start adds nothing.  In both files, whatever the
    provider. *)
Theorem failed_start_stream :
  (forall (name : jsval) (t : tool) (pre rest : list event) (message : string),
      forallb nonterminal pre = true ->
      sent (res (run name t (pre ++ ProcError message :: rest) initial))
      = (sent (res (run name t pre initial)) ++ [start_failure name; DONE])%list)
  /\ (forall (name : jsval) (t : IndexMjs.tool) (pre rest : list event) (message : string),
      forallb nonterminal pre = true ->
      sent (res (IndexMjs.run name t (pre ++ ProcError message :: rest) initial))
      = (sent (res (IndexMjs.run name t pre initial))
         ++ [start_failure name; DONE])%list).
Proof.
  split.
  - exact failed_start.
  - intros name t pre rest message H. rewrite !IndexMjs_run. now apply failed_start.
Qed.

Lemma failed_start_stream_witness :
  sent (res (run (JStr "claude") (ApiRouter.claude Json.parse)
               ([StdoutData "partial"; StderrData "boom"]
                ++ ProcError "spawn claude ENOENT" :: [ProcClose (Some (-2)%Z)]) initial))
  = [start_failure (JStr "claude"); DONE].
Proof.
  exact (proj1 failed_start_stream (JStr "claude") (ApiRouter.claude Json.parse)
           [StdoutData "partial"; StderrData "boom"] [ProcClose (Some (-2)%Z)]
           "spawn claude ENOENT" eq_refl).
Defined.

(** ** A process that [spawn] refuses to start *)

Lemma refused_spawn_opens_stream_witness :
  let body := JObj [ ("provider", JStr "codex"); ("model", JStr (String NUL "o3"));
                     ("messages", hi) ] in
  IndexMjs.chat Json.parse body = (streaming_headers ++ [Throw])%list.
Proof.
  exact (proj2 (refused_spawn_opens_stream Json.parse
                  (JObj [ ("provider", JStr "codex"); ("model", JStr (String NUL "o3"));
                          ("messages", hi) ])
                  _ _ eq_refl eq_refl)
           (IndexMjs.codex Json.parse) eq_refl eq_refl).
Defined.
